(** * QuentrexClaw v5: the ICT analysis core, the agent council and the
      walk-forward backtest, embedded from the TypeScript sources

    Sources embedded here (under [projects/quentrexsclaw-v5/src]):
    - [types/index.ts]       the records and enumerations;
    - [utils/ict.ts]         swing, structure, order-block, fair-value-gap
                             and premium/discount detectors, breaker blocks,
                             balanced price ranges, scoring helpers;
    - [utils/liquidity.ts]   liquidity sweeps, sweeps on two timeframes,
                             sweep+FVG setups, magnets;
    - [utils/agents.ts]      the five scoring agents and [runCouncil];
    - [hooks/useKillzone.ts] killzone lookup, the next killzone of the hook,
                             [runBacktest], [calcMetrics].
    Left out: the React state of the hooks, the screens, the table
    [MTF_CONFIGS] and the colour helpers.

    Numbers.  A JavaScript [number] is modelled by [num]: an exact rational
    or one of the three non-finite values NaN, +Infinity, -Infinity.  The
    arithmetic follows IEEE-754 on the non-finite values (x/0, 0/0,
    Infinity-Infinity, comparisons with NaN) and is exact on the finite ones:
    binary64 rounding, overflow and the sign of zero are not modelled (a
    zero is +0).  Array indices and lengths are [nat]; the result of
    [findIndex], which can be -1, is a [Z].

    Exceptions.  Reading a property of [undefined] (an array read out of
    range followed by a field access) raises [TypeError]; [throw new Error]
    raises [Error].  Functions that read arrays by index return [result].

    Loops.  A [for] loop over an index range is a recursion over the list
    of its indices; a [break] is an early return from that recursion.
    Objects mutated in place ([ob.mitigated = true], [fvg.fillPercent = ...])
    are records rebuilt by the loop that mutates them.

    The runtime.  [Date] (local hours and minutes, zone offset) is a
    parameter of the backtest; [Date.now()] is not modelled. *)

From Stdlib Require Import String.
From Stdlib Require Import List ZArith QArith Qround Qabs Qminmax Lqa Lia Bool Arith.
From Stdlib Require Import Permutation Sorted.
Import ListNotations.

(* ================================================================== *)
(** * JavaScript numbers *)
(* ================================================================== *)

Module JsNum.

Local Open Scope Q_scope.

Inductive num : Type :=
| NaN
| NegInf
| Fin (q : Q)
| PosInf.

Definition Qlt_bool (x y : Q) : bool := negb (Qle_bool y x).

Definition neg (a : num) : num :=
  match a with
  | NaN => NaN
  | NegInf => PosInf
  | Fin q => Fin (- q)
  | PosInf => NegInf
  end.

Definition add (a b : num) : num :=
  match a, b with
  | NaN, _ | _, NaN => NaN
  | Fin x, Fin y => Fin (x + y)
  | PosInf, NegInf | NegInf, PosInf => NaN
  | PosInf, _ | _, PosInf => PosInf
  | NegInf, _ | _, NegInf => NegInf
  end.

Definition sub (a b : num) : num := add a (neg b).

(** Sign of a finite factor, as multiplication by an infinity sees it. *)
Definition scaleInf (pos : bool) (q : Q) : num :=
  if Qeq_bool q 0 then NaN
  else if Qlt_bool 0 q then (if pos then PosInf else NegInf)
  else (if pos then NegInf else PosInf).

Definition mul (a b : num) : num :=
  match a, b with
  | NaN, _ | _, NaN => NaN
  | Fin x, Fin y => Fin (x * y)
  | PosInf, Fin y | Fin y, PosInf => scaleInf true y
  | NegInf, Fin y | Fin y, NegInf => scaleInf false y
  | PosInf, PosInf | NegInf, NegInf => PosInf
  | PosInf, NegInf | NegInf, PosInf => NegInf
  end.

Definition div (a b : num) : num :=
  match a, b with
  | NaN, _ | _, NaN => NaN
  | Fin x, Fin y =>
      if Qeq_bool y 0 then
        (if Qeq_bool x 0 then NaN
         else if Qlt_bool 0 x then PosInf else NegInf)
      else Fin (x / y)
  | Fin _, (PosInf | NegInf) => Fin 0
  | PosInf, Fin y => if Qlt_bool y 0 then NegInf else PosInf
  | NegInf, Fin y => if Qlt_bool y 0 then PosInf else NegInf
  | (PosInf | NegInf), (PosInf | NegInf) => NaN
  end.

(** [a < b], [a <= b], [a === b]: false as soon as an operand is NaN. *)
Definition ltb (a b : num) : bool :=
  match a, b with
  | NaN, _ | _, NaN => false
  | Fin x, Fin y => Qlt_bool x y
  | NegInf, NegInf => false
  | NegInf, _ => true
  | _, NegInf => false
  | PosInf, _ => false
  | _, PosInf => true
  end.

Definition leb (a b : num) : bool :=
  match a, b with
  | NaN, _ | _, NaN => false
  | Fin x, Fin y => Qle_bool x y
  | NegInf, _ => true
  | _, NegInf => false
  | _, PosInf => true
  | PosInf, _ => false
  end.

Definition eqb (a b : num) : bool :=
  match a, b with
  | Fin x, Fin y => Qeq_bool x y
  | NegInf, NegInf | PosInf, PosInf => true
  | _, _ => false
  end.

Definition gtb (a b : num) : bool := ltb b a.
Definition geb (a b : num) : bool := leb b a.

(** [Math.min], [Math.max], [Math.abs], [Math.round]. *)
Definition min (a b : num) : num :=
  match a, b with
  | NaN, _ | _, NaN => NaN
  | _, _ => if leb a b then a else b
  end.

Definition max (a b : num) : num :=
  match a, b with
  | NaN, _ | _, NaN => NaN
  | _, _ => if leb a b then b else a
  end.

Definition abs (a : num) : num :=
  match a with
  | NaN => NaN
  | NegInf | PosInf => PosInf
  | Fin q => Fin (Qabs q)
  end.

(** [Math.round] rounds to the nearest integer, halves towards +Infinity. *)
Definition round (a : num) : num :=
  match a with
  | Fin q => Fin (inject_Z (Qfloor (q + (1 # 2))))
  | _ => a
  end.

(** [Math.max(...xs)] and [Math.min(...xs)] over a spread array. *)
Definition maxList (xs : list num) : num := fold_left max xs NegInf.
Definition minList (xs : list num) : num := fold_left min xs PosInf.

(** [xs.reduce((s, x) => s + x, 0)]. *)
Definition sum (xs : list num) : num := fold_left add xs (Fin 0).

Definition isFinite (a : num) : bool :=
  match a with Fin _ => true | _ => false end.

(** Two numbers are the same value: Leibniz equality up to the
    representation of the rational. *)
Definition same (a b : num) : Prop :=
  match a, b with
  | NaN, NaN | NegInf, NegInf | PosInf, PosInf => True
  | Fin x, Fin y => x == y
  | _, _ => False
  end.

(** Integer and decimal literals. *)
Definition ofZ (z : Z) : num := Fin (inject_Z z).
Definition ofNat (n : nat) : num := ofZ (Z.of_nat n).

End JsNum.

Import JsNum.

Declare Scope num_scope.
Delimit Scope num_scope with num.
Bind Scope num_scope with num.
Infix "+" := add : num_scope.
Infix "-" := sub : num_scope.
Infix "*" := mul : num_scope.
Infix "/" := div : num_scope.
Infix "<?" := ltb : num_scope.
Infix "<=?" := leb : num_scope.
Infix ">?" := gtb : num_scope.
Infix ">=?" := geb : num_scope.
Infix "===" := eqb (at level 70) : num_scope.
Notation "a == b" := (same a b) : num_scope.

Local Open Scope num_scope.

(* ================================================================== *)
(** * Exceptions, arrays and [Array.prototype.sort] *)
(* ================================================================== *)

Inductive exn : Type :=
| TypeError
| Error (msg : string).

Inductive result (A : Type) : Type :=
| Ok (a : A)
| Throw (e : exn).

Arguments Ok {A} a.
Arguments Throw {A} e.

Definition bind {A B : Type} (m : result A) (k : A -> result B) : result B :=
  match m with
  | Ok a => k a
  | Throw e => Throw e
  end.

Notation "x <- m ;; k" := (bind m (fun x => k))
  (at level 61, m at next level, right associativity).

Definition returns {A : Type} (m : result A) : Prop := exists a, m = Ok a.

(** [xs[i].field]: the element, or [TypeError] when [xs[i]] is [undefined]. *)
Definition get {A : Type} (xs : list A) (i : nat) : result A :=
  match nth_error xs i with
  | Some x => Ok x
  | None => Throw TypeError
  end.

(** [xs.findIndex(p)], -1 when no element satisfies [p]. *)
Fixpoint findIndexFrom {A : Type} (p : A -> bool) (xs : list A) (i : Z) : Z :=
  match xs with
  | [] => (-1)%Z
  | x :: xs' => if p x then i else findIndexFrom p xs' (i + 1)%Z
  end.

Definition findIndex {A : Type} (p : A -> bool) (xs : list A) : Z :=
  findIndexFrom p xs 0%Z.

(** [xs.slice(-n)]: the last [n] elements. *)
Definition lastN {A : Type} (n : nat) (xs : list A) : list A :=
  skipn (length xs - n) xs.

(** [xs.sort(cmp)]: the stable sort of ECMAScript 2019.  [x] moves behind
    [y] exactly when [cmp(x, y) > 0]; a NaN comparison counts as 0. *)
Fixpoint insertBy {A : Type} (cmp : A -> A -> num) (x : A) (l : list A) : list A :=
  match l with
  | [] => [x]
  | y :: l' => if cmp x y >? Fin 0 then y :: insertBy cmp x l' else x :: l
  end.

Definition jsSort {A : Type} (cmp : A -> A -> num) (l : list A) : list A :=
  fold_right (insertBy cmp) [] l.

(* ================================================================== *)
(** * Data model ([types/index.ts]) *)
(* ================================================================== *)

Record Candle : Type := mkCandle {
  c_time : num;
  c_open : num;
  c_high : num;
  c_low : num;
  c_close : num;
  c_volume : num
}.

Inductive Timeframe : Type :=
| TF_1m | TF_3m | TF_5m | TF_15m | TF_30m | TF_1h | TF_4h | TF_1d | TF_1w.

Inductive SwingType : Type := HIGH | LOW.

Inductive StructureType : Type :=
| BOS_BULL | BOS_BEAR | CHoCH_BULL | CHoCH_BEAR | MSS_BULL | MSS_BEAR.

Inductive SweepStatus : Type := ACTIVE | SWEPT.

(** The ['BULLISH' | 'BEARISH'] tag of order blocks, gaps and PD arrays. *)
Inductive Bias : Type := BULLISH | BEARISH.

Inductive KillzoneName : Type := AKZ | LKZ | NYKZ | IDLE.

Inductive AgentName : Type := STRUCTURE | LIQUIDITY | ARRAY | RISK | EXECUTION.

(** ['A+' | 'A' | 'B' | 'C' | 'NONE']. *)
Inductive SetupGrade : Type :=
| Grade_Aplus | Grade_A | Grade_B | Grade_C | Grade_NONE.

Inductive TradeDirection : Type := LONG | SHORT.

(** The template strings used as identifiers, kept structured. *)
Inductive Ident : Type :=
| id_ob_bull (t : num)
| id_ob_bear (t : num)
| id_fvg_bull (t : num)
| id_fvg_bear (t : num)
| id_brk (i : Ident)
| id_liq (tf : Timeframe) (ty : SwingType) (t : num)
| id_bt (t : num).

Record SwingPoint : Type := mkSwing {
  sw_index : nat;
  sw_time : num;
  sw_price : num;
  sw_type : SwingType
}.

Record StructurePoint : Type := mkStructure {
  sp_time : num;
  sp_price : num;
  sp_type : StructureType;
  sp_confirmed : bool;
  sp_candle : Candle
}.

Record OrderBlock : Type := mkOrderBlock {
  ob_id : Ident;
  ob_type : Bias;
  ob_top : num;
  ob_bottom : num;
  ob_time : num;
  ob_mitigated : bool;
  ob_mitigationTime : option num;
  ob_volume : num;
  ob_strength : num;
  ob_timeframe : Timeframe
}.

Record FairValueGap : Type := mkFVG {
  fvg_id : Ident;
  fvg_type : Bias;
  fvg_top : num;
  fvg_bottom : num;
  fvg_time : num;
  fvg_midpoint : num;
  fvg_filled : bool;
  fvg_fillPercent : num;
  fvg_timeframe : Timeframe
}.

Record PDArray : Type := mkPD {
  pd_premium : num;
  pd_equilibrium : num;
  pd_discount : num;
  pd_high : num;
  pd_low : num;
  pd_type : Bias;
  pd_strength : num
}.

Record LiquidityLevel : Type := mkLevel {
  lv_id : Ident;
  lv_price : num;
  lv_time : num;
  lv_type : SwingType;
  lv_status : SweepStatus;
  lv_sweepTime : option num;
  lv_sweepCandle : option Candle;
  lv_strength : num;
  lv_timeframe : Timeframe
}.

Definition SwingType_eqb (a b : SwingType) : bool :=
  match a, b with
  | HIGH, HIGH | LOW, LOW => true
  | _, _ => false
  end.

Definition Bias_eqb (a b : Bias) : bool :=
  match a, b with
  | BULLISH, BULLISH | BEARISH, BEARISH => true
  | _, _ => false
  end.

Definition isSwept (s : SweepStatus) : bool :=
  match s with SWEPT => true | ACTIVE => false end.

(** Decimal constants of the sources. *)
Definition n0 : num := Fin 0.
Definition n100 : num := Fin 100.

(* ================================================================== *)
(** * [utils/ict.ts] *)
(* ================================================================== *)

(** ** detectSwings *)

(** The inner [for (j = i - leftLen; j <= i + rightLen; j++)] loop:
    [false] as soon as a candle other than [i] satisfies [beats]. *)
Fixpoint pivotScan (beats : Candle -> bool) (candles : list Candle)
         (i : nat) (js : list nat) : result bool :=
  match js with
  | [] => Ok true
  | j :: js' =>
      if Nat.eqb j i then pivotScan beats candles i js'
      else
        cj <- get candles j ;;
        if beats cj then Ok false else pivotScan beats candles i js'
  end.

Definition window (i leftLen rightLen : nat) : list nat :=
  seq (i - leftLen) (leftLen + rightLen + 1).

Fixpoint swingLoop (candles : list Candle) (leftLen rightLen : nat)
         (idxs : list nat) : result (list SwingPoint) :=
  match idxs with
  | [] => Ok []
  | i :: idxs' =>
      c <- get candles i ;;
      isHigh <- pivotScan (fun cj => c_high cj >=? c_high c) candles i
                  (window i leftLen rightLen) ;;
      isLow <- pivotScan (fun cj => c_low cj <=? c_low c) candles i
                  (window i leftLen rightLen) ;;
      rest <- swingLoop candles leftLen rightLen idxs' ;;
      Ok ((if isHigh then [mkSwing i (c_time c) (c_high c) HIGH] else [])
          ++ (if isLow then [mkSwing i (c_time c) (c_low c) LOW] else [])
          ++ rest)
  end.

Definition byIndexAsc (a b : SwingPoint) : num :=
  ofNat (sw_index a) - ofNat (sw_index b).

Definition byIndexDesc (a b : SwingPoint) : num :=
  ofNat (sw_index b) - ofNat (sw_index a).

Definition detectSwings (candles : list Candle) (leftLen rightLen : nat)
  : result (list SwingPoint) :=
  swings <- swingLoop candles leftLen rightLen
              (seq leftLen (length candles - rightLen - leftLen)) ;;
  Ok (jsSort byIndexAsc swings).

(** ** detectMarketStructure *)

Inductive Trend : Type := UP | DOWN.

Record StructState : Type := mkStructState {
  st_trend : Trend;
  st_lastHigh : option SwingPoint;
  st_lastLow : option SwingPoint;
  st_points : list StructurePoint
}.

Definition isHighSwing (s : SwingPoint) : bool := SwingType_eqb (sw_type s) HIGH.
Definition isLowSwing (s : SwingPoint) : bool := SwingType_eqb (sw_type s) LOW.

(** [swings.filter(s => s.type === ty && s.index <= i)
          .sort((a, b) => b.index - a.index)[0]] *)
Definition latestSwing (swings : list SwingPoint) (ty : SwingType) (i : nat)
  : option SwingPoint :=
  hd_error (jsSort byIndexDesc
              (filter (fun s => SwingType_eqb (sw_type s) ty
                                && Nat.leb (sw_index s) i) swings)).

Definition breakHigh (swings : list SwingPoint) (i : nat) (candle : Candle)
           (st : StructState) : StructState :=
  match st_lastHigh st with
  | Some lastHigh =>
      if c_high candle >? sw_price lastHigh then
        let isBOS := match st_trend st with UP => true | DOWN => false end in
        mkStructState
          (if isBOS then st_trend st else UP)
          (latestSwing swings HIGH i)
          (st_lastLow st)
          (st_points st ++
             [mkStructure (c_time candle) (sw_price lastHigh)
                (if isBOS then BOS_BULL else CHoCH_BULL)
                (c_close candle >? sw_price lastHigh) candle])
      else st
  | None => st
  end.

Definition breakLow (swings : list SwingPoint) (i : nat) (candle : Candle)
           (st : StructState) : StructState :=
  match st_lastLow st with
  | Some lastLow =>
      if c_low candle <? sw_price lastLow then
        let isBOS := match st_trend st with DOWN => true | UP => false end in
        mkStructState
          (if isBOS then st_trend st else DOWN)
          (st_lastHigh st)
          (latestSwing swings LOW i)
          (st_points st ++
             [mkStructure (c_time candle) (sw_price lastLow)
                (if isBOS then BOS_BEAR else CHoCH_BEAR)
                (c_close candle <? sw_price lastLow) candle])
      else st
  | None => st
  end.

Fixpoint structureLoop (candles : list Candle) (swings : list SwingPoint)
         (idxs : list nat) (st : StructState) : result StructState :=
  match idxs with
  | [] => Ok st
  | i :: idxs' =>
      candle <- get candles i ;;
      structureLoop candles swings idxs'
        (breakLow swings i candle (breakHigh swings i candle st))
  end.

Definition detectMarketStructure (candles : list Candle) (swings : list SwingPoint)
  : result (list StructurePoint) :=
  if Nat.ltb (length swings) 4 then Ok []
  else
    s0 <- get swings 0 ;;
    let trend := match sw_type s0 with LOW => UP | HIGH => DOWN end in
    st <- structureLoop candles swings (seq 1 (length candles - 1))
            (mkStructState trend (find isHighSwing swings)
               (find isLowSwing swings) []) ;;
    Ok (st_points st).

(** ** detectOrderBlocks *)

(** [for (j = spIdx - 1; j >= Math.max(0, spIdx - 20); j--)]: the indices
    visited, nearest first. *)
Definition backRange (spIdx : nat) : list nat :=
  rev (seq (spIdx - 20) (spIdx - (spIdx - 20))).

(** The first candle of the backward scan with the wanted colour, where the
    scan [break]s. *)
Fixpoint lastOpposite (wanted : Candle -> bool) (candles : list Candle)
         (js : list nat) : result (option Candle) :=
  match js with
  | [] => Ok None
  | j :: js' =>
      c <- get candles j ;;
      if wanted c then Ok (Some c) else lastOpposite wanted candles js'
  end.

Definition isBearishCandle (c : Candle) : bool := c_close c <? c_open c.
Definition isBullishCandle (c : Candle) : bool := c_close c >? c_open c.

Definition volStrength (c : Candle) (avgVol : num) : num :=
  min n100 ((c_volume c / avgVol) * Fin 50).

Definition bullBlock (c : Candle) (sp : StructurePoint) (avgVol : num)
           (timeframe : Timeframe) : OrderBlock :=
  let moveStrength :=
    min (Fin 50) (((sp_price sp - c_high c) / c_high c) * Fin 1000) in
  mkOrderBlock (id_ob_bull (c_time c)) BULLISH (c_open c) (c_low c) (c_time c)
    false None (c_volume c) (round (volStrength c avgVol + moveStrength))
    timeframe.

Definition bearBlock (c : Candle) (sp : StructurePoint) (avgVol : num)
           (timeframe : Timeframe) : OrderBlock :=
  let moveStrength :=
    min (Fin 50) (((c_low c - sp_price sp) / c_low c) * Fin 1000) in
  mkOrderBlock (id_ob_bear (c_time c)) BEARISH (c_high c) (c_open c) (c_time c)
    false None (c_volume c) (round (volStrength c avgVol + moveStrength))
    timeframe.

Definition isBullBreak (t : StructureType) : bool :=
  match t with BOS_BULL | CHoCH_BULL => true | _ => false end.

Definition isBearBreak (t : StructureType) : bool :=
  match t with BOS_BEAR | CHoCH_BEAR => true | _ => false end.

(** The blocks one structure point contributes. *)
Definition blocksOf (candles : list Candle) (avgVol : num)
           (timeframe : Timeframe) (sp : StructurePoint)
  : result (list OrderBlock) :=
  let spIdx := findIndex (fun c => c_time c >=? sp_time sp) candles in
  if (spIdx <? 3)%Z then Ok []
  else
    bull <- (if isBullBreak (sp_type sp) then
               found <- lastOpposite isBearishCandle candles
                          (backRange (Z.to_nat spIdx)) ;;
               Ok (match found with
                   | Some c => [bullBlock c sp avgVol timeframe]
                   | None => []
                   end)
             else Ok []) ;;
    bear <- (if isBearBreak (sp_type sp) then
               found <- lastOpposite isBullishCandle candles
                          (backRange (Z.to_nat spIdx)) ;;
               Ok (match found with
                   | Some c => [bearBlock c sp avgVol timeframe]
                   | None => []
                   end)
             else Ok []) ;;
    Ok (bull ++ bear).

Fixpoint blocksLoop (candles : list Candle) (avgVol : num)
         (timeframe : Timeframe) (sps : list StructurePoint)
  : result (list OrderBlock) :=
  match sps with
  | [] => Ok []
  | sp :: sps' =>
      here <- blocksOf candles avgVol timeframe sp ;;
      rest <- blocksLoop candles avgVol timeframe sps' ;;
      Ok (here ++ rest)
  end.

Definition mitigate (ob : OrderBlock) (t : num) : OrderBlock :=
  mkOrderBlock (ob_id ob) (ob_type ob) (ob_top ob) (ob_bottom ob) (ob_time ob)
    true (Some t) (ob_volume ob) (ob_strength ob) (ob_timeframe ob).

(** The forward scan [for (i = obIdx + 1; i < candles.length; i++)]. *)
Fixpoint mitigationScan (candles : list Candle) (ob : OrderBlock)
         (idxs : list nat) : result OrderBlock :=
  match idxs with
  | [] => Ok ob
  | i :: idxs' =>
      c <- get candles i ;;
      if Bias_eqb (ob_type ob) BULLISH && (c_low c <=? ob_bottom ob)
      then Ok (mitigate ob (c_time c))
      else if Bias_eqb (ob_type ob) BEARISH && (c_high c >=? ob_top ob)
      then Ok (mitigate ob (c_time c))
      else mitigationScan candles ob idxs'
  end.

(** Indices [from, from + 1, ..., candles.length - 1]. *)
Definition forwardRange (candles : list Candle) (from : nat) : list nat :=
  seq from (length candles - from).

Fixpoint mitigationLoop (candles : list Candle) (blocks : list OrderBlock)
  : result (list OrderBlock) :=
  match blocks with
  | [] => Ok []
  | ob :: blocks' =>
      let obIdx := findIndex (fun c => c_time c >=? ob_time ob) candles in
      ob' <- mitigationScan candles ob
               (forwardRange candles (Z.to_nat (obIdx + 1))) ;;
      rest <- mitigationLoop candles blocks' ;;
      Ok (ob' :: rest)
  end.

Definition detectOrderBlocks (candles : list Candle)
           (structurePoints : list StructurePoint) (timeframe : Timeframe)
  : result (list OrderBlock) :=
  let avgVol := sum (map c_volume candles) / ofNat (length candles) in
  blocks <- blocksLoop candles avgVol timeframe structurePoints ;;
  blocks' <- mitigationLoop candles blocks ;;
  Ok (filter (fun b => ob_strength b >? Fin 20) blocks').

(** ** detectFVGs *)

Definition bullGap (prev curr next : Candle) (timeframe : Timeframe)
           (minSizePercent : num) : list FairValueGap :=
  if c_low next >? c_high prev then
    let gapSize := ((c_low next - c_high prev) / c_high prev) * n100 in
    if gapSize >=? minSizePercent then
      let top := c_low next in
      let bottom := c_high prev in
      [mkFVG (id_fvg_bull (c_time curr)) BULLISH top bottom (c_time curr)
         ((top + bottom) / Fin 2) false n0 timeframe]
    else []
  else [].

Definition bearGap (prev curr next : Candle) (timeframe : Timeframe)
           (minSizePercent : num) : list FairValueGap :=
  if c_high next <? c_low prev then
    let gapSize := ((c_low prev - c_high next) / c_low prev) * n100 in
    if gapSize >=? minSizePercent then
      let top := c_low prev in
      let bottom := c_high next in
      [mkFVG (id_fvg_bear (c_time curr)) BEARISH top bottom (c_time curr)
         ((top + bottom) / Fin 2) false n0 timeframe]
    else []
  else [].

Fixpoint gapLoop (candles : list Candle) (timeframe : Timeframe)
         (minSizePercent : num) (idxs : list nat) : result (list FairValueGap) :=
  match idxs with
  | [] => Ok []
  | i :: idxs' =>
      prev <- get candles (i - 1) ;;
      curr <- get candles i ;;
      next <- get candles (i + 1) ;;
      rest <- gapLoop candles timeframe minSizePercent idxs' ;;
      Ok (bullGap prev curr next timeframe minSizePercent
          ++ bearGap prev curr next timeframe minSizePercent ++ rest)
  end.

Definition setFill (fvg : FairValueGap) (filled : bool) (fillPercent : num)
  : FairValueGap :=
  mkFVG (fvg_id fvg) (fvg_type fvg) (fvg_top fvg) (fvg_bottom fvg)
    (fvg_time fvg) (fvg_midpoint fvg) filled fillPercent (fvg_timeframe fvg).

(** One iteration of the fill-tracking loop: the gap after candle [c], and
    whether the loop [break]s. *)
Definition fillStep (fvg : FairValueGap) (c : Candle) : FairValueGap * bool :=
  match fvg_type fvg with
  | BULLISH =>
      if c_low c <=? fvg_top fvg then
        let penetration :=
          min (fvg_top fvg - c_low c) (fvg_top fvg - fvg_bottom fvg) in
        let fvg1 := setFill fvg (fvg_filled fvg)
                      ((penetration / (fvg_top fvg - fvg_bottom fvg)) * n100) in
        if c_low c <=? fvg_bottom fvg then (setFill fvg1 true n100, true)
        else (fvg1, false)
      else (fvg, false)
  | BEARISH =>
      if c_high c >=? fvg_bottom fvg then
        let penetration :=
          min (c_high c - fvg_bottom fvg) (fvg_top fvg - fvg_bottom fvg) in
        let fvg1 := setFill fvg (fvg_filled fvg)
                      ((penetration / (fvg_top fvg - fvg_bottom fvg)) * n100) in
        if c_high c >=? fvg_top fvg then (setFill fvg1 true n100, true)
        else (fvg1, false)
      else (fvg, false)
  end.

Fixpoint trackFill (candles : list Candle) (fvg : FairValueGap)
         (idxs : list nat) : result FairValueGap :=
  match idxs with
  | [] => Ok fvg
  | i :: idxs' =>
      c <- get candles i ;;
      let (fvg', stop) := fillStep fvg c in
      if stop then Ok fvg' else trackFill candles fvg' idxs'
  end.

(** The candles the fill tracker of [fvg] visits, in order. *)
Definition fillRange (candles : list Candle) (fvg : FairValueGap) : list nat :=
  let fvgIdx := findIndex (fun c => c_time c >=? fvg_time fvg) candles in
  forwardRange candles (Z.to_nat (fvgIdx + 1)).

Fixpoint fillLoop (candles : list Candle) (fvgs : list FairValueGap)
  : result (list FairValueGap) :=
  match fvgs with
  | [] => Ok []
  | fvg :: fvgs' =>
      fvg' <- trackFill candles fvg (fillRange candles fvg) ;;
      rest <- fillLoop candles fvgs' ;;
      Ok (fvg' :: rest)
  end.

Definition newGaps (candles : list Candle) (timeframe : Timeframe)
           (minSizePercent : num) : result (list FairValueGap) :=
  gapLoop candles timeframe minSizePercent (seq 1 (length candles - 1 - 1)).

Definition detectFVGs (candles : list Candle) (timeframe : Timeframe)
           (minSizePercent : num) : result (list FairValueGap) :=
  fvgs <- newGaps candles timeframe minSizePercent ;;
  fillLoop candles fvgs.

(** ** calcPDArray *)

Definition calcPDArray (swings : list SwingPoint) (currentPrice : num)
  : option PDArray :=
  let highs := lastN 3 (filter isHighSwing swings) in
  let lows := lastN 3 (filter isLowSwing swings) in
  if Nat.eqb (length highs) 0 || Nat.eqb (length lows) 0 then None
  else
    let high := maxList (map sw_price highs) in
    let low := minList (map sw_price lows) in
    let range := high - low in
    Some (mkPD (low + range * Fin 0.618)
               (low + range * Fin 0.5)
               (low + range * Fin 0.382)
               high low
               (if currentPrice >? low + range * Fin 0.5
                then BEARISH else BULLISH)
               (min n100 ((range / currentPrice) * Fin 10000))).

(** ** detectBreakerBlocks *)

Definition flipBias (b : Bias) : Bias :=
  match b with BULLISH => BEARISH | BEARISH => BULLISH end.

Definition breakerOf (ob : OrderBlock) : OrderBlock :=
  mkOrderBlock (id_brk (ob_id ob)) (flipBias (ob_type ob)) (ob_top ob)
    (ob_bottom ob) (ob_time ob) (ob_mitigated ob) (ob_mitigationTime ob)
    (ob_volume ob) (ob_strength ob + Fin 20) (ob_timeframe ob).

Definition detectBreakerBlocks (orderBlocks : list OrderBlock)
           (candles : list Candle) : list OrderBlock :=
  map breakerOf (filter ob_mitigated orderBlocks).

(** ** Scoring helpers *)

Definition pdScore (pd : PDArray) (price : num) : num :=
  if price >=? pd_premium pd then n0
  else if price <=? pd_discount pd then n100
  else ((pd_premium pd - price) / (pd_premium pd - pd_discount pd)) * n100.

Definition countNearbyOBs (obs : list OrderBlock) (price pctRange : num)
  : nat * nat :=
  let range := (price * pctRange) / n100 in
  (length (filter (fun ob => negb (ob_mitigated ob)
                             && Bias_eqb (ob_type ob) BULLISH
                             && (abs (ob_top ob - price) <? range)) obs),
   length (filter (fun ob => negb (ob_mitigated ob)
                             && Bias_eqb (ob_type ob) BEARISH
                             && (abs (ob_bottom ob - price) <? range)) obs)).

Definition nearestFVG (fvgs : list FairValueGap) (price pctRange : num)
  : option FairValueGap :=
  let range := (price * pctRange) / n100 in
  hd_error (jsSort (fun a b => fvg_time b - fvg_time a)
              (filter (fun f => negb (fvg_filled f)
                                && (abs (fvg_midpoint f - price) <? range))
                 fvgs)).

(* ================================================================== *)
(** * [utils/liquidity.ts] *)
(* ================================================================== *)

(** ** detectLiquiditySweeps *)

(** How many later candles come within 0.3% of the swing price. *)
Fixpoint countTests (candles : list Candle) (swing : SwingPoint)
         (idxs : list nat) : result nat :=
  match idxs with
  | [] => Ok 0%nat
  | i :: idxs' =>
      c <- get candles i ;;
      let approach :=
        match sw_type swing with
        | HIGH => c_high c / sw_price swing
        | LOW => sw_price swing / c_low c
        end in
      rest <- countTests candles swing idxs' ;;
      Ok (if (approach >? Fin 0.997) && (approach <? Fin 1.003)
          then S rest else rest)
  end.

Definition sweepLevel (level : LiquidityLevel) (c : Candle) : LiquidityLevel :=
  mkLevel (lv_id level) (lv_price level) (lv_time level) (lv_type level)
    SWEPT (Some (c_time c)) (Some c) (lv_strength level) (lv_timeframe level).

(** The first later candle that trades through the swing price. *)
Fixpoint sweepScan (candles : list Candle) (swing : SwingPoint)
         (level : LiquidityLevel) (idxs : list nat) : result LiquidityLevel :=
  match idxs with
  | [] => Ok level
  | i :: idxs' =>
      c <- get candles i ;;
      if SwingType_eqb (sw_type swing) HIGH && (c_high c >? sw_price swing)
      then Ok (sweepLevel level c)
      else if SwingType_eqb (sw_type swing) LOW && (c_low c <? sw_price swing)
      then Ok (sweepLevel level c)
      else sweepScan candles swing level idxs'
  end.

Definition levelOf (candles : list Candle) (timeframe : Timeframe)
           (swing : SwingPoint) : result LiquidityLevel :=
  let later := forwardRange candles (sw_index swing + 1) in
  testCount <- countTests candles swing later ;;
  sweepScan candles swing
    (mkLevel (id_liq timeframe (sw_type swing) (sw_time swing))
       (sw_price swing) (sw_time swing) (sw_type swing) ACTIVE None None
       (min n100 (Fin 30 + ofNat testCount * Fin 15)) timeframe)
    later.

Fixpoint levelsLoop (candles : list Candle) (timeframe : Timeframe)
         (swings : list SwingPoint) : result (list LiquidityLevel) :=
  match swings with
  | [] => Ok []
  | swing :: swings' =>
      level <- levelOf candles timeframe swing ;;
      rest <- levelsLoop candles timeframe swings' ;;
      Ok (level :: rest)
  end.

Definition detectLiquiditySweeps (candles : list Candle) (timeframe : Timeframe)
           (leftLen rightLen : nat) : result (list LiquidityLevel) :=
  swings <- detectSwings candles leftLen rightLen ;;
  levelsLoop candles timeframe swings.

(** ** detectSweepFVGSetups *)

Record SweepFVGSetup : Type := mkSetup {
  su_sweep : LiquidityLevel;
  su_displacementCandle : Candle;
  su_fvgEntry : num;
  su_fvgTop : num;
  su_fvgBottom : num;
  su_stopLoss : num;
  su_direction : TradeDirection;
  su_quality : num
}.

Definition calcSetupQuality (level : LiquidityLevel)
           (displacementSize fvgSize : num) : num :=
  let score := lv_strength level * Fin 0.4 in
  let score := score + min (Fin 30) (displacementSize * Fin 3000) in
  let score := score + min (Fin 20) (fvgSize * Fin 40) in
  let score := score + (if isSwept (lv_status level) then Fin 10 else n0) in
  min n100 (round score).

(** The setups found at the displacement candidate [i]. *)
Definition setupAt (level : LiquidityLevel) (fvgMinSizePct : num)
           (prev curr next : Candle) : list SweepFVGSetup :=
  match lv_type level with
  | HIGH =>
      let bearishBody := c_open curr - c_close curr in
      let isDisplacement :=
        (bearishBody >? n0) && (bearishBody / c_open curr >? Fin 0.003) in
      if isDisplacement && (c_high next <? c_low prev) then
        let fvgTop := c_low prev in
        let fvgBottom := c_high next in
        let fvgSize := ((fvgTop - fvgBottom) / fvgBottom) * n100 in
        if fvgSize >=? fvgMinSizePct then
          [mkSetup level curr ((fvgTop + fvgBottom) / Fin 2) fvgTop fvgBottom
             (lv_price level * Fin 1.002) SHORT
             (calcSetupQuality level (bearishBody / c_open curr) fvgSize)]
        else []
      else []
  | LOW =>
      let bullishBody := c_close curr - c_open curr in
      let isDisplacement :=
        (bullishBody >? n0) && (bullishBody / c_open curr >? Fin 0.003) in
      if isDisplacement && (c_low next >? c_high prev) then
        let fvgTop := c_low next in
        let fvgBottom := c_high prev in
        let fvgSize := ((fvgTop - fvgBottom) / fvgBottom) * n100 in
        if fvgSize >=? fvgMinSizePct then
          [mkSetup level curr ((fvgTop + fvgBottom) / Fin 2) fvgTop fvgBottom
             (lv_price level * Fin 0.998) LONG
             (calcSetupQuality level (bullishBody / c_open curr) fvgSize)]
        else []
      else []
  end.

Fixpoint displacementLoop (candles : list Candle) (level : LiquidityLevel)
         (fvgMinSizePct : num) (idxs : list nat) : result (list SweepFVGSetup) :=
  match idxs with
  | [] => Ok []
  | i :: idxs' =>
      prev <- get candles (i - 1) ;;
      curr <- get candles i ;;
      next <- get candles (i + 1) ;;
      rest <- displacementLoop candles level fvgMinSizePct idxs' ;;
      Ok (setupAt level fvgMinSizePct prev curr next ++ rest)
  end.

(** [for (i = idx + 1; i < Math.min(idx + 6, candles.length - 1); i++)] *)
Definition displacementRange (candles : list Candle) (idx : nat) : list nat :=
  seq (idx + 1) (Nat.min (idx + 6) (length candles - 1) - (idx + 1)).

Definition setupsOf (candles : list Candle) (fvgMinSizePct : num)
           (level : LiquidityLevel) : result (list SweepFVGSetup) :=
  let sweepCandleIdx :=
    findIndex (fun c => match lv_sweepTime level with
                        | Some t => c_time c === t
                        | None => false
                        end) candles in
  if (sweepCandleIdx <? 1)%Z
     || (sweepCandleIdx >=? Z.of_nat (length candles) - 2)%Z
  then Ok []
  else displacementLoop candles level fvgMinSizePct
         (displacementRange candles (Z.to_nat sweepCandleIdx)).

Fixpoint setupsLoop (candles : list Candle) (fvgMinSizePct : num)
         (levels : list LiquidityLevel) : result (list SweepFVGSetup) :=
  match levels with
  | [] => Ok []
  | level :: levels' =>
      here <- setupsOf candles fvgMinSizePct level ;;
      rest <- setupsLoop candles fvgMinSizePct levels' ;;
      Ok (here ++ rest)
  end.

Definition hasSweepCandle (l : LiquidityLevel) : bool :=
  match lv_sweepCandle l with Some _ => true | None => false end.

Definition detectSweepFVGSetups (candles : list Candle)
           (levels : list LiquidityLevel) (fvgMinSizePct : num)
  : result (list SweepFVGSetup) :=
  let sweptLevels :=
    filter (fun l => isSwept (lv_status l) && hasSweepCandle l) levels in
  setups <- setupsLoop candles fvgMinSizePct sweptLevels ;;
  Ok (jsSort (fun a b => su_quality b - su_quality a) setups).

(** ** scoreLiquidityMagnet *)

Definition TF_WEIGHT (tf : Timeframe) : num :=
  match tf with
  | TF_1w => Fin 1
  | TF_1d => Fin 0.85
  | TF_4h => Fin 0.7
  | TF_1h => Fin 0.6
  | TF_30m => Fin 0.5
  | TF_15m => Fin 0.45
  | TF_5m => Fin 0.35
  | TF_3m => Fin 0.3
  | TF_1m => Fin 0.25
  end.

Definition magnetOf (currentPrice : num) (l : LiquidityLevel)
  : LiquidityLevel * num :=
  let distPct := (abs (lv_price l - currentPrice) / currentPrice) * n100 in
  let distScore := max n0 (Fin 50 - distPct * Fin 10) in
  let tfScore := TF_WEIGHT (lv_timeframe l) * Fin 30 in
  let strScore := lv_strength l * Fin 0.2 in
  (l, min n100 (distScore + tfScore + strScore)).

Definition scoreLiquidityMagnet (levels : list LiquidityLevel)
           (currentPrice : num) : list (LiquidityLevel * num) :=
  jsSort (fun a b => snd b - snd a)
    (map (magnetOf currentPrice)
       (filter (fun l => negb (isSwept (lv_status l))) levels)).

(* ================================================================== *)
(** * [utils/agents.ts] *)
(* ================================================================== *)

Record Killzone : Type := mkKillzone {
  kz_name : KillzoneName;
  kz_startH : num;
  kz_startM : num;
  kz_endH : num;
  kz_endM : num;
  kz_active : bool;
  kz_minutesRemaining : option num
}.

(** The rationale lines an agent pushes to [details], one constructor per
    message of the source, carrying the values the message prints. *)
Inductive Detail : Type :=
(* Structure Analyst *)
| AlignedStructurePoints (n : nat) (alignedScore : num)
| LatestStructureAligned
| LatestStructureOpposed
| CHoCHConfirmed
| ConfirmedBOS (n : nat)
| BullishMomentum
| BearishMomentum
(* Liquidity Detector *)
| AlignedSweeps (n : nat) (qualityScore : num)
| NoAlignedSweeps
| HTFSweep (tf : option Timeframe)
| StrongMagnet (price : num)
(* Array Specialist *)
| OBNearby (n : nat) (direction : TradeDirection) (bonus : num)
| UnfilledFVG (ty : Bias) (midpoint : num)
| FVGHalfFilled
| PriceInDiscount (pds : num)
| PriceInPremium
| PriceApproachingPD
| HighStrengthOB (strength : num)
(* Risk Guardian *)
| BalanceHalted
| MaxTradesReached
| KillzoneActive (name : KillzoneName)
| NYKZBonus
| KillzoneEnding (minutesRemaining : option num)
| OutsideKillzone
| RRExcellent (rr : num)
| RRGood (rr : num)
| RRBelowMinimum (rr : num)
| NewsNearby
| FirstTradeOfSession
(* Execution Optimizer *)
| EntryAtFVG
| EntryNearFVG
| EntryWithinFVG
| EntryAtOBEdge
| EntryNearOB
| SLIdeal (slPct : num)
| SLTooTight (slPct : num)
| SLWide (slPct : num)
| TP1RR (rr1 : num)
| TP2RR (rr2 : num)
| MomentumConfirmed (n : nat).

(** An agent's verdict.  The display strings [label] and [reasoning] are
    functions of [agent] and [score] and are left out. *)
Record AgentSignal : Type := mkSignal {
  ag_agent : AgentName;
  ag_score : num;
  ag_details : list Detail;
  ag_bullish : bool;
  ag_weight : num
}.

Module WEIGHTS.
Definition STRUCTURE : num := Fin 0.25.
Definition LIQUIDITY : num := Fin 0.25.
Definition ARRAY : num := Fin 0.20.
Definition RISK : num := Fin 0.15.
Definition EXECUTION : num := Fin 0.15.
End WEIGHTS.

(** [Math.max(0, Math.min(100, score))] *)
Definition clamp (score : num) : num := max n0 (min n100 score).

Definition isLong (d : TradeDirection) : bool :=
  match d with LONG => true | SHORT => false end.

(** [sp.type.includes('BULL')], [.includes('BEAR')], [.includes('CHoCH')] *)
Definition includesBULL (t : StructureType) : bool :=
  match t with BOS_BULL | CHoCH_BULL | MSS_BULL => true | _ => false end.

Definition includesBEAR (t : StructureType) : bool :=
  match t with BOS_BEAR | CHoCH_BEAR | MSS_BEAR => true | _ => false end.

Definition includesCHoCH (t : StructureType) : bool :=
  match t with CHoCH_BULL | CHoCH_BEAR => true | _ => false end.

Definition alignedWith (direction : TradeDirection) (sp : StructurePoint) : bool :=
  match direction with
  | LONG => includesBULL (sp_type sp)
  | SHORT => includesBEAR (sp_type sp)
  end.

(** A score being built: the running sum and the lines pushed so far. *)
Definition Tally : Type := (num * list Detail)%type.

Definition bump (t : Tally) (delta : num) (d : Detail) : Tally :=
  (fst t + delta, snd t ++ [d]).

Definition note (t : Tally) (d : Detail) : Tally := (fst t, snd t ++ [d]).

Definition adjust (t : Tally) (delta : num) : Tally := (fst t + delta, snd t).

(** ** Agent 1: Structure Analyst *)

Definition runStructureAgent (candles : list Candle)
           (structurePoints : list StructurePoint) (direction : TradeDirection)
  : AgentSignal :=
  let recent := lastN 8 structurePoints in
  let aligned := filter (alignedWith direction) recent in
  let alignedScore := min (Fin 40) (ofNat (length aligned) * Fin 12) in
  let t := bump (n0, []) alignedScore
             (AlignedStructurePoints (length aligned) alignedScore) in
  let t := match nth_error recent (length recent - 1) with
           | Some lastSP =>
               if alignedWith direction lastSP
               then bump t (Fin 20) LatestStructureAligned
               else bump t (neg (Fin 10)) LatestStructureOpposed
           | None => t
           end in
  let t := if existsb (fun sp => includesCHoCH (sp_type sp)) recent
           then bump t (Fin 15) CHoCHConfirmed else t in
  let confirmed :=
    filter (fun sp => sp_confirmed sp && alignedWith direction sp) recent in
  let t := if Nat.ltb 0 (length confirmed)
           then bump t (Fin 15) (ConfirmedBOS (length confirmed)) else t in
  let last5 := lastN 5 candles in
  let bullish5 := length (filter (fun c => c_close c >? c_open c) last5) in
  let t := if isLong direction && Nat.leb 3 bullish5
           then bump t (Fin 10) BullishMomentum else t in
  let t := if negb (isLong direction) && Nat.leb bullish5 2
           then bump t (Fin 10) BearishMomentum else t in
  mkSignal STRUCTURE (clamp (fst t)) (snd t) (isLong direction)
    WEIGHTS.STRUCTURE.

(** ** Agent 2: Liquidity Detector *)

Definition isHTF (tf : Timeframe) : bool :=
  match tf with TF_4h | TF_1d | TF_1w => true | _ => false end.

Definition runLiquidityAgent (levels : list LiquidityLevel)
           (currentPrice : num) (direction : TradeDirection) : AgentSignal :=
  let recentSweeps := lastN 10 (filter (fun l => isSwept (lv_status l)) levels) in
  let alignedSweeps :=
    filter (fun l => match direction with
                     | LONG => SwingType_eqb (lv_type l) LOW
                     | SHORT => SwingType_eqb (lv_type l) HIGH
                     end) recentSweeps in
  let t : Tally := (n0, []) in
  let t := if Nat.ltb 0 (length alignedSweeps) then
             let qualityScore :=
               min (Fin 40)
                 ((sum (map lv_strength alignedSweeps)
                   / ofNat (length alignedSweeps)) * Fin 0.4) in
             bump t qualityScore
               (AlignedSweeps (length alignedSweeps) qualityScore)
           else note t NoAlignedSweeps in
  let htfSweeps := filter (fun l => isHTF (lv_timeframe l)) alignedSweeps in
  let t := if Nat.ltb 0 (length htfSweeps)
           then bump t (Fin 25)
                  (HTFSweep (option_map lv_timeframe (hd_error htfSweeps)))
           else t in
  let magnets := scoreLiquidityMagnet levels currentPrice in
  let t := match hd_error magnets with
           | Some topMagnet =>
               if snd topMagnet >? Fin 60 then
                 let isAligned :=
                   match direction with
                   | LONG => SwingType_eqb (lv_type (fst topMagnet)) HIGH
                   | SHORT => SwingType_eqb (lv_type (fst topMagnet)) LOW
                   end in
                 if isAligned
                 then bump t (Fin 20) (StrongMagnet (lv_price (fst topMagnet)))
                 else t
               else t
           | None => t
           end in
  let t := if Nat.eqb (length alignedSweeps) 0
           then adjust t (neg (Fin 20)) else t in
  mkSignal LIQUIDITY (clamp (fst t)) (snd t) (isLong direction)
    WEIGHTS.LIQUIDITY.

(** ** Agent 3: Array Specialist *)

Definition runArrayAgent (orderBlocks : list OrderBlock)
           (fvgs : list FairValueGap) (pdArray : option PDArray)
           (currentPrice : num) (direction : TradeDirection) : AgentSignal :=
  let nearbyOBs := countNearbyOBs orderBlocks currentPrice (Fin 1.5) in
  let relevantOBs := if isLong direction then fst nearbyOBs else snd nearbyOBs in
  let t : Tally := (n0, []) in
  let t := if Nat.ltb 0 relevantOBs then
             let bonus := min (Fin 30) (ofNat relevantOBs * Fin 15) in
             bump t bonus (OBNearby relevantOBs direction bonus)
           else t in
  let t := match nearestFVG fvgs currentPrice (Fin 2) with
           | Some fvg =>
               if negb (fvg_filled fvg) then
                 let aligned :=
                   Bias_eqb (fvg_type fvg)
                     (if isLong direction then BULLISH else BEARISH) in
                 let t := if aligned
                          then bump t (Fin 25)
                                 (UnfilledFVG (fvg_type fvg) (fvg_midpoint fvg))
                          else t in
                 if (fvg_fillPercent fvg >? Fin 30)
                    && (fvg_fillPercent fvg <? Fin 60)
                 then bump t (Fin 10) FVGHalfFilled else t
               else t
           | None => t
           end in
  let t := match pdArray with
           | Some pd =>
               let pds := pdScore pd currentPrice in
               if isLong direction && (pds >? Fin 70)
               then bump t (Fin 25) (PriceInDiscount pds)
               else if negb (isLong direction) && (pds <? Fin 30)
               then bump t (Fin 25) PriceInPremium
               else if (isLong direction && (pds >? Fin 50))
                       || (negb (isLong direction) && (pds <? Fin 50))
               then bump t (Fin 10) PriceApproachingPD
               else t
           | None => t
           end in
  let bestOB :=
    hd_error
      (jsSort (fun a b => ob_strength b - ob_strength a)
         (filter (fun ob => negb (ob_mitigated ob)
                            && Bias_eqb (ob_type ob)
                                 (if isLong direction then BULLISH else BEARISH))
            orderBlocks)) in
  let t := match bestOB with
           | Some ob =>
               if ob_strength ob >? Fin 70
               then bump t (Fin 10) (HighStrengthOB (ob_strength ob)) else t
           | None => t
           end in
  mkSignal ARRAY (clamp (fst t)) (snd t) (isLong direction) WEIGHTS.ARRAY.

(** ** Agent 4: Risk Guardian *)

Definition isNYKZ (n : KillzoneName) : bool :=
  match n with NYKZ => true | _ => false end.

Definition runRiskAgent (killzone : option Killzone) (balance : num)
           (tradesThisSession : num) (entryPrice stopLoss tp1 : num)
           (newsInWindow : bool) : AgentSignal :=
  let blocked := false in
  let details : list Detail := [] in
  (* Hard gate: balance *)
  let '(blocked, details) :=
    if balance <? Fin 30 then (true, details ++ [BalanceHalted])
    else (blocked, details) in
  (* Hard gate: max trades *)
  let '(blocked, details) :=
    if tradesThisSession >=? Fin 2 then (true, details ++ [MaxTradesReached])
    else (blocked, details) in
  if blocked then mkSignal RISK n0 details false WEIGHTS.RISK
  else
    let t : Tally := (n0, details) in
    let t :=
      match killzone with
      | Some kz =>
          if kz_active kz then
            let t := bump t (Fin 40) (KillzoneActive (kz_name kz)) in
            let t := if isNYKZ (kz_name kz)
                     then bump t (Fin 10) NYKZBonus else t in
            if (match kz_minutesRemaining kz with
                | Some m => m
                | None => Fin 999
                end) <? Fin 15
            then bump t (neg (Fin 15)) (KillzoneEnding (kz_minutesRemaining kz))
            else t
          else bump t (neg (Fin 30)) OutsideKillzone
      | None => bump t (neg (Fin 30)) OutsideKillzone
      end in
    let rr := abs (tp1 - entryPrice) / abs (entryPrice - stopLoss) in
    let t := if rr >=? Fin 3 then bump t (Fin 25) (RRExcellent rr)
             else if rr >=? Fin 2 then bump t (Fin 15) (RRGood rr)
             else bump t (neg (Fin 20)) (RRBelowMinimum rr) in
    let t := if newsInWindow then bump t (neg (Fin 20)) NewsNearby else t in
    let t := if tradesThisSession === n0
             then bump t (Fin 10) FirstTradeOfSession else t in
    let score := clamp (fst t) in
    mkSignal RISK score (snd t) (score >? Fin 50) WEIGHTS.RISK.

(** ** Agent 5: Execution Optimizer *)

Definition runExecutionAgent (candles : list Candle)
           (entryPrice stopLoss tp1 tp2 : num) (direction : TradeDirection)
           (fvgMidpoint obEdge : option num) : AgentSignal :=
  let t : Tally := (n0, []) in
  let t :=
    match fvgMidpoint, obEdge with
    | Some mid, _ =>
        let distFromFVG := (abs (entryPrice - mid) / entryPrice) * n100 in
        if distFromFVG <? Fin 0.1 then bump t (Fin 30) EntryAtFVG
        else if distFromFVG <? Fin 0.3 then bump t (Fin 20) EntryNearFVG
        else bump t (Fin 10) EntryWithinFVG
    | None, Some edge =>
        let distFromOB := (abs (entryPrice - edge) / entryPrice) * n100 in
        if distFromOB <? Fin 0.2 then bump t (Fin 25) EntryAtOBEdge
        else bump t (Fin 10) EntryNearOB
    | None, None => t
    end in
  let slPct := (abs (entryPrice - stopLoss) / entryPrice) * n100 in
  let t := if (slPct >=? Fin 0.5) && (slPct <=? Fin 1.5)
           then bump t (Fin 20) (SLIdeal slPct)
           else if slPct <? Fin 0.3
           then bump t (neg (Fin 15)) (SLTooTight slPct)
           else if slPct >? Fin 2.5
           then bump t (neg (Fin 10)) (SLWide slPct)
           else t in
  let rr1 := abs (tp1 - entryPrice) / abs (entryPrice - stopLoss) in
  let rr2 := abs (tp2 - entryPrice) / abs (entryPrice - stopLoss) in
  let t := if rr1 >=? Fin 2 then bump t (Fin 20) (TP1RR rr1) else t in
  let t := if rr2 >=? Fin 3 then bump t (Fin 15) (TP2RR rr2) else t in
  let last3 := lastN 3 candles in
  let momentum :=
    length (filter (fun c => if isLong direction
                             then c_close c >? c_open c
                             else c_close c <? c_open c) last3) in
  let t := if Nat.leb 2 momentum
           then bump t (Fin 15) (MomentumConfirmed momentum) else t in
  mkSignal EXECUTION (clamp (fst t)) (snd t) (isLong direction)
    WEIGHTS.EXECUTION.

(** ** Council consensus *)

(** The council's verdict.  [timestamp] ([Date.now()], the wall clock) is
    left out. *)
Record AgentCouncil : Type := mkCouncil {
  co_agents : list AgentSignal;
  co_consensusScore : num;
  co_grade : SetupGrade;
  co_direction : option TradeDirection
}.

Definition totalWeight (agents : list AgentSignal) : num :=
  fold_left (fun s a => s + ag_weight a) agents n0.

Definition weightedSum (agents : list AgentSignal) : num :=
  fold_left (fun s a => s + ag_score a * ag_weight a) agents n0.

(** The local [consensusScore] of [runCouncil], before rounding. *)
Definition rawConsensus (agents : list AgentSignal) : num :=
  weightedSum agents / totalWeight agents.

Definition gradeOf (consensusScore : num) : SetupGrade :=
  if consensusScore >=? Fin 90 then Grade_Aplus
  else if consensusScore >=? Fin 80 then Grade_A
  else if consensusScore >=? Fin 65 then Grade_B
  else Grade_C.

Definition bullishVotes (agents : list AgentSignal) : num :=
  fold_left (fun s a => s + ag_weight a) (filter ag_bullish agents) n0.

Definition directionOf (votes : num) : option TradeDirection :=
  if votes >? Fin 0.6 then Some LONG
  else if votes <? Fin 0.4 then Some SHORT
  else None.

Definition runCouncil (agents : list AgentSignal) : AgentCouncil :=
  let consensusScore := rawConsensus agents in
  mkCouncil agents (round consensusScore) (gradeOf consensusScore)
    (directionOf (bullishVotes agents)).

(* ================================================================== *)
(** * [hooks/useKillzone.ts]: killzones, backtest and metrics *)
(* ================================================================== *)

Inductive SetupType : Type :=
| LIQUIDITY_SWEEP_FVG | BREAKER_BLOCK | TREND_CONTINUATION | BPR | OB_RETEST.

(** ['PENDING' | 'ACTIVE' | 'TP1_HIT' | 'TP2_HIT' | 'SL_HIT' | 'CANCELLED'] *)
Inductive TradeStatus : Type :=
| PENDING | TRADE_ACTIVE | TP1_HIT | TP2_HIT | SL_HIT | CANCELLED.

Inductive TradeMode : Type := SIMULATE | REAL.

Record BacktestConfig : Type := mkConfig {
  cfg_pair : string;
  cfg_timeframe : Timeframe;
  cfg_startDate : num;
  cfg_endDate : num;
  cfg_initialBalance : num;
  cfg_riskPerTrade : num
}.

(** [Trade extends Signal].  [notes] is the string ["Backtest: " + status]
    and is left out; the optional [tp3] and [exchange] are never set. *)
Record Trade : Type := mkTrade {
  tr_id : Ident;
  tr_timestamp : num;
  tr_pair : string;
  tr_timeframe : Timeframe;
  tr_direction : TradeDirection;
  tr_setupType : SetupType;
  tr_grade : SetupGrade;
  tr_entry : num;
  tr_stopLoss : num;
  tr_tp1 : num;
  tr_tp2 : num;
  tr_rr : num;
  tr_riskPercent : num;
  tr_killzone : KillzoneName;
  tr_council : AgentCouncil;
  tr_status : TradeStatus;
  tr_executedAt : num;
  tr_executedPrice : num;
  tr_positionSize : num;
  tr_pnl : option num;
  tr_pnlPercent : option num;
  tr_closedAt : option num;
  tr_closePrice : option num;
  tr_mode : TradeMode
}.

Record KillzoneStats : Type := mkStats {
  ks_trades : nat;
  ks_wins : nat;
  ks_pnl : num
}.

(** [Record<KillzoneName, { trades, wins, pnl }>] *)
Definition ByKillzone : Type := KillzoneName -> KillzoneStats.

(** The metrics of a finished trade list.  [sharpeRatio] needs a square
    root and has no exact rational value; it is left out. *)
Record BacktestMetrics : Type := mkMetrics {
  m_totalTrades : nat;
  m_wins : nat;
  m_losses : nat;
  m_winRate : num;
  m_profitFactor : num;
  m_maxDrawdown : num;
  m_maxDrawdownPct : num;
  m_totalPnl : num;
  m_totalPnlPct : num;
  m_avgRR : num;
  m_bestTrade : num;
  m_worstTrade : num;
  m_byKillzone : ByKillzone
}.

Record BacktestResult : Type := mkResult {
  res_config : BacktestConfig;
  res_trades : list Trade;
  res_metrics : BacktestMetrics
}.

(** ** calcMetrics *)

(** [t.pnl ?? 0] *)
Definition pnlOf (t : Trade) : num :=
  match tr_pnl t with Some p => p | None => n0 end.

Definition grossWin (trades : list Trade) : num :=
  sum (map pnlOf (filter (fun t => pnlOf t >? n0) trades)).

Definition grossLoss (trades : list Trade) : num :=
  abs (sum (map pnlOf (filter (fun t => pnlOf t <=? n0) trades))).

Definition profitFactor (trades : list Trade) : num :=
  if grossLoss trades >? n0 then grossWin trades / grossLoss trades
  else if grossWin trades >? n0 then Fin 999
  else n0.

(** The running peak-balance walk: [(bal, peak, maxDD)] after each trade. *)
Definition drawdownStep (st : num * num * num) (t : Trade) : num * num * num :=
  let '(bal, peak, maxDD) := st in
  let bal := bal + pnlOf t in
  let peak := if bal >? peak then bal else peak in
  let dd := peak - bal in
  (bal, peak, if dd >? maxDD then dd else maxDD).

Definition KillzoneName_eqb (a b : KillzoneName) : bool :=
  match a, b with
  | AKZ, AKZ | LKZ, LKZ | NYKZ, NYKZ | IDLE, IDLE => true
  | _, _ => false
  end.

Definition killzoneStep (by_ : ByKillzone) (t : Trade) : ByKillzone :=
  fun k =>
    if KillzoneName_eqb k (tr_killzone t) then
      mkStats (S (ks_trades (by_ k)))
              (if pnlOf t >? n0 then S (ks_wins (by_ k)) else ks_wins (by_ k))
              (ks_pnl (by_ k) + pnlOf t)
    else by_ k.

Definition calcMetrics (trades : list Trade) (config : BacktestConfig)
  : BacktestMetrics :=
  let wins := filter (fun t => pnlOf t >? n0) trades in
  let losses := filter (fun t => pnlOf t <=? n0) trades in
  let pnlArr := map pnlOf trades in
  let totalPnl := sum pnlArr in
  let '(_, _, maxDD) :=
    fold_left drawdownStep trades
      (cfg_initialBalance config, cfg_initialBalance config, n0) in
  let byKillzone :=
    fold_left killzoneStep trades (fun _ => mkStats 0 0 n0) in
  let hasTrades := negb (Nat.eqb (length trades) 0) in
  mkMetrics
    (length trades)
    (length wins)
    (length losses)
    (if hasTrades
     then (ofNat (length wins) / ofNat (length trades)) * n100 else n0)
    (profitFactor trades)
    maxDD
    (if cfg_initialBalance config >? n0
     then (maxDD / cfg_initialBalance config) * n100 else n0)
    totalPnl
    (if cfg_initialBalance config >? n0
     then (totalPnl / cfg_initialBalance config) * n100 else n0)
    (if hasTrades
     then sum (map tr_rr trades) / ofNat (length trades) else n0)
    (maxList (pnlArr ++ [n0]))
    (minList (pnlArr ++ [n0]))
    byKillzone.

(** ** Outcome resolution *)

(** The scan [for (j = i + 1; j < Math.min(i + 50, candles.length); j++)]
    over the candles after the entry: the first candle that reaches a target
    or the stop decides; otherwise the initial [SL_HIT] at [sl] stands. *)
Fixpoint resolveScan (candles : list Candle) (direction : TradeDirection)
         (sl tp1 tp2 : num) (js : list nat) : result (TradeStatus * num) :=
  match js with
  | [] => Ok (SL_HIT, sl)
  | j :: js' =>
      fc <- get candles j ;;
      match direction with
      | LONG =>
          if c_high fc >=? tp2 then Ok (TP2_HIT, tp2)
          else if c_high fc >=? tp1 then Ok (TP1_HIT, tp1)
          else if c_low fc <=? sl then Ok (SL_HIT, sl)
          else resolveScan candles direction sl tp1 tp2 js'
      | SHORT =>
          if c_low fc <=? tp2 then Ok (TP2_HIT, tp2)
          else if c_low fc <=? tp1 then Ok (TP1_HIT, tp1)
          else if c_high fc >=? sl then Ok (SL_HIT, sl)
          else resolveScan candles direction sl tp1 tp2 js'
      end
  end.

Definition outcomeRange (candles : list Candle) (i : nat) : list nat :=
  seq (i + 1) (Nat.min (i + 50) (length candles) - (i + 1)).

Definition resolveOutcome (candles : list Candle) (i : nat)
           (direction : TradeDirection) (sl tp1 tp2 : num)
  : result (TradeStatus * num) :=
  resolveScan candles direction sl tp1 tp2 (outcomeRange candles i).

(** [parseFloat(x.toFixed(2))], for the non-negative ratios it is applied
    to: two decimals, halves up. *)
Definition toFixed2 (x : num) : num := round (x * n100) / n100.

(** The arguments of one call to [runRiskAgent]. *)
Record RiskCall : Type := mkRiskCall {
  rc_killzone : option Killzone;
  rc_balance : num;
  rc_tradesThisSession : num;
  rc_entryPrice : num;
  rc_stopLoss : num;
  rc_tp1 : num;
  rc_newsInWindow : bool
}.

Definition callRisk (a : RiskCall) : AgentSignal :=
  runRiskAgent (rc_killzone a) (rc_balance a) (rc_tradesThisSession a)
    (rc_entryPrice a) (rc_stopLoss a) (rc_tp1 a) (rc_newsInWindow a).

(** [new Date(value)]: the time value of the date, by the TimeClip of
    ECMAScript (NaN for a value that is not finite or beyond 8.64e15 ms in
    size, else the value truncated to an integer). *)
Definition newDate (value : num) : num :=
  match value with
  | Fin q =>
      if Qle_bool (Qabs q) 8640000000000000
      then Fin (inject_Z (Z.quot (Qnum q) (Zpos (Qden q))))
      else NaN
  | _ => NaN
  end.

Section Backtest.

(** The runtime's [Date], on time values in epoch milliseconds: local hour
    and minute of a time value, and the local zone's offset in minutes. *)
Variable getHours : num -> num.
Variable getMinutes : num -> num.
Variable getTimezoneOffset : num -> num.

(** [getMMTTime]: a [Date] is represented by its time value. *)
Definition getMMTTime (date : num) : num :=
  let utcMs := date + getTimezoneOffset date * Fin 60000 in
  newDate (utcMs + Fin 6.5 * Fin 3600000).

(** [KILLZONE_DEFS] ([label] and [color] are display strings). *)
Definition KILLZONE_DEFS : list Killzone :=
  [ mkKillzone AKZ (Fin 6) (Fin 30) (Fin 10) (Fin 0) false None;
    mkKillzone LKZ (Fin 13) (Fin 0) (Fin 17) (Fin 0) false None;
    mkKillzone NYKZ (Fin 18) (Fin 15) (Fin 22) (Fin 15) false None ].

Fixpoint firstActive (totalMins : num) (defs : list Killzone) : option Killzone :=
  match defs with
  | [] => None
  | kz :: defs' =>
      let FLATTEN_MINS := Fin 22 * Fin 60 + Fin 5 in
      let startMins := kz_startH kz * Fin 60 + kz_startM kz in
      let endMins := kz_endH kz * Fin 60 + kz_endM kz in
      if (totalMins >=? startMins) && (totalMins <? min endMins FLATTEN_MINS)
      then Some (mkKillzone (kz_name kz) (kz_startH kz) (kz_startM kz)
                   (kz_endH kz) (kz_endM kz) true
                   (Some (min endMins FLATTEN_MINS - totalMins)))
      else firstActive totalMins defs'
  end.

Definition getActiveKillzone (mmtTime : num) : option Killzone :=
  let h := getHours mmtTime in
  let m := getMinutes mmtTime in
  firstActive (h * Fin 60 + m) KILLZONE_DEFS.

(** ** runBacktest *)

(** What one evaluated index yields.  [call] is the argument list of the
    evaluation's [runRiskAgent] call, kept for the ghost log of [Run]. *)
Inductive Evaluation : Type :=
| Skipped                                   (* a [continue] before the agents *)
| Rejected (call : RiskCall)                (* agents ran, grade below A *)
| Taken (call : RiskCall) (balance : num) (trade : Trade).

(** The body of the walk-forward loop at index [i]. *)
Definition evaluateAt (candles : list Candle) (config : BacktestConfig)
           (i : nat) (balance : num) : result Evaluation :=
  let timeframe := cfg_timeframe config in
  let slice := firstn (i + 1) candles in
  lastCandle <- get slice (length slice - 1) ;;
  let candleTime := newDate (c_time lastCandle) in
  match getActiveKillzone (getMMTTime candleTime) with
  | None => Ok Skipped
  | Some kz =>
    if negb (Nat.eqb (i mod 15) 0) then Ok Skipped
    else
      swings <- detectSwings slice 5 5 ;;
      structure <- detectMarketStructure slice swings ;;
      obs <- detectOrderBlocks slice structure timeframe ;;
      fvgs <- detectFVGs slice timeframe (Fin 0.05) ;;
      let pdArray := calcPDArray swings (c_close lastCandle) in
      levels <- detectLiquiditySweeps slice timeframe 5 5 ;;
      setups <- detectSweepFVGSetups slice levels (Fin 0.03) ;;
      match setups with
      | [] => Ok Skipped
      | setup :: _ =>
        let direction := su_direction setup in
        let entry := su_fvgEntry setup in
        let sl := su_stopLoss setup in
        let atr := c_close lastCandle * Fin 0.008 in
        let tp1 := if isLong direction then entry + atr * Fin 2.5
                   else entry - atr * Fin 2.5 in
        let tp2 := if isLong direction then entry + atr * Fin 5
                   else entry - atr * Fin 5 in
        let rr := abs (tp1 - entry) / abs (entry - sl) in
        if rr <? Fin 2 then Ok Skipped
        else
          let call := mkRiskCall (Some kz) balance n0 entry sl tp1 false in
          let agents :=
            [ runStructureAgent slice structure direction;
              runLiquidityAgent levels (c_close lastCandle) direction;
              runArrayAgent obs fvgs pdArray (c_close lastCandle) direction;
              callRisk call;
              runExecutionAgent slice entry sl tp1 tp2 direction
                (Some (su_fvgEntry setup)) None ] in
          let council := runCouncil agents in
          match co_grade council with
          | Grade_Aplus | Grade_A =>
            let riskAmt := (balance * cfg_riskPerTrade config) / n100 in
            let posSize := riskAmt / abs (entry - sl) in
            outcome <- resolveOutcome candles i direction sl tp1 tp2 ;;
            let exitPrice := snd outcome in
            let pnl := if isLong direction then (exitPrice - entry) * posSize
                       else (entry - exitPrice) * posSize in
            let pnlPct := (pnl / balance) * n100 in
            Ok (Taken call (balance + pnl)
                  (mkTrade (id_bt (c_time lastCandle)) (c_time lastCandle)
                     (cfg_pair config) timeframe direction LIQUIDITY_SWEEP_FVG
                     (co_grade council) entry sl tp1 tp2 (toFixed2 rr)
                     (cfg_riskPerTrade config) (kz_name kz) council
                     (fst outcome) (c_time lastCandle) entry posSize
                     (Some pnl) (Some pnlPct) (Some (c_time lastCandle))
                     (Some exitPrice) SIMULATE))
          | _ => Ok (Rejected call)
          end
      end
  end.

(** The state of a run: the source's [balance] and [trades], and a ghost
    log (not in the source) of the arguments of every [runRiskAgent] call. *)
Record Run : Type := mkRun {
  run_balance : num;
  run_trades : list Trade;
  run_riskCalls : list RiskCall
}.

(** [for (i = 50; i < candles.length - 5; i++)].  The loop runs over the
    indices in order; [skip] counts the indices still to be passed over
    after a trade ([i += 20] before the [i++]). *)
Fixpoint backtestLoop (candles : list Candle) (config : BacktestConfig)
         (idxs : list nat) (skip : nat) (st : Run) : result Run :=
  match idxs with
  | [] => Ok st
  | i :: idxs' =>
      match skip with
      | S skip' => backtestLoop candles config idxs' skip' st
      | O =>
          ev <- evaluateAt candles config i (run_balance st) ;;
          match ev with
          | Skipped => backtestLoop candles config idxs' 0 st
          | Rejected call =>
              backtestLoop candles config idxs' 0
                (mkRun (run_balance st) (run_trades st)
                   (run_riskCalls st ++ [call]))
          | Taken call balance trade =>
              backtestLoop candles config idxs' 20
                (mkRun balance (run_trades st ++ [trade])
                   (run_riskCalls st ++ [call]))
          end
      end
  end.

Definition notEnoughCandles : string :=
  "Not enough candles for backtest"%string.

Definition backtestRun (candles : list Candle) (config : BacktestConfig)
  : result Run :=
  if Nat.ltb (length candles) 100 then Throw (Error notEnoughCandles)
  else
    backtestLoop candles config (seq 50 (length candles - 5 - 50)) 0
      (mkRun (cfg_initialBalance config) [] []).

Definition runBacktest (candles : list Candle) (config : BacktestConfig)
  : result BacktestResult :=
  st <- backtestRun candles config ;;
  Ok (mkResult config (run_trades st) (calcMetrics (run_trades st) config)).

End Backtest.

(* ================================================================== *)
(** * [hooks/useKillzone.ts]: the next killzone *)
(* ================================================================== *)

Section KillzoneHook.

Variable getHours : num -> num.
Variable getMinutes : num -> num.

(** The loop of [nextKZ]: the first killzone of the table that starts after
    [totalMins], with the minutes until it starts. *)
Fixpoint firstUpcoming (totalMins : num) (defs : list Killzone)
  : option (Killzone * num) :=
  match defs with
  | [] => None
  | kz :: defs' =>
      let start := kz_startH kz * Fin 60 + kz_startM kz in
      if start >? totalMins then Some (kz, start - totalMins)
      else firstUpcoming totalMins defs'
  end.

(** [nextKZ] of the hook [useKillzone]: the killzone spread with
    [minsUntil]; when none starts later today, the first killzone of the
    table, tomorrow. *)
Definition nextKZ (mmtTime : num) : result (Killzone * num) :=
  let totalMins := getHours mmtTime * Fin 60 + getMinutes mmtTime in
  match firstUpcoming totalMins KILLZONE_DEFS with
  | Some next => Ok next
  | None =>
      kz0 <- get KILLZONE_DEFS 0 ;;
      Ok (kz0, (Fin 24 * Fin 60 - totalMins) + kz_startH kz0 * Fin 60
               + kz_startM kz0)
  end.

End KillzoneHook.

(* ================================================================== *)
(** * [utils/ict.ts]: balanced price ranges *)
(* ================================================================== *)

(** [{ top, bottom, time, strength }] *)
Record BalancedPriceRange : Type := mkBPR {
  bpr_top : num;
  bpr_bottom : num;
  bpr_time : num;
  bpr_strength : num
}.

(** The body of the inner loop of [detectBPR]: the overlap of a bullish and
    a bearish gap, when there is one. *)
Definition overlapOf (bull bear : FairValueGap) : list BalancedPriceRange :=
  let overlapTop := min (fvg_top bull) (fvg_top bear) in
  let overlapBottom := max (fvg_bottom bull) (fvg_bottom bear) in
  if overlapTop >? overlapBottom then
    let overlapSize := ((overlapTop - overlapBottom) / overlapBottom) * n100 in
    [mkBPR overlapTop overlapBottom (max (fvg_time bull) (fvg_time bear))
       (min n100 (overlapSize * Fin 20))]
  else [].

Definition isUnfilled (f : FairValueGap) : bool := negb (fvg_filled f).

Definition detectBPR (bullFVGs bearFVGs : list FairValueGap) : list BalancedPriceRange :=
  jsSort (fun a b => bpr_strength b - bpr_strength a)
    (flat_map
       (fun bull => flat_map (overlapOf bull) (filter isUnfilled bearFVGs))
       (filter isUnfilled bullFVGs)).

(* ================================================================== *)
(** * [utils/liquidity.ts]: sweeps on two timeframes *)
(* ================================================================== *)

(** [{ htf, ltf, confluenceScore }] *)
Record ConfluenceSweep : Type := mkConfluence {
  cf_htf : LiquidityLevel;
  cf_ltf : LiquidityLevel;
  cf_confluenceScore : num
}.

(** The body of the inner loop of [findConfluenceSweeps]. *)
Definition confluenceOf (priceTolerancePct : num) (htf ltf : LiquidityLevel)
  : list ConfluenceSweep :=
  if negb (SwingType_eqb (lv_type htf) (lv_type ltf)) then []
  else
    let priceDiff :=
      (abs (lv_price htf - lv_price ltf) / lv_price htf) * n100 in
    if priceDiff <=? priceTolerancePct then
      let confluenceScore :=
        round ((lv_strength htf * Fin 0.6 + lv_strength ltf * Fin 0.4)
               * (Fin 1 - priceDiff / priceTolerancePct)
               * (if isSwept (lv_status htf) then Fin 0.8 else Fin 1.2)) in
      [mkConfluence htf ltf (min n100 confluenceScore)]
    else [].

(** [priceTolerancePct] defaults to 0.15 in the source. *)
Definition findConfluenceSweeps (htfLevels ltfLevels : list LiquidityLevel)
           (priceTolerancePct : num) : list ConfluenceSweep :=
  jsSort (fun a b => cf_confluenceScore b - cf_confluenceScore a)
    (flat_map (fun htf => flat_map (confluenceOf priceTolerancePct htf)
                            ltfLevels)
       htfLevels).

(* ================================================================== *)
(** * Vocabulary of the statements, and scenarios *)
(* ================================================================== *)

(** ** Finite values *)

(** The rational value of a finite number (0 for the non-finite ones). *)
Definition valQ (a : num) : Q :=
  match a with Fin q => q | _ => 0%Q end.

(** A candle whose six fields are finite numbers. *)
Definition finiteCandle (c : Candle) : Prop :=
  isFinite (c_time c) && isFinite (c_open c) && isFinite (c_high c)
  && isFinite (c_low c) && isFinite (c_close c) && isFinite (c_volume c) = true.

(** ** The swing detector *)

(** The default of an array read that is known to be in range. *)
Definition undefinedCandle : Candle := mkCandle NaN NaN NaN NaN NaN NaN.

(** The candle at index [j] and the rational values of its high and low. *)
Definition candleAt (candles : list Candle) (j : nat) : Candle :=
  nth j candles undefinedCandle.




(** The inner scan, in closed form. *)
Definition unbeaten (beats : Candle -> bool) (candles : list Candle)
           (i : nat) (js : list nat) : bool :=
  forallb (fun j => Nat.eqb j i || negb (beats (candleAt candles j))) js.

(** What the outer loop pushes at index [i]. *)
Definition swingsAt (candles : list Candle) (leftLen rightLen i : nat)
  : list SwingPoint :=
  let c := candleAt candles i in
  (if unbeaten (fun cj => c_high cj >=? c_high c) candles i
        (window i leftLen rightLen)
   then [mkSwing i (c_time c) (c_high c) HIGH] else [])
  ++ (if unbeaten (fun cj => c_low cj <=? c_low c) candles i
           (window i leftLen rightLen)
      then [mkSwing i (c_time c) (c_low c) LOW] else []).

(** A candle of a scenario: time, open, high, low, close, volume. *)
Definition scenarioCandle (t : Z) (o h l c v : Q) : Candle :=
  mkCandle (ofZ t) (Fin o) (Fin h) (Fin l) (Fin c) (Fin v).

(** Five candles with highs 10, 12, 15, 11, 9. *)
Definition fiveCandles : list Candle :=
  [ scenarioCandle 0 9 10 8 9 1; scenarioCandle 1 11 12 7 11 1;
    scenarioCandle 2 14 15 6 14 1; scenarioCandle 3 10 11 7 10 1;
    scenarioCandle 4 8 9 8 8 1 ].

(** ** Sums of finite numbers *)

(** The sum of a list of rationals. *)
Definition sumQ (qs : list Q) : Q := fold_right Qplus 0%Q qs.

(** ** The council *)

(** The weights of Structure, Liquidity, Array, Risk and Execution. *)
Definition fixedWeights : list num :=
  [ WEIGHTS.STRUCTURE; WEIGHTS.LIQUIDITY; WEIGHTS.ARRAY; WEIGHTS.RISK;
    WEIGHTS.EXECUTION ].

(** A score that is a finite number of [0, 100]. *)
Definition scoreInRange (x : num) : Prop :=
  exists q, x = Fin q /\ (0 <= q <= 100)%Q.





(** ** Profit factor *)

(** Gross wins and gross losses of a list of P&L values, over the
    rationals: the sum of the positive values, and the sum of the sizes of
    the others. *)
Definition grossWinsQ (pnls : list Q) : Q :=
  sumQ (map (fun p => if Qlt_bool 0 p then p else 0%Q) pnls).

Definition grossLossesQ (pnls : list Q) : Q :=
  sumQ (map (fun p => if Qlt_bool 0 p then 0%Q else (- p)%Q) pnls).

Definition pnlsQ (trades : list Trade) : list Q :=
  map (fun t => valQ (pnlOf t)) trades.

(** A closed trade with the given P&L. *)
Definition closedTrade (pnl : Q) : Trade :=
  mkTrade (id_bt n0) n0 "SOLUSDT"%string TF_15m LONG LIQUIDITY_SWEEP_FVG
    Grade_A n100 (Fin 99) (Fin 102) (Fin 104) (Fin 2) (Fin 1) AKZ
    (mkCouncil [] (Fin 80) Grade_A (Some LONG)) TP1_HIT n0 n100 (Fin 1)
    (Some (Fin pnl)) (Some (Fin pnl)) (Some n0) (Some (Fin 102)) SIMULATE.

(** A 15-minute backtest of 1000 with 1% risk per trade. *)
Definition sampleConfig : BacktestConfig :=
  mkConfig "SOLUSDT"%string TF_15m n0 n0 (Fin 1000) (Fin 1).

(** ** Fair-value gaps: fill tracking *)

(** The gap [g] as the tracker has it after scanning the first [k] candles
    of its forward range. *)
Definition fillAfter (candles : list Candle) (g : FairValueGap) (k : nat)
  : result FairValueGap :=
  trackFill candles g (firstn k (fillRange candles g)).

(** The [k]-th candle the tracker of [g] scans. *)
Definition scanned (candles : list Candle) (g : FairValueGap) (k : nat) : Candle :=
  candleAt candles (nth k (fillRange candles g) 0%nat).

(** The candle trades into the gap, or through its far edge. *)
Definition reaches (g : FairValueGap) (c : Candle) : bool :=
  match fvg_type g with
  | BULLISH => c_low c <=? fvg_top g
  | BEARISH => c_high c >=? fvg_bottom g
  end.

Definition crosses (g : FairValueGap) (c : Candle) : bool :=
  match fvg_type g with
  | BULLISH => c_low c <=? fvg_bottom g
  | BEARISH => c_high c >=? fvg_top g
  end.

(** How deep the candle trades into the gap, in percent of its height. *)
Definition penetrationPct (g : FairValueGap) (c : Candle) : Q :=
  let top := valQ (fvg_top g) in
  let bottom := valQ (fvg_bottom g) in
  match fvg_type g with
  | BULLISH => Qmin (top - valQ (c_low c)) (top - bottom) / (top - bottom) * 100
  | BEARISH => Qmin (valQ (c_high c) - bottom) (top - bottom) / (top - bottom) * 100
  end%Q.

(** A gap as [detectFVGs] creates it: finite edges, positive height, unfilled. *)
Definition freshGap (g : FairValueGap) : Prop :=
  fvg_top g = Fin (valQ (fvg_top g))
  /\ fvg_bottom g = Fin (valQ (fvg_bottom g))
  /\ (valQ (fvg_bottom g) < valQ (fvg_top g))%Q
  /\ fvg_filled g = false
  /\ fvg_fillPercent g = n0.

(** What the tracker keeps of [g] while it updates the fill. *)
Definition tracks (g s : FairValueGap) : Prop :=
  fvg_type s = fvg_type g /\ fvg_top s = fvg_top g
  /\ fvg_bottom s = fvg_bottom g
  /\ (exists p, fvg_fillPercent s = Fin p /\ (0 <= p <= 100)%Q)
  /\ (fvg_filled s = true -> fvg_fillPercent s = n100).

(** The gaps the detection loop pushes at the middle candle [i]. *)
Definition gapsAt (candles : list Candle) (timeframe : Timeframe)
           (minSizePercent : num) (i : nat) : list FairValueGap :=
  bullGap (candleAt candles (i - 1)) (candleAt candles i)
    (candleAt candles (i + 1)) timeframe minSizePercent
  ++ bearGap (candleAt candles (i - 1)) (candleAt candles i)
       (candleAt candles (i + 1)) timeframe minSizePercent.

(** A bullish gap between 100 and 102 (candles 0 to 2); candle 3 trades
    down to 100.5 and candle 4 only to 101.5. *)
Definition gapCandles : list Candle :=
  [ scenarioCandle 0 99.5 100 99 99.8 10;
    scenarioCandle 1 99.8 103 99.5 102.8 10;
    scenarioCandle 2 102.8 104 102 103.5 10;
    scenarioCandle 3 102.9 103 100.5 102.0 10;
    scenarioCandle 4 102.0 103 101.5 102.5 10 ].

(** ** Order-block and breaker-block strength *)

(** Seven candles: a swing low at 1, a swing high of 110 at 2, a bearish
    candle with ten times the usual volume at 3, the break above 110 at 4,
    and a dip through the low of candle 3 at 5. *)
Definition blockCandles : list Candle :=
  [ scenarioCandle 0 100 101 99 100 10;
    scenarioCandle 1 99 100 95 98 10;
    scenarioCandle 2 101 110 100 108 10;
    scenarioCandle 3 104 104 100 101 100;
    scenarioCandle 4 102 112 101 111 10;
    scenarioCandle 5 110 111 98 100 10;
    scenarioCandle 6 100 105 99 104 10 ].

(** ** Divisions and zero denominators *)

(** The reward:risk ratio [runRiskAgent] computes. *)
Definition rewardRisk (entryPrice stopLoss tp1 : num) : num :=
  abs (tp1 - entryPrice) / abs (entryPrice - stopLoss).


(** ** The backtest: outcome resolution and Risk evaluations *)

(** Following the spec's words: each candle of [future], in order, is
    checked for target 2, then target 1, then the stop (for a LONG: high >=
    target 2, else high >= target 1, else low <= stop; mirrored for a
    SHORT); the first candle that triggers decides, and the outcome is a
    stop-hit at the stop price when none does. *)
Fixpoint firstTrigger (direction : TradeDirection) (sl tp1 tp2 : num)
         (future : list Candle) : TradeStatus * num :=
  match future with
  | [] => (SL_HIT, sl)
  | fc :: rest =>
      match direction with
      | LONG =>
          if c_high fc >=? tp2 then (TP2_HIT, tp2)
          else if c_high fc >=? tp1 then (TP1_HIT, tp1)
          else if c_low fc <=? sl then (SL_HIT, sl)
          else firstTrigger direction sl tp1 tp2 rest
      | SHORT =>
          if c_low fc <=? tp2 then (TP2_HIT, tp2)
          else if c_low fc <=? tp1 then (TP1_HIT, tp1)
          else if c_high fc >=? sl then (SL_HIT, sl)
          else firstTrigger direction sl tp1 tp2 rest
      end
  end.

(** The outcome when the [window] candles after index [i] are scanned. *)
Definition outcomeWithin (window : nat) (candles : list Candle) (i : nat)
           (direction : TradeDirection) (sl tp1 tp2 : num) : TradeStatus * num :=
  firstTrigger direction sl tp1 tp2 (firstn window (skipn (i + 1) candles)).

(** The Risk call of an evaluation always has the literal arguments 0 and
    false, and the current balance. *)
Definition backtestCall (balance : num) (call : RiskCall) : Prop :=
  rc_tradesThisSession call = n0 /\ rc_newsInWindow call = false
  /\ rc_balance call = balance.

(** The trade [t] is resolved over the 49 candles after index [i]. *)
Definition resolvedAt (candles : list Candle) (i : nat) (t : Trade) : Prop :=
  let o := outcomeWithin 49 candles i (tr_direction t) (tr_stopLoss t)
             (tr_tp1 t) (tr_tp2 t) in
  tr_status t = fst o /\ tr_closePrice t = Some (snd o)
  /\ tr_timestamp t = c_time (candleAt candles i).

(** The invariant of the walk-forward loop. *)
Definition runInvariant (candles : list Candle) (st : Run) : Prop :=
  Forall (fun t => exists i, (50 <= i < length candles - 5)%nat
                             /\ resolvedAt candles i t) (run_trades st)
  /\ Forall (fun call => exists balance, backtestCall balance call)
       (run_riskCalls st).

(** 116 candles around 100: a swing high (10), a swing low at 99.6 (20),
    its sweep by a bearish candle on double volume (30), a displacement
    candle leaving a gap between 99.9 and 100.1 (31), a rally through the
    swing high (32 to 35), a new swing high at 101.5 (50), quiet candles
    above the gap after that, and a candle reaching 105 at index 110. *)
Definition historyCandle (i : nat) : Candle :=
  let t := Z.of_nat i in
  match i with
  | 10%nat => scenarioCandle t 100 101 99.8 100 10
  | 20%nat => scenarioCandle t 100 100.5 99.6 100 10
  | 30%nat => scenarioCandle t 99.85 99.9 99.5 99.7 20
  | 31%nat => scenarioCandle t 99.8 100.4 99.75 100.3 10
  | 32%nat => scenarioCandle t 100.3 100.9 100.1 100.8 10
  | 33%nat => scenarioCandle t 100.8 101.2 100.6 101.1 10
  | 34%nat => scenarioCandle t 101.1 101.25 100.7 101.2 10
  | 35%nat => scenarioCandle t 101.2 101.3 100.5 101.2 10
  | 50%nat => scenarioCandle t 100.3 101.5 100.2 100.35 10
  | 110%nat => scenarioCandle t 100.3 105 100.2 104.5 10
  | _ =>
      if Nat.ltb i 30 then
        scenarioCandle t 100 100.5 99.8 100 10
      else if Nat.ltb i 50 then
        scenarioCandle t 100.3 100.6 100.2 100.35 10
      else
        scenarioCandle t 100.3 101.25 100.2 100.35 10
  end.

Definition history : list Candle := map historyCandle (seq 0 116).

(** A 4-hour backtest of 1000 with 1% risk per trade. *)
Definition config4h : BacktestConfig :=
  mkConfig "SOLUSDT"%string TF_4h n0 n0 (Fin 1000) (Fin 1).

(** A clock on which every candle opens at 19:00 MMT, inside the New York
    killzone. *)
Definition at19h (_ : num) : num := Fin 19.
Definition at00m (_ : num) : num := n0.
Definition noOffset (_ : num) : num := n0.

(** ** Liquidity levels *)

(** The candle comes within 0.3% of the swing price. *)
Definition inBand (swing : SwingPoint) (c : Candle) : bool :=
  let approach := match sw_type swing with
                  | HIGH => c_high c / sw_price swing
                  | LOW => sw_price swing / c_low c
                  end in
  (approach >? Fin 0.997) && (approach <? Fin 1.003).

(** The candle trades through the swing price. *)
Definition sweepsThrough (swing : SwingPoint) (c : Candle) : bool :=
  match sw_type swing with
  | HIGH => c_high c >? sw_price swing
  | LOW => c_low c <? sw_price swing
  end.

(** The candles after index [i]. *)
Definition candlesAfter (candles : list Candle) (i : nat) : list Candle :=
  skipn (i + 1) candles.

(** ** Sweep and gap setups *)

(** [candles.findIndex(c => c.time === level.sweepTime)]. *)
Definition sweepIndex (candles : list Candle) (level : LiquidityLevel) : Z :=
  findIndex (fun c => match lv_sweepTime level with
                      | Some t => c_time c === t
                      | None => false
                      end) candles.

(** The setups of one level, the displacement candidates read in place. *)
Definition setupsAround (candles : list Candle) (fvgMinSizePct : num)
           (level : LiquidityLevel) : list SweepFVGSetup :=
  if (sweepIndex candles level <? 1)%Z
     || (sweepIndex candles level >=? Z.of_nat (length candles) - 2)%Z
  then []
  else flat_map
         (fun i => setupAt level fvgMinSizePct (candleAt candles (i - 1))
                     (candleAt candles i) (candleAt candles (i + 1)))
         (displacementRange candles (Z.to_nat (sweepIndex candles level))).

(** The levels that have not been swept. *)
Definition activeLevels (levels : list LiquidityLevel) : list LiquidityLevel :=
  filter (fun l => negb (isSwept (lv_status l))) levels.

(** The run on [history] as the backtest sees it at candle 60. *)
Definition historySlice : list Candle := firstn 61 history.

Definition historyLevels : list LiquidityLevel :=
  match detectLiquiditySweeps historySlice TF_4h 5 5 with
  | Ok levels => levels
  | Throw _ => []
  end.

(** ** The agents on the run over [history] *)

Definition historyStructure : list StructurePoint :=
  match (swings <- detectSwings historySlice 5 5 ;;
         detectMarketStructure historySlice swings) with
  | Ok points => points
  | Throw _ => []
  end.

(** An active New York killzone with two hours to go. *)
Definition activeNYKZ : Killzone :=
  mkKillzone NYKZ (Fin 18) (Fin 15) (Fin 22) (Fin 15) true (Some (Fin 120)).

(** ** The walk of the backtest *)

Section BacktestVocabulary.

Variable getHours getMinutes getTimezoneOffset : num -> num.

(** The trade [t] is what the loop body records when it enters at candle
    [i] with the balance [balance]: the killzone of the candle, the best
    setup of the slice, the targets, the verdict and the sizing. *)
Definition enteredAt (candles : list Candle) (config : BacktestConfig)
           (i : nat) (balance : num) (t : Trade) : Prop :=
  let slice := firstn (i + 1) candles in
  let last := candleAt candles i in
  let atr := c_close last * Fin 0.008 in
  (i mod 15 = 0)%nat
  /\ tr_timestamp t = c_time last
  /\ (exists kz,
         getActiveKillzone getHours getMinutes
           (getMMTTime getTimezoneOffset (newDate (c_time last))) = Some kz
         /\ tr_killzone t = kz_name kz)
  /\ (exists levels setup rest,
         detectLiquiditySweeps slice (cfg_timeframe config) 5 5 = Ok levels
         /\ detectSweepFVGSetups slice levels (Fin 0.03) = Ok (setup :: rest)
         /\ tr_direction t = su_direction setup
         /\ tr_entry t = su_fvgEntry setup
         /\ tr_stopLoss t = su_stopLoss setup)
  /\ tr_tp1 t = (if isLong (tr_direction t)
                 then tr_entry t + atr * Fin 2.5
                 else tr_entry t - atr * Fin 2.5)
  /\ tr_tp2 t = (if isLong (tr_direction t)
                 then tr_entry t + atr * Fin 5
                 else tr_entry t - atr * Fin 5)
  /\ (rewardRisk (tr_entry t) (tr_stopLoss t) (tr_tp1 t) <? Fin 2) = false
  /\ tr_rr t = toFixed2 (rewardRisk (tr_entry t) (tr_stopLoss t) (tr_tp1 t))
  /\ (tr_grade t = Grade_Aplus \/ tr_grade t = Grade_A)
  /\ tr_grade t = co_grade (tr_council t)
  /\ co_direction (tr_council t) = Some (tr_direction t)
  /\ map ag_agent (co_agents (tr_council t))
     = [STRUCTURE; LIQUIDITY; ARRAY; RISK; EXECUTION]
  /\ (tr_status t = TP1_HIT \/ tr_status t = TP2_HIT \/ tr_status t = SL_HIT)
  /\ tr_mode t = SIMULATE
  /\ tr_setupType t = LIQUIDITY_SWEEP_FVG
  /\ tr_pair t = cfg_pair config
  /\ tr_timeframe t = cfg_timeframe config
  /\ tr_riskPercent t = cfg_riskPerTrade config
  /\ tr_executedPrice t = tr_entry t
  /\ tr_positionSize t
     = ((balance * cfg_riskPerTrade config) / n100)
       / abs (tr_entry t - tr_stopLoss t)
  /\ tr_closePrice t = Some (match tr_status t with
                             | TP1_HIT => tr_tp1 t
                             | TP2_HIT => tr_tp2 t
                             | _ => tr_stopLoss t
                             end)
  /\ (exists exitPrice,
         tr_closePrice t = Some exitPrice
         /\ tr_pnl t
            = Some (if isLong (tr_direction t)
                    then (exitPrice - tr_entry t) * tr_positionSize t
                    else (tr_entry t - exitPrice) * tr_positionSize t)
         /\ tr_pnlPercent t = Some ((pnlOf t / balance) * n100))
  /\ (exists swings structure obs fvgs levels kz,
         detectSwings slice 5 5 = Ok swings
         /\ detectMarketStructure slice swings = Ok structure
         /\ detectOrderBlocks slice structure (cfg_timeframe config) = Ok obs
         /\ detectFVGs slice (cfg_timeframe config) (Fin 0.05) = Ok fvgs
         /\ detectLiquiditySweeps slice (cfg_timeframe config) 5 5 = Ok levels
         /\ tr_council t
            = runCouncil
                [ runStructureAgent slice structure (tr_direction t);
                  runLiquidityAgent levels (c_close last) (tr_direction t);
                  runArrayAgent obs fvgs (calcPDArray swings (c_close last))
                    (c_close last) (tr_direction t);
                  runRiskAgent (Some kz) balance n0 (tr_entry t)
                    (tr_stopLoss t) (tr_tp1 t) false;
                  runExecutionAgent slice (tr_entry t) (tr_stopLoss t)
                    (tr_tp1 t) (tr_tp2 t) (tr_direction t)
                    (Some (tr_entry t)) None ]).

(** The trades [trades] were entered one after the other, the first at an
    index from [from] on with the balance [balance], each later one at least
    21 candles after the one before and with the balance the one before
    left. *)
Fixpoint entriesFrom (candles : list Candle) (config : BacktestConfig)
         (balance : num) (from : nat) (trades : list Trade) : Prop :=
  match trades with
  | [] => True
  | t :: rest =>
      exists i,
        (from <= i < length candles - 5)%nat
        /\ enteredAt candles config i balance t
        /\ entriesFrom candles config (balance + pnlOf t) (i + 21) rest
  end.

End BacktestVocabulary.

(** The balance after the trades [trades], from [balance]. *)
Definition balanceAfter (balance : num) (trades : list Trade) : num :=
  fold_left (fun b t => b + pnlOf t) trades balance.

(** ** Metrics *)

Definition isNaN (a : num) : bool :=
  match a with NaN => true | _ => false end.

(** The trades entered in the killzone [k]. *)
Definition tradesIn (k : KillzoneName) (trades : list Trade) : list Trade :=
  filter (fun t => KillzoneName_eqb k (tr_killzone t)) trades.

(** The winning trades: those with a P&L above 0. *)
Definition winners (trades : list Trade) : list Trade :=
  filter (fun t => pnlOf t >? n0) trades.

(** The losing trades: those with a P&L of at most 0. *)
Definition losers (trades : list Trade) : list Trade :=
  filter (fun t => pnlOf t <=? n0) trades.

(** The trades whose P&L is NaN. *)
Definition unrated (trades : list Trade) : list Trade :=
  filter (fun t => isNaN (pnlOf t)) trades.

(** The balance after the first [k] trades, over the rationals. *)
Definition balanceQ (initialBalance : num) (trades : list Trade) (k : nat) : Q :=
  (valQ initialBalance + sumQ (firstn k (pnlsQ trades)))%Q.

(** Four trades (P&L 30, -20, -25, 40) in three killzones. *)
Definition pnlTrade (kz : KillzoneName) (pnl : Q) : Trade :=
  mkTrade (id_bt n0) n0 "SOLUSDT"%string TF_15m LONG LIQUIDITY_SWEEP_FVG
    Grade_A (Fin 100) (Fin 99) (Fin 102) (Fin 104) (Fin 2) (Fin 1) kz
    (mkCouncil [] n0 Grade_A (Some LONG)) SL_HIT n0 (Fin 100) (Fin 1)
    (Some (Fin pnl)) (Some (Fin pnl)) (Some n0) (Some (Fin 99)) SIMULATE.

Definition fourTrades : list Trade :=
  [ pnlTrade AKZ 30; pnlTrade LKZ (-20); pnlTrade NYKZ (-25);
    pnlTrade NYKZ 40 ].

(** ** Market structure *)

(** The trend [detectMarketStructure] starts from. *)
Definition initialTrend (swings : list SwingPoint) : Trend :=
  match swings with
  | s0 :: _ => match sw_type s0 with LOW => UP | HIGH => DOWN end
  | [] => UP
  end.

(** The trend after an event: a change of character turns it, a break of
    structure leaves it. *)
Definition trendAfter (trend : Trend) (sp : StructurePoint) : Trend :=
  match sp_type sp with
  | CHoCH_BULL => UP
  | CHoCH_BEAR => DOWN
  | _ => trend
  end.

(** The events a trend allows: in an up trend a break of a high is a BOS
    and a break of a low a CHoCH; in a down trend the other way round. *)
Definition allowedIn (trend : Trend) (ty : StructureType) : Prop :=
  match trend, ty with
  | UP, BOS_BULL | UP, CHoCH_BEAR | DOWN, BOS_BEAR | DOWN, CHoCH_BULL => True
  | _, _ => False
  end.

Fixpoint followsTrend (trend : Trend) (points : list StructurePoint) : Prop :=
  match points with
  | [] => True
  | sp :: rest =>
      allowedIn trend (sp_type sp) /\ followsTrend (trendAfter trend sp) rest
  end.

(** The event [sp] records candle [i] breaking a swing of [swings]. *)
Definition eventAt (candles : list Candle) (swings : list SwingPoint)
           (i : nat) (sp : StructurePoint) : Prop :=
  let candle := candleAt candles i in
  (1 <= i < length candles)%nat
  /\ sp_candle sp = candle
  /\ sp_time sp = c_time candle
  /\ exists s,
       In s swings
       /\ sp_price sp = sw_price s
       /\ match sp_type sp with
          | BOS_BULL | CHoCH_BULL =>
              sw_type s = HIGH
              /\ (c_high candle >? sw_price s) = true
              /\ sp_confirmed sp = (c_close candle >? sw_price s)
          | BOS_BEAR | CHoCH_BEAR =>
              sw_type s = LOW
              /\ (c_low candle <? sw_price s) = true
              /\ sp_confirmed sp = (c_close candle <? sw_price s)
          | MSS_BULL | MSS_BEAR => False
          end.

(** The invariant of the loop of [detectMarketStructure]: [idxs] are the
    candles of the events recorded so far. *)
Definition structureInvariant (candles : list Candle)
           (swings : list SwingPoint) (trend0 : Trend) (st : StructState)
           (idxs : list nat) : Prop :=
  Forall2 (eventAt candles swings) idxs (st_points st)
  /\ (forall s, st_lastHigh st = Some s -> In s swings /\ sw_type s = HIGH)
  /\ (forall s, st_lastLow st = Some s -> In s swings /\ sw_type s = LOW)
  /\ followsTrend trend0 (st_points st)
  /\ fold_left trendAfter (st_points st) trend0 = st_trend st.

(** ** Order blocks *)

(** The candle trades through the block: down to its bottom for a bullish
    block, up to its top for a bearish one. *)
Definition tradesThrough (ob : OrderBlock) (c : Candle) : bool :=
  match ob_type ob with
  | BULLISH => c_low c <=? ob_bottom ob
  | BEARISH => c_high c >=? ob_top ob
  end.

(** [candles.findIndex(c => c.time >= t)]: the first candle that is not
    older than [t], -1 when there is none. *)
Definition indexAt (candles : list Candle) (t : num) : Z :=
  findIndex (fun c => c_time c >=? t) candles.

(** The candles after the first candle that is not older than the block
    (all candles when there is none). *)
Definition candlesAfterBlock (candles : list Candle) (ob : OrderBlock)
  : list Candle :=
  skipn (Z.to_nat (indexAt candles (ob_time ob) + 1)) candles.

(** The block [ob] as [blocksOf] builds it from the candle [c] for the
    event [sp]. *)
Definition blockFrom (avgVol : num) (timeframe : Timeframe)
           (sp : StructurePoint) (c : Candle) (ob : OrderBlock) : Prop :=
  ob_time ob = c_time c
  /\ ob_volume ob = c_volume c
  /\ ob_timeframe ob = timeframe
  /\ match ob_type ob with
     | BULLISH =>
         isBullBreak (sp_type sp) = true
         /\ isBearishCandle c = true
         /\ ob_id ob = id_ob_bull (c_time c)
         /\ ob_top ob = c_open c /\ ob_bottom ob = c_low c
         /\ ob_strength ob
            = round (min n100 ((c_volume c / avgVol) * Fin 50)
                     + min (Fin 50)
                         (((sp_price sp - c_high c) / c_high c) * Fin 1000))
     | BEARISH =>
         isBearBreak (sp_type sp) = true
         /\ isBullishCandle c = true
         /\ ob_id ob = id_ob_bear (c_time c)
         /\ ob_top ob = c_high c /\ ob_bottom ob = c_open c
         /\ ob_strength ob
            = round (min n100 ((c_volume c / avgVol) * Fin 50)
                     + min (Fin 50)
                         (((c_low c - sp_price sp) / c_low c) * Fin 1000))
     end.

(** The block was built from an event of [sps] and a candle of [candles]
    that lies 1 to 20 candles before the candle of the event. *)
Definition blockOrigin (candles : list Candle) (avgVol : num)
           (timeframe : Timeframe) (sps : list StructurePoint)
           (ob : OrderBlock) : Prop :=
  exists sp j,
    In sp sps
    /\ (Z.of_nat j < indexAt candles (sp_time sp) <= Z.of_nat j + 20)%Z
    /\ (j < length candles)%nat
    /\ blockFrom avgVol timeframe sp (candleAt candles j) ob.

(** Whether and when the block is mitigated, from the candles after it. *)
Definition mitigationOf (candles : list Candle) (ob : OrderBlock) : Prop :=
  match find (tradesThrough ob) (candlesAfterBlock candles ob) with
  | Some c => ob_mitigated ob = true /\ ob_mitigationTime ob = Some (c_time c)
  | None => ob_mitigated ob = false /\ ob_mitigationTime ob = None
  end.

(** ** The PD array *)




(** ** Gaps near the price, overlaps and confluence *)

(** An unfilled gap with its midpoint less than [pctRange] percent of the
    price away from the price. *)
Definition nearPrice (price pctRange : num) (f : FairValueGap) : bool :=
  negb (fvg_filled f)
  && (abs (fvg_midpoint f - price) <? (price * pctRange) / n100).

(** A gap between [bottom] and [top] at time [t]. *)
Definition gapBetween (ty : Bias) (t bottom top : Q) (filled : bool)
  : FairValueGap :=
  mkFVG (match ty with
         | BULLISH => id_fvg_bull (Fin t)
         | BEARISH => id_fvg_bear (Fin t)
         end)
    ty (Fin top) (Fin bottom) (Fin t) (Fin ((top + bottom) / 2)) filled n0
    TF_15m.

(** Three bullish gaps around 100 (the middle one filled) and two bearish
    gaps that overlap the first. *)
Definition bullGaps : list FairValueGap :=
  [ gapBetween BULLISH 10 100 102 false; gapBetween BULLISH 20 101 103 true;
    gapBetween BULLISH 30 99 100 false ].

Definition bearGaps : list FairValueGap :=
  [ gapBetween BEARISH 15 101 104 false; gapBetween BEARISH 25 101.5 102.5 false ].

(** A level with the given price, kind, status and strength. *)
Definition levelAt (tf : Timeframe) (ty : SwingType) (price strength : Q)
           (status : SweepStatus) : LiquidityLevel :=
  mkLevel (id_liq tf ty n0) (Fin price) n0 ty status None None (Fin strength)
    tf.

Definition sampleHtfLevels : list LiquidityLevel :=
  [ levelAt TF_4h HIGH 100 80 ACTIVE; levelAt TF_4h LOW 95 60 SWEPT ].

Definition sampleLtfLevels : list LiquidityLevel :=
  [ levelAt TF_15m HIGH 100.1 45 ACTIVE; levelAt TF_15m LOW 95 30 ACTIVE;
    levelAt TF_15m HIGH 103 90 ACTIVE ].

(** ** Fair-value gaps: where they are *)

(** The gap [f] lies between the candles before and after candle [i]. *)
Definition gapAround (candles : list Candle) (timeframe : Timeframe)
           (minSizePercent : num) (i : nat) (f : FairValueGap) : Prop :=
  let prev := candleAt candles (i - 1) in
  let curr := candleAt candles i in
  let next := candleAt candles (i + 1) in
  (1 <= i /\ i + 1 < length candles)%nat
  /\ fvg_time f = c_time curr
  /\ fvg_timeframe f = timeframe
  /\ fvg_midpoint f = (fvg_top f + fvg_bottom f) / Fin 2
  /\ (fvg_bottom f <? fvg_top f) = true
  /\ match fvg_type f with
     | BULLISH =>
         fvg_id f = id_fvg_bull (c_time curr)
         /\ fvg_top f = c_low next /\ fvg_bottom f = c_high prev
         /\ (((fvg_top f - fvg_bottom f) / fvg_bottom f) * n100
             >=? minSizePercent) = true
     | BEARISH =>
         fvg_id f = id_fvg_bear (c_time curr)
         /\ fvg_top f = c_low prev /\ fvg_bottom f = c_high next
         /\ (((fvg_top f - fvg_bottom f) / fvg_top f) * n100
             >=? minSizePercent) = true
     end.

(** The fill tracker leaves the place of a gap as it is. *)
Definition samePlace (g s : FairValueGap) : Prop :=
  fvg_id s = fvg_id g /\ fvg_type s = fvg_type g /\ fvg_top s = fvg_top g
  /\ fvg_bottom s = fvg_bottom g /\ fvg_time s = fvg_time g
  /\ fvg_midpoint s = fvg_midpoint g /\ fvg_timeframe s = fvg_timeframe g.

(* ================================================================== *)
(** * Facts about numbers, arrays and sorting *)
(* ================================================================== *)

Section NumFacts.

Local Open Scope Q_scope.

Lemma Qlt_bool_iff (x y : Q) : Qlt_bool x y = true <-> x < y.
Proof.
  unfold Qlt_bool. rewrite negb_true_iff.
  destruct (Qle_bool y x) eqn:E.
  - apply Qle_bool_iff in E. split; [discriminate | intro H; exfalso; lra].
  - split; [intros _ | reflexivity].
    destruct (Qlt_le_dec x y) as [H | H]; [exact H |].
    apply Qle_bool_iff in H. congruence.
Qed.

Lemma Qlt_bool_false (x y : Q) : Qlt_bool x y = false <-> y <= x.
Proof.
  destruct (Qlt_bool x y) eqn:E.
  - apply Qlt_bool_iff in E. split; [discriminate | intro; exfalso; lra].
  - split; [intros _ | reflexivity].
    destruct (Qlt_le_dec x y) as [H | H]; [| exact H].
    apply Qlt_bool_iff in H. congruence.
Qed.

Lemma Qle_bool_false (x y : Q) : Qle_bool x y = false <-> y < x.
Proof.
  destruct (Qle_bool x y) eqn:E.
  - apply Qle_bool_iff in E. split; [discriminate | intro; exfalso; lra].
  - split; [intros _ | reflexivity].
    destruct (Qlt_le_dec y x) as [H | H]; [exact H |].
    apply Qle_bool_iff in H. congruence.
Qed.

Lemma ltb_Fin (x y : Q) : (Fin x <? Fin y)%num = true <-> x < y.
Proof. apply Qlt_bool_iff. Qed.

Lemma leb_Fin (x y : Q) : (Fin x <=? Fin y)%num = true <-> x <= y.
Proof. apply Qle_bool_iff. Qed.

Lemma gtb_Fin (x y : Q) : (Fin x >? Fin y)%num = true <-> y < x.
Proof. apply Qlt_bool_iff. Qed.

Lemma geb_Fin (x y : Q) : (Fin x >=? Fin y)%num = true <-> y <= x.
Proof. apply Qle_bool_iff. Qed.


Lemma leb_Fin_false (x y : Q) : (Fin x <=? Fin y)%num = false <-> y < x.
Proof. apply Qle_bool_false. Qed.

Lemma gtb_Fin_false (x y : Q) : (Fin x >? Fin y)%num = false <-> x <= y.
Proof. apply Qlt_bool_false. Qed.

Lemma geb_Fin_false (x y : Q) : (Fin x >=? Fin y)%num = false <-> x < y.
Proof. apply Qle_bool_false. Qed.

End NumFacts.

Lemma isFinite_Fin (a : num) : isFinite a = true -> a = Fin (valQ a).
Proof. destruct a; simpl; intro H; try discriminate; reflexivity. Qed.

Section ArrayFacts.

Context {A : Type}.

Lemma get_lt (xs : list A) (i : nat) (d : A) :
  (i < length xs)%nat -> get xs i = Ok (nth i xs d).
Proof.
  intro H. unfold get.
  rewrite (nth_error_nth' xs d H). reflexivity.
Qed.

Lemma get_ge (xs : list A) (i : nat) :
  (length xs <= i)%nat -> get xs i = Throw TypeError.
Proof.
  intro H. unfold get.
  apply nth_error_None in H. rewrite H. reflexivity.
Qed.

Lemma In_insertBy (cmp : A -> A -> num) (x y : A) (l : list A) :
  In y (insertBy cmp x l) <-> y = x \/ In y l.
Proof.
  induction l as [| z l IH]; cbn [insertBy].
  - simpl. intuition congruence.
  - destruct (cmp x z >? Fin 0)%num; cbn [In]; rewrite ?IH;
      intuition congruence.
Qed.

Lemma In_jsSort (cmp : A -> A -> num) (y : A) (l : list A) :
  In y (jsSort cmp l) <-> In y l.
Proof.
  induction l as [| x l IH]; cbn [jsSort fold_right]; [reflexivity |].
  fold (jsSort cmp l). rewrite In_insertBy, IH. simpl. intuition congruence.
Qed.

Lemma jsSort_nil_iff (cmp : A -> A -> num) (l : list A) :
  jsSort cmp l = [] <-> l = [].
Proof.
  split; intro H; [| subst; reflexivity].
  destruct l as [| x l]; [reflexivity |].
  exfalso. assert (In x (jsSort cmp (x :: l))) as HIn
    by (apply In_jsSort; left; reflexivity).
  rewrite H in HIn. exact HIn.
Qed.

Lemma findIndexFrom_bounds (p : A -> bool) (xs : list A) (i : Z) :
  (0 <= i)%Z ->
  findIndexFrom p xs i = (-1)%Z
  \/ (i <= findIndexFrom p xs i < i + Z.of_nat (length xs))%Z.
Proof.
  revert i. induction xs as [| x xs IH]; intros i Hi; simpl.
  - left; reflexivity.
  - destruct (p x).
    + right. lia.
    + destruct (IH (i + 1)%Z ltac:(lia)) as [H | H]; [left; exact H | right; lia].
Qed.

Lemma findIndex_bounds (p : A -> bool) (xs : list A) :
  findIndex p xs = (-1)%Z
  \/ (0 <= findIndex p xs < Z.of_nat (length xs))%Z.
Proof.
  destruct (findIndexFrom_bounds p xs 0%Z ltac:(lia)) as [H | H];
    [left; exact H | right; unfold findIndex; lia].
Qed.

End ArrayFacts.

(* ================================================================== *)
(** * The swing detector *)
(* ================================================================== *)

Lemma finiteCandle_at (candles : list Candle) (j : nat) :
  Forall finiteCandle candles -> (j < length candles)%nat ->
  finiteCandle (candleAt candles j).
Proof.
  intros HF Hj. rewrite Forall_forall in HF. apply HF.
  unfold candleAt. apply nth_In. exact Hj.
Qed.

Lemma finiteCandle_fields (c : Candle) :
  finiteCandle c ->
  c_time c = Fin (valQ (c_time c)) /\ c_open c = Fin (valQ (c_open c))
  /\ c_high c = Fin (valQ (c_high c)) /\ c_low c = Fin (valQ (c_low c))
  /\ c_close c = Fin (valQ (c_close c))
  /\ c_volume c = Fin (valQ (c_volume c)).
Proof.
  unfold finiteCandle. rewrite !andb_true_iff.
  intros [[[[[H1 H2] H3] H4] H5] H6].
  repeat split; apply isFinite_Fin; assumption.
Qed.



Lemma pivotScan_unbeaten (beats : Candle -> bool) (candles : list Candle)
      (i : nat) (js : list nat) :
  (forall j, In j js -> (j < length candles)%nat) ->
  pivotScan beats candles i js = Ok (unbeaten beats candles i js).
Proof.
  induction js as [| j js IH]; intro Hjs; simpl; [reflexivity |].
  assert (Hj : (j < length candles)%nat) by (apply Hjs; left; reflexivity).
  assert (Hrest : forall k, In k js -> (k < length candles)%nat)
    by (intros k Hk; apply Hjs; right; exact Hk).
  destruct (Nat.eqb j i); simpl.
  - apply IH, Hrest.
  - rewrite (get_lt candles j undefinedCandle Hj). simpl.
    fold (candleAt candles j).
    destruct (beats (candleAt candles j)); simpl; [reflexivity |].
    apply IH, Hrest.
Qed.

Lemma In_window (i leftLen rightLen j : nat) :
  (leftLen <= i)%nat ->
  In j (window i leftLen rightLen) <-> (i - leftLen <= j <= i + rightLen)%nat.
Proof. intro H. unfold window. rewrite in_seq. lia. Qed.

Lemma swingLoop_flat_map (candles : list Candle) (leftLen rightLen : nat)
      (idxs : list nat) :
  (forall i, In i idxs -> (leftLen <= i /\ i + rightLen < length candles)%nat) ->
  swingLoop candles leftLen rightLen idxs
  = Ok (flat_map (swingsAt candles leftLen rightLen) idxs).
Proof.
  induction idxs as [| i idxs IH]; intro Hidx; simpl; [reflexivity |].
  destruct (Hidx i (or_introl eq_refl)) as [HL HR].
  rewrite (get_lt candles i undefinedCandle) by lia. simpl.
  fold (candleAt candles i).
  assert (Hwin : forall j, In j (window i leftLen rightLen) ->
                           (j < length candles)%nat).
  { intros j Hj. apply In_window in Hj; lia. }
  rewrite !pivotScan_unbeaten by exact Hwin. simpl.
  rewrite IH by (intros k Hk; apply Hidx; right; exact Hk). simpl.
  unfold swingsAt. rewrite <- app_assoc. reflexivity.
Qed.

Lemma swingRange_spec (n leftLen rightLen i : nat) :
  In i (seq leftLen (n - rightLen - leftLen))
  <-> (leftLen <= i /\ i + rightLen < n)%nat.
Proof. rewrite in_seq. lia. Qed.

Lemma detectSwings_closed (candles : list Candle) (leftLen rightLen : nat) :
  detectSwings candles leftLen rightLen
  = Ok (jsSort byIndexAsc
          (flat_map (swingsAt candles leftLen rightLen)
             (seq leftLen (length candles - rightLen - leftLen)))).
Proof.
  unfold detectSwings.
  rewrite swingLoop_flat_map; [reflexivity |].
  intros i Hi. apply swingRange_spec in Hi. exact Hi.
Qed.






(* ================================================================== *)
(** * Sums of finite numbers *)
(* ================================================================== *)

Lemma fold_add_Fin (xs : list num) (q0 : Q) :
  Forall (fun x => isFinite x = true) xs ->
  exists q, fold_left add xs (Fin q0) = Fin q
            /\ (q == q0 + sumQ (map valQ xs))%Q.
Proof.
  revert q0. induction xs as [| x xs IH]; intros q0 HF; simpl.
  - exists q0. split; [reflexivity | lra].
  - inversion HF as [| ? ? Hx HF']; subst.
    rewrite (isFinite_Fin x Hx). simpl.
    destruct (IH (q0 + valQ x)%Q HF') as [q [Hq Heq]].
    exists q. split; [exact Hq | lra].
Qed.

Lemma sum_Fin (xs : list num) :
  Forall (fun x => isFinite x = true) xs ->
  exists q, sum xs = Fin q /\ (q == sumQ (map valQ xs))%Q.
Proof.
  intro HF. destruct (fold_add_Fin xs 0 HF) as [q [Hq Heq]].
  exists q. split; [exact Hq | lra].
Qed.


(* ================================================================== *)
(** * The council *)
(* ================================================================== *)











(* ================================================================== *)
(** * Profit factor *)
(* ================================================================== *)

Lemma grossLossesQ_nonneg (pnls : list Q) : (0 <= grossLossesQ pnls)%Q.
Proof.
  induction pnls as [| p pnls IH]; unfold grossLossesQ in *; simpl; [lra |].
  destruct (Qlt_bool 0 p) eqn:E; [lra |].
  apply Qlt_bool_false in E. lra.
Qed.

Lemma grossWin_Fin (trades : list Trade) :
  Forall (fun t => isFinite (pnlOf t) = true) trades ->
  exists w, grossWin trades = Fin w /\ (w == grossWinsQ (pnlsQ trades))%Q.
Proof.
  intro HF. unfold grossWin.
  destruct (sum_Fin (map pnlOf (filter (fun t => pnlOf t >? n0) trades)))
    as [w [Hw Heq]].
  - apply Forall_map. rewrite Forall_forall in *. intros t Ht.
    apply HF. apply filter_In in Ht. apply Ht.
  - exists w. split; [exact Hw |]. rewrite Heq. clear Hw Heq.
    unfold grossWinsQ, pnlsQ.
    induction trades as [| t trades IH]; [reflexivity |].
    inversion HF as [| ? ? Ht HF']; subst.
    pose proof (isFinite_Fin _ Ht) as Hp.
    assert (Hc : (pnlOf t >? n0) = Qlt_bool 0 (valQ (pnlOf t)))
      by (rewrite Hp at 1; reflexivity).
    cbn [filter map]. rewrite Hc.
    destruct (Qlt_bool 0 (valQ (pnlOf t))); cbn [map sumQ fold_right];
      fold (sumQ (map valQ (map pnlOf (filter (fun t => pnlOf t >? n0) trades))));
      rewrite (IH HF'); unfold sumQ; lra.
Qed.

Lemma grossLoss_Fin (trades : list Trade) :
  Forall (fun t => isFinite (pnlOf t) = true) trades ->
  exists l, grossLoss trades = Fin l /\ (l == grossLossesQ (pnlsQ trades))%Q.
Proof.
  intro HF. unfold grossLoss.
  destruct (sum_Fin (map pnlOf (filter (fun t => pnlOf t <=? n0) trades)))
    as [l [Hl Heq]].
  - apply Forall_map. rewrite Forall_forall in *. intros t Ht.
    apply HF. apply filter_In in Ht. apply Ht.
  - exists (Qabs l). rewrite Hl. split; [reflexivity |].
    assert (Hneg : (l == - grossLossesQ (pnlsQ trades))%Q).
    { rewrite Heq. clear Hl Heq.
      unfold grossLossesQ, pnlsQ.
      induction trades as [| t trades IH]; [reflexivity |].
      inversion HF as [| ? ? Ht HF']; subst.
      pose proof (isFinite_Fin _ Ht) as Hp.
      assert (Hc : (pnlOf t <=? n0) = negb (Qlt_bool 0 (valQ (pnlOf t)))).
      { rewrite Hp at 1. unfold Qlt_bool. rewrite negb_involutive.
        reflexivity. }
      cbn [filter map]. rewrite Hc.
      destruct (Qlt_bool 0 (valQ (pnlOf t))); cbn [negb map sumQ fold_right];
        fold (sumQ (map valQ (map pnlOf (filter (fun t => pnlOf t <=? n0) trades))));
        rewrite (IH HF'); unfold sumQ; lra. }
    pose proof (grossLossesQ_nonneg (pnlsQ trades)) as Hnn.
    rewrite Hneg, Qabs_opp. apply Qabs_pos. exact Hnn.
Qed.

(** C8.  For every finished trade list (finite P&L values), with [W] the
    gross wins and [L] the gross losses: the profit factor of [calcMetrics]
    is [W / L] when [L > 0], the sentinel 999 when [L = 0] and [W > 0], and
    0 when both are 0. *)
Theorem calcMetrics_profitFactor (trades : list Trade) (config : BacktestConfig) :
  Forall (fun t => isFinite (pnlOf t) = true) trades ->
  let W := grossWinsQ (pnlsQ trades) in
  let L := grossLossesQ (pnlsQ trades) in
  ((0 < L)%Q ->
   (m_profitFactor (calcMetrics trades config) == Fin (W / L))%num)
  /\ ((L == 0)%Q -> (0 < W)%Q ->
      m_profitFactor (calcMetrics trades config) = Fin 999)
  /\ ((L == 0)%Q -> (W == 0)%Q ->
      m_profitFactor (calcMetrics trades config) = Fin 0).
Proof.
  intros HF W L.
  destruct (grossWin_Fin trades HF) as [w [Hw Hweq]].
  destruct (grossLoss_Fin trades HF) as [l [Hl Hleq]].
  fold W in Hweq. fold L in Hleq.
  assert (Hpf : m_profitFactor (calcMetrics trades config) = profitFactor trades).
  { unfold calcMetrics.
    destruct (fold_left drawdownStep trades _) as [[? ?] ?]. reflexivity. }
  rewrite Hpf. unfold profitFactor. rewrite Hw, Hl.
  destruct (Fin l >? n0) eqn:E1;
    [apply gtb_Fin in E1 | apply gtb_Fin_false in E1];
    (destruct (Fin w >? n0) eqn:E2;
     [apply gtb_Fin in E2 | apply gtb_Fin_false in E2]).
  all: repeat split; intros; try (exfalso; lra); try reflexivity.
  all: unfold div; destruct (Qeq_bool l 0) eqn:E3;
    try (apply Qeq_bool_iff in E3; exfalso; lra);
    simpl; rewrite Hweq, Hleq; reflexivity.
Qed.

Lemma calcMetrics_profitFactor_witness :
  Forall (fun t => isFinite (pnlOf t) = true) [closedTrade 60; closedTrade 40]
  /\ m_profitFactor (calcMetrics [closedTrade 60; closedTrade 40] sampleConfig)
     = Fin 999.
Proof.
  assert (HF : Forall (fun t => isFinite (pnlOf t) = true)
                 [closedTrade 60; closedTrade 40]) by (repeat constructor).
  split; [exact HF |].
  apply (calcMetrics_profitFactor [closedTrade 60; closedTrade 40]
           sampleConfig HF); vm_compute; reflexivity.
Defined.

(* ================================================================== *)
(** * The detectors never raise *)
(* ================================================================== *)

Lemma returns_Ok {A : Type} (a : A) : returns (Ok a).
Proof. exists a. reflexivity. Qed.

Lemma returns_bind {A B : Type} (m : result A) (k : A -> result B) :
  returns m -> (forall a, m = Ok a -> returns (k a)) -> returns (bind m k).
Proof.
  intros [a Ha] Hk. rewrite Ha. simpl. apply Hk. exact Ha.
Qed.

(** Rewrites an in-range array read into the element read. *)
Ltac read_candle candles i :=
  rewrite (get_lt candles i undefinedCandle) by (simpl; lia);
  cbn [bind]; fold (candleAt candles i).

Lemma forwardRange_lt (candles : list Candle) (from i : nat) :
  In i (forwardRange candles from) -> (i < length candles)%nat.
Proof. unfold forwardRange. rewrite in_seq. lia. Qed.

Lemma backRange_lt (spIdx j : nat) : In j (backRange spIdx) -> (j < spIdx)%nat.
Proof. unfold backRange. rewrite <- in_rev, in_seq. lia. Qed.

(** ** detectMarketStructure *)

Lemma structureLoop_returns (candles : list Candle) (swings : list SwingPoint)
      (idxs : list nat) (st : StructState) :
  (forall i, In i idxs -> (i < length candles)%nat) ->
  returns (structureLoop candles swings idxs st).
Proof.
  revert st. induction idxs as [| i idxs IH]; intros st Hidx; simpl.
  - apply returns_Ok.
  - assert (Hi : (i < length candles)%nat) by (apply Hidx; left; reflexivity).
    read_candle candles i.
    apply IH. intros k Hk. apply Hidx. right. exact Hk.
Qed.

Lemma detectMarketStructure_returns (candles : list Candle)
      (swings : list SwingPoint) :
  returns (detectMarketStructure candles swings).
Proof.
  unfold detectMarketStructure.
  destruct (Nat.ltb (length swings) 4) eqn:E; [apply returns_Ok |].
  apply Nat.ltb_ge in E.
  destruct swings as [| s0 swings]; [simpl in E; lia |].
  change (get (s0 :: swings) 0) with (Ok s0). cbn [bind].
  apply returns_bind; [| intros; apply returns_Ok].
  apply structureLoop_returns. intros i Hi. apply in_seq in Hi. lia.
Qed.

Lemma detectMarketStructure_few_swings (candles : list Candle)
      (swings : list SwingPoint) :
  (length swings < 4)%nat -> detectMarketStructure candles swings = Ok [].
Proof.
  intro H. unfold detectMarketStructure.
  apply Nat.ltb_lt in H. rewrite H. reflexivity.
Qed.

(** ** calcPDArray *)

Lemma calcPDArray_none (swings : list SwingPoint) (currentPrice : num) :
  filter isHighSwing swings = [] \/ filter isLowSwing swings = [] ->
  calcPDArray swings currentPrice = None.
Proof.
  intros [H | H]; unfold calcPDArray; rewrite H; simpl.
  - reflexivity.
  - rewrite orb_true_r. reflexivity.
Qed.

(** ** detectOrderBlocks *)

Lemma lastOpposite_returns (wanted : Candle -> bool) (candles : list Candle)
      (js : list nat) :
  (forall j, In j js -> (j < length candles)%nat) ->
  returns (lastOpposite wanted candles js).
Proof.
  induction js as [| j js IH]; intro Hjs; simpl.
  - apply returns_Ok.
  - assert (Hj : (j < length candles)%nat) by (apply Hjs; left; reflexivity).
    read_candle candles j.
    destruct (wanted (candleAt candles j)); [apply returns_Ok |].
    apply IH. intros k Hk. apply Hjs. right. exact Hk.
Qed.

Lemma blocksOf_returns (candles : list Candle) (avgVol : num)
      (timeframe : Timeframe) (sp : StructurePoint) :
  returns (blocksOf candles avgVol timeframe sp).
Proof.
  unfold blocksOf.
  set (spIdx := findIndex (fun c => c_time c >=? sp_time sp) candles).
  destruct (spIdx <? 3)%Z eqn:E; [apply returns_Ok |].
  apply Z.ltb_ge in E.
  assert (Hin : forall j, In j (backRange (Z.to_nat spIdx)) ->
                          (j < length candles)%nat).
  { intros j Hj. apply backRange_lt in Hj.
    destruct (findIndex_bounds (fun c => c_time c >=? sp_time sp) candles)
      as [H | H]; fold spIdx in H; lia. }
  apply returns_bind.
  - destruct (isBullBreak (sp_type sp)); [| apply returns_Ok].
    apply returns_bind; [| intros; apply returns_Ok].
    apply lastOpposite_returns, Hin.
  - intros bull _. apply returns_bind; [| intros; apply returns_Ok].
    destruct (isBearBreak (sp_type sp)); [| apply returns_Ok].
    apply returns_bind; [| intros; apply returns_Ok].
    apply lastOpposite_returns, Hin.
Qed.

Lemma blocksOf_few_candles (candles : list Candle) (avgVol : num)
      (timeframe : Timeframe) (sp : StructurePoint) :
  (length candles < 4)%nat -> blocksOf candles avgVol timeframe sp = Ok [].
Proof.
  intro H. unfold blocksOf.
  destruct (findIndex_bounds (fun c => c_time c >=? sp_time sp) candles)
    as [E | E].
  - rewrite E. reflexivity.
  - destruct (Z.ltb_spec (findIndex (fun c => c_time c >=? sp_time sp) candles) 3);
      [reflexivity | lia].
Qed.

Lemma blocksLoop_returns (candles : list Candle) (avgVol : num)
      (timeframe : Timeframe) (sps : list StructurePoint) :
  returns (blocksLoop candles avgVol timeframe sps).
Proof.
  induction sps as [| sp sps IH]; simpl; [apply returns_Ok |].
  apply returns_bind; [apply blocksOf_returns |]. intros here _.
  apply returns_bind; [exact IH |]. intros; apply returns_Ok.
Qed.

Lemma blocksLoop_few_candles (candles : list Candle) (avgVol : num)
      (timeframe : Timeframe) (sps : list StructurePoint) :
  (length candles < 4)%nat -> blocksLoop candles avgVol timeframe sps = Ok [].
Proof.
  intro H. induction sps as [| sp sps IH]; simpl; [reflexivity |].
  rewrite (blocksOf_few_candles candles avgVol timeframe sp H), IH.
  reflexivity.
Qed.

Lemma mitigationScan_returns (candles : list Candle) (ob : OrderBlock)
      (idxs : list nat) :
  (forall i, In i idxs -> (i < length candles)%nat) ->
  returns (mitigationScan candles ob idxs).
Proof.
  induction idxs as [| i idxs IH]; intro Hidx; simpl.
  - apply returns_Ok.
  - assert (Hi : (i < length candles)%nat) by (apply Hidx; left; reflexivity).
    read_candle candles i.
    destruct (_ && _); [apply returns_Ok |].
    destruct (_ && _); [apply returns_Ok |].
    apply IH. intros k Hk. apply Hidx. right. exact Hk.
Qed.

Lemma mitigationLoop_returns (candles : list Candle) (blocks : list OrderBlock) :
  returns (mitigationLoop candles blocks).
Proof.
  induction blocks as [| ob blocks IH]; simpl; [apply returns_Ok |].
  apply returns_bind.
  - apply mitigationScan_returns. intros i Hi.
    apply forwardRange_lt in Hi. exact Hi.
  - intros ob' _. apply returns_bind; [exact IH |]. intros; apply returns_Ok.
Qed.

Lemma detectOrderBlocks_returns (candles : list Candle)
      (structurePoints : list StructurePoint) (timeframe : Timeframe) :
  returns (detectOrderBlocks candles structurePoints timeframe).
Proof.
  unfold detectOrderBlocks.
  apply returns_bind; [apply blocksLoop_returns |]. intros blocks _.
  apply returns_bind; [apply mitigationLoop_returns |].
  intros; apply returns_Ok.
Qed.

Lemma detectOrderBlocks_few_candles (candles : list Candle)
      (structurePoints : list StructurePoint) (timeframe : Timeframe) :
  (length candles < 4)%nat ->
  detectOrderBlocks candles structurePoints timeframe = Ok [].
Proof.
  intro H. unfold detectOrderBlocks.
  rewrite (blocksLoop_few_candles candles _ timeframe structurePoints H).
  reflexivity.
Qed.

(** ** detectFVGs *)

Lemma gapLoop_returns (candles : list Candle) (timeframe : Timeframe)
      (minSizePercent : num) (idxs : list nat) :
  (forall i, In i idxs -> (i + 1 < length candles)%nat) ->
  returns (gapLoop candles timeframe minSizePercent idxs).
Proof.
  induction idxs as [| i idxs IH]; intro Hidx; simpl.
  - apply returns_Ok.
  - assert (Hi : (i + 1 < length candles)%nat) by (apply Hidx; left; reflexivity).
    read_candle candles (i - 1)%nat.
    read_candle candles i.
    read_candle candles (i + 1)%nat.
    apply returns_bind; [| intros; apply returns_Ok].
    apply IH. intros k Hk. apply Hidx. right. exact Hk.
Qed.

Lemma trackFill_returns (candles : list Candle) (fvg : FairValueGap)
      (idxs : list nat) :
  (forall i, In i idxs -> (i < length candles)%nat) ->
  returns (trackFill candles fvg idxs).
Proof.
  revert fvg. induction idxs as [| i idxs IH]; intros fvg Hidx; simpl.
  - apply returns_Ok.
  - assert (Hi : (i < length candles)%nat) by (apply Hidx; left; reflexivity).
    read_candle candles i.
    destruct (fillStep fvg (candleAt candles i)) as [fvg' stop].
    destruct stop; [apply returns_Ok |].
    apply IH. intros k Hk. apply Hidx. right. exact Hk.
Qed.

Lemma fillLoop_returns (candles : list Candle) (fvgs : list FairValueGap) :
  returns (fillLoop candles fvgs).
Proof.
  induction fvgs as [| fvg fvgs IH]; simpl; [apply returns_Ok |].
  apply returns_bind.
  - apply trackFill_returns. intros i Hi.
    apply forwardRange_lt in Hi. exact Hi.
  - intros fvg' _. apply returns_bind; [exact IH |]. intros; apply returns_Ok.
Qed.

Lemma newGaps_returns (candles : list Candle) (timeframe : Timeframe)
      (minSizePercent : num) :
  returns (newGaps candles timeframe minSizePercent).
Proof.
  apply gapLoop_returns. intros i Hi. apply in_seq in Hi. lia.
Qed.

Lemma detectFVGs_returns (candles : list Candle) (timeframe : Timeframe)
      (minSizePercent : num) :
  returns (detectFVGs candles timeframe minSizePercent).
Proof.
  unfold detectFVGs.
  apply returns_bind; [apply newGaps_returns |].
  intros fvgs _. apply fillLoop_returns.
Qed.

Lemma detectFVGs_few_candles (candles : list Candle) (timeframe : Timeframe)
      (minSizePercent : num) :
  (length candles < 3)%nat ->
  detectFVGs candles timeframe minSizePercent = Ok [].
Proof.
  intro H. unfold detectFVGs, newGaps.
  replace (length candles - 1 - 1)%nat with 0%nat by lia. reflexivity.
Qed.

(** ** detectLiquiditySweeps *)

Lemma countTests_returns (candles : list Candle) (swing : SwingPoint)
      (idxs : list nat) :
  (forall i, In i idxs -> (i < length candles)%nat) ->
  returns (countTests candles swing idxs).
Proof.
  induction idxs as [| i idxs IH]; intro Hidx; simpl.
  - apply returns_Ok.
  - assert (Hi : (i < length candles)%nat) by (apply Hidx; left; reflexivity).
    read_candle candles i.
    apply returns_bind; [| intros; apply returns_Ok].
    apply IH. intros k Hk. apply Hidx. right. exact Hk.
Qed.

Lemma sweepScan_returns (candles : list Candle) (swing : SwingPoint)
      (level : LiquidityLevel) (idxs : list nat) :
  (forall i, In i idxs -> (i < length candles)%nat) ->
  returns (sweepScan candles swing level idxs).
Proof.
  induction idxs as [| i idxs IH]; intro Hidx; simpl.
  - apply returns_Ok.
  - assert (Hi : (i < length candles)%nat) by (apply Hidx; left; reflexivity).
    read_candle candles i.
    destruct (_ && _); [apply returns_Ok |].
    destruct (_ && _); [apply returns_Ok |].
    apply IH. intros k Hk. apply Hidx. right. exact Hk.
Qed.

Lemma levelsLoop_returns (candles : list Candle) (timeframe : Timeframe)
      (swings : list SwingPoint) :
  returns (levelsLoop candles timeframe swings).
Proof.
  induction swings as [| swing swings IH]; simpl; [apply returns_Ok |].
  apply returns_bind.
  - unfold levelOf. apply returns_bind.
    + apply countTests_returns. intros i Hi.
      apply forwardRange_lt in Hi. exact Hi.
    + intros testCount _. apply sweepScan_returns. intros i Hi.
      apply forwardRange_lt in Hi. exact Hi.
  - intros level _. apply returns_bind; [exact IH |]. intros; apply returns_Ok.
Qed.

Lemma detectSwings_returns (candles : list Candle) (leftLen rightLen : nat) :
  returns (detectSwings candles leftLen rightLen).
Proof. rewrite detectSwings_closed. apply returns_Ok. Qed.

Lemma detectSwings_few_candles (candles : list Candle) (leftLen rightLen : nat) :
  (length candles < leftLen + rightLen + 1)%nat ->
  detectSwings candles leftLen rightLen = Ok [].
Proof.
  intro H. rewrite detectSwings_closed.
  replace (length candles - rightLen - leftLen)%nat with 0%nat by lia.
  reflexivity.
Qed.

Lemma detectLiquiditySweeps_returns (candles : list Candle)
      (timeframe : Timeframe) (leftLen rightLen : nat) :
  returns (detectLiquiditySweeps candles timeframe leftLen rightLen).
Proof.
  unfold detectLiquiditySweeps.
  apply returns_bind; [apply detectSwings_returns |].
  intros swings _. apply levelsLoop_returns.
Qed.

Lemma detectLiquiditySweeps_few_candles (candles : list Candle)
      (timeframe : Timeframe) (leftLen rightLen : nat) :
  (length candles < leftLen + rightLen + 1)%nat ->
  detectLiquiditySweeps candles timeframe leftLen rightLen = Ok [].
Proof.
  intro H. unfold detectLiquiditySweeps.
  rewrite (detectSwings_few_candles candles leftLen rightLen H). reflexivity.
Qed.

(** ** detectSweepFVGSetups *)

Lemma displacementLoop_returns (candles : list Candle) (level : LiquidityLevel)
      (fvgMinSizePct : num) (idxs : list nat) :
  (forall i, In i idxs -> (i + 1 < length candles)%nat) ->
  returns (displacementLoop candles level fvgMinSizePct idxs).
Proof.
  induction idxs as [| i idxs IH]; intro Hidx; simpl.
  - apply returns_Ok.
  - assert (Hi : (i + 1 < length candles)%nat) by (apply Hidx; left; reflexivity).
    read_candle candles (i - 1)%nat.
    read_candle candles i.
    read_candle candles (i + 1)%nat.
    apply returns_bind; [| intros; apply returns_Ok].
    apply IH. intros k Hk. apply Hidx. right. exact Hk.
Qed.

Lemma setupsOf_returns (candles : list Candle) (fvgMinSizePct : num)
      (level : LiquidityLevel) :
  returns (setupsOf candles fvgMinSizePct level).
Proof.
  unfold setupsOf. destruct (_ || _); [apply returns_Ok |].
  apply displacementLoop_returns. intros i Hi.
  unfold displacementRange in Hi. apply in_seq in Hi. lia.
Qed.

Lemma setupsOf_few_candles (candles : list Candle) (fvgMinSizePct : num)
      (level : LiquidityLevel) :
  (length candles < 3)%nat -> setupsOf candles fvgMinSizePct level = Ok [].
Proof.
  intro H. unfold setupsOf.
  match goal with
  | |- (if (?a <? 1)%Z || _ then _ else _) = _ =>
      destruct (Z.ltb_spec a 1) as [E1 | E1]; [reflexivity |];
      destruct (Z.geb_spec a (Z.of_nat (length candles) - 2)) as [E2 | E2];
      [reflexivity | lia]
  end.
Qed.

Lemma setupsLoop_returns (candles : list Candle) (fvgMinSizePct : num)
      (levels : list LiquidityLevel) :
  returns (setupsLoop candles fvgMinSizePct levels).
Proof.
  induction levels as [| level levels IH]; simpl; [apply returns_Ok |].
  apply returns_bind; [apply setupsOf_returns |]. intros here _.
  apply returns_bind; [exact IH |]. intros; apply returns_Ok.
Qed.

Lemma setupsLoop_few_candles (candles : list Candle) (fvgMinSizePct : num)
      (levels : list LiquidityLevel) :
  (length candles < 3)%nat -> setupsLoop candles fvgMinSizePct levels = Ok [].
Proof.
  intro H. induction levels as [| level levels IH]; simpl; [reflexivity |].
  rewrite (setupsOf_few_candles candles fvgMinSizePct level H), IH.
  reflexivity.
Qed.

Lemma detectSweepFVGSetups_returns (candles : list Candle)
      (levels : list LiquidityLevel) (fvgMinSizePct : num) :
  returns (detectSweepFVGSetups candles levels fvgMinSizePct).
Proof.
  unfold detectSweepFVGSetups.
  apply returns_bind; [apply setupsLoop_returns |]. intros; apply returns_Ok.
Qed.

Lemma detectSweepFVGSetups_few_candles (candles : list Candle)
      (levels : list LiquidityLevel) (fvgMinSizePct : num) :
  (length candles < 3)%nat ->
  detectSweepFVGSetups candles levels fvgMinSizePct = Ok [].
Proof.
  intro H. unfold detectSweepFVGSetups.
  rewrite (setupsLoop_few_candles candles fvgMinSizePct _ H). reflexivity.
Qed.

(** ** runBacktest *)

Lemma resolveScan_returns (candles : list Candle) (direction : TradeDirection)
      (sl tp1 tp2 : num) (js : list nat) :
  (forall j, In j js -> (j < length candles)%nat) ->
  returns (resolveScan candles direction sl tp1 tp2 js).
Proof.
  induction js as [| j js IH]; intro Hjs; simpl.
  - apply returns_Ok.
  - assert (Hj : (j < length candles)%nat) by (apply Hjs; left; reflexivity).
    read_candle candles j.
    assert (Hrest : returns (resolveScan candles direction sl tp1 tp2 js))
      by (apply IH; intros k Hk; apply Hjs; right; exact Hk).
    destruct direction;
      repeat match goal with
             | |- returns (if ?b then _ else _) => destruct b
             end; try apply returns_Ok; exact Hrest.
Qed.

Lemma resolveOutcome_returns (candles : list Candle) (i : nat)
      (direction : TradeDirection) (sl tp1 tp2 : num) :
  returns (resolveOutcome candles i direction sl tp1 tp2).
Proof.
  apply resolveScan_returns. intros j Hj.
  unfold outcomeRange in Hj. apply in_seq in Hj. lia.
Qed.

Section BacktestReturns.

Variable getHours getMinutes getTimezoneOffset : num -> num.

Local Abbreviation evaluateAt' :=
  (evaluateAt getHours getMinutes getTimezoneOffset).
Local Abbreviation backtestLoop' :=
  (backtestLoop getHours getMinutes getTimezoneOffset).
Local Abbreviation backtestRun' :=
  (backtestRun getHours getMinutes getTimezoneOffset).
Local Abbreviation runBacktest' :=
  (runBacktest getHours getMinutes getTimezoneOffset).

Lemma evaluateAt_returns (candles : list Candle) (config : BacktestConfig)
      (i : nat) (balance : num) :
  (i < length candles)%nat ->
  returns (evaluateAt' candles config i balance).
Proof.
  intro Hi. unfold evaluateAt.
  assert (Hlen : length (firstn (i + 1) candles) = (i + 1)%nat)
    by (rewrite length_firstn; lia).
  rewrite Hlen.
  rewrite (get_lt (firstn (i + 1) candles) (i + 1 - 1) undefinedCandle) by lia.
  cbn [bind].
  destruct (getActiveKillzone _ _ _) as [kz |]; [| apply returns_Ok].
  destruct (negb _); [apply returns_Ok |].
  apply returns_bind; [apply detectSwings_returns |]. intros swings _.
  apply returns_bind; [apply detectMarketStructure_returns |].
  intros structure _.
  apply returns_bind; [apply detectOrderBlocks_returns |]. intros obs _.
  apply returns_bind; [apply detectFVGs_returns |]. intros fvgs _.
  apply returns_bind; [apply detectLiquiditySweeps_returns |].
  intros levels _.
  apply returns_bind; [apply detectSweepFVGSetups_returns |].
  intros setups _.
  destruct setups as [| setup setups]; [apply returns_Ok |].
  cbv zeta.
  destruct (_ <? Fin 2); [apply returns_Ok |].
  destruct (co_grade _); try apply returns_Ok;
    (apply returns_bind; [apply resolveOutcome_returns |]);
    intros; apply returns_Ok.
Qed.

Lemma backtestLoop_returns (candles : list Candle) (config : BacktestConfig)
      (idxs : list nat) (skip : nat) (st : Run) :
  (forall i, In i idxs -> (i < length candles)%nat) ->
  returns (backtestLoop' candles config idxs skip st).
Proof.
  revert skip st. induction idxs as [| i idxs IH]; intros skip st Hidx.
  - apply returns_Ok.
  - assert (Hrest : forall k, In k idxs -> (k < length candles)%nat)
      by (intros k Hk; apply Hidx; right; exact Hk).
    cbn [backtestLoop].
    destruct skip as [| skip']; [| apply IH, Hrest].
    apply returns_bind.
    + apply evaluateAt_returns. apply Hidx. left. reflexivity.
    + intros ev _. destruct ev; apply IH, Hrest.
Qed.

(** With at least 100 candles the backtest runs to the end. *)
Lemma runBacktest_returns (candles : list Candle) (config : BacktestConfig) :
  (100 <= length candles)%nat -> returns (runBacktest' candles config).
Proof.
  intro H. unfold runBacktest, backtestRun.
  apply Nat.ltb_ge in H. rewrite H.
  apply returns_bind; [| intros; apply returns_Ok].
  apply backtestLoop_returns. intros i Hi. apply in_seq in Hi. lia.
Qed.

Lemma runBacktest_refuses (candles : list Candle) (config : BacktestConfig) :
  (length candles < 100)%nat ->
  runBacktest' candles config = Throw (Error notEnoughCandles).
Proof.
  intro H. unfold runBacktest, backtestRun.
  apply Nat.ltb_lt in H. rewrite H. reflexivity.
Qed.

End BacktestReturns.

(** C7.  On insufficient data only the backtest fails hard: it raises when
    given fewer than 100 candles (and runs to the end otherwise), while every
    detector returns for every input, with an empty result or none when the
    data are too few: [detectSwings] and [detectLiquiditySweeps] below
    [leftLen + rightLen + 1] candles, [detectMarketStructure] below four
    swings, [calcPDArray] when there is no HIGH or no LOW swing,
    [detectOrderBlocks] below four candles, [detectFVGs] and
    [detectSweepFVGSetups] below three. *)
Theorem insufficient_data_handling :
  (forall getHours getMinutes getTimezoneOffset candles config,
      ((length candles < 100)%nat ->
       runBacktest getHours getMinutes getTimezoneOffset candles config
       = Throw (Error notEnoughCandles))
      /\ ((100 <= length candles)%nat ->
          returns (runBacktest getHours getMinutes getTimezoneOffset
                     candles config)))
  /\ (forall candles leftLen rightLen,
         returns (detectSwings candles leftLen rightLen)
         /\ ((length candles < leftLen + rightLen + 1)%nat ->
             detectSwings candles leftLen rightLen = Ok []))
  /\ (forall candles swings,
         returns (detectMarketStructure candles swings)
         /\ ((length swings < 4)%nat ->
             detectMarketStructure candles swings = Ok []))
  /\ (forall swings currentPrice,
         filter isHighSwing swings = [] \/ filter isLowSwing swings = [] ->
         calcPDArray swings currentPrice = None)
  /\ (forall candles structurePoints timeframe,
         returns (detectOrderBlocks candles structurePoints timeframe)
         /\ ((length candles < 4)%nat ->
             detectOrderBlocks candles structurePoints timeframe = Ok []))
  /\ (forall candles timeframe minSizePercent,
         returns (detectFVGs candles timeframe minSizePercent)
         /\ ((length candles < 3)%nat ->
             detectFVGs candles timeframe minSizePercent = Ok []))
  /\ (forall candles timeframe leftLen rightLen,
         returns (detectLiquiditySweeps candles timeframe leftLen rightLen)
         /\ ((length candles < leftLen + rightLen + 1)%nat ->
             detectLiquiditySweeps candles timeframe leftLen rightLen = Ok []))
  /\ (forall candles levels fvgMinSizePct,
         returns (detectSweepFVGSetups candles levels fvgMinSizePct)
         /\ ((length candles < 3)%nat ->
             detectSweepFVGSetups candles levels fvgMinSizePct = Ok [])).
Proof.
  repeat split; intros.
  - apply runBacktest_refuses; assumption.
  - apply runBacktest_returns; assumption.
  - apply detectSwings_returns.
  - apply detectSwings_few_candles; assumption.
  - apply detectMarketStructure_returns.
  - apply detectMarketStructure_few_swings; assumption.
  - apply calcPDArray_none; assumption.
  - apply detectOrderBlocks_returns.
  - apply detectOrderBlocks_few_candles; assumption.
  - apply detectFVGs_returns.
  - apply detectFVGs_few_candles; assumption.
  - apply detectLiquiditySweeps_returns.
  - apply detectLiquiditySweeps_few_candles; assumption.
  - apply detectSweepFVGSetups_returns.
  - apply detectSweepFVGSetups_few_candles; assumption.
Qed.

(** The structure analyzer on the five-candle scenario (one swing only) and
    the backtest on the same five candles. *)
Lemma insufficient_data_handling_witness :
  (length fiveCandles < 100)%nat
  /\ runBacktest (fun _ => Fin 7) (fun _ => n0) (fun _ => n0) fiveCandles
       sampleConfig = Throw (Error notEnoughCandles)
  /\ detectMarketStructure fiveCandles
       [mkSwing 2 (Fin 2) (Fin 15) HIGH] = Ok []
  /\ calcPDArray [mkSwing 2 (Fin 2) (Fin 15) HIGH] (Fin 10) = None.
Proof.
  assert (H100 : (length fiveCandles < 100)%nat) by (simpl; lia).
  destruct insufficient_data_handling as [HB [_ [HS [HP _]]]].
  split; [exact H100 |].
  split; [apply HB; exact H100 |].
  split; [apply HS; simpl; lia |].
  apply HP. right. reflexivity.
Defined.

(* ================================================================== *)
(** * Fair-value gaps: fill tracking *)
(* ================================================================== *)

Lemma pct_range (x d : Q) :
  (0 < d -> 0 <= x <= d -> 0 <= x / d * 100 <= 100)%Q.
Proof.
  intros Hd [H0 H1]. split.
  - apply Qmult_le_0_compat; [| lra].
    apply Qle_shift_div_l; [exact Hd | lra].
  - assert (x / d <= 1)%Q by (apply Qle_shift_div_r; [exact Hd | lra]).
    lra.
Qed.

(** One step on an unfilled, tracked gap and a finite candle. *)
Lemma fillStep_spec (g s : FairValueGap) (c : Candle) :
  freshGap g -> tracks g s -> fvg_filled s = false -> finiteCandle c ->
  let s' := fst (fillStep s c) in
  tracks g s'
  /\ snd (fillStep s c) = fvg_filled s'
  /\ (crosses g c = true -> fvg_filled s' = true)
  /\ (crosses g c = false -> fvg_filled s' = false)
  /\ (reaches g c = true -> crosses g c = false ->
      (fvg_fillPercent s' == Fin (penetrationPct g c))%num)
  /\ (reaches g c = false -> s' = s).
Proof.
  intros [Ht [Hb [Hlt [_ _]]]] [Hty [Htop [Hbot [[p [Hp Hpr]] Hpin]]]] Hnf Hc.
  destruct (finiteCandle_fields c Hc) as [_ [_ [Hh [Hl _]]]].
  unfold fillStep, reaches, crosses, penetrationPct, tracks.
  rewrite Hty, Htop, Hbot, Ht, Hb, Hh, Hl.
  set (t := valQ (fvg_top g)) in *. set (b := valQ (fvg_bottom g)) in *.
  set (lo := valQ (c_low c)). set (hi := valQ (c_high c)).
  assert (Hd : Qeq_bool (t + - b) 0 = false).
  { destruct (Qeq_bool (t + - b) 0) eqn:E; [| reflexivity].
    apply Qeq_bool_iff in E. exfalso. lra. }
  destruct (fvg_type g).
  - (* bullish *)
    destruct (Fin lo <=? Fin t) eqn:Ereach;
      [apply leb_Fin in Ereach | apply leb_Fin_false in Ereach].
    + destruct (Fin lo <=? Fin b) eqn:Ecross;
        [apply leb_Fin in Ecross | apply leb_Fin_false in Ecross].
      * unfold tracks, setFill;
          cbn [fst snd fvg_type fvg_top fvg_bottom fvg_filled fvg_fillPercent].
        repeat split; try assumption; try reflexivity; try discriminate;
          try congruence.
        exists 100%Q. split; [reflexivity | lra].
      * unfold sub, neg, add, min, leb.
        destruct (Qle_bool (t + - lo) (t + - b)) eqn:Em;
          [apply Qle_bool_iff in Em | apply Qle_bool_false in Em];
          [| exfalso; lra].
        unfold div. rewrite Hd. unfold mul, n100.
        unfold tracks, setFill;
          cbn [fst snd fvg_type fvg_top fvg_bottom fvg_filled fvg_fillPercent].
        repeat split; try assumption; try reflexivity; try discriminate;
          try congruence.
        -- eexists. split; [reflexivity |].
           apply pct_range; lra.
        -- intros _ _. unfold same. cbn [valQ]. rewrite Q.min_l by lra.
           unfold Qminus. reflexivity.
    + assert (Ecross : (Fin lo <=? Fin b) = false)
        by (apply leb_Fin_false; lra).
      rewrite Ecross.
      unfold tracks; cbn [fst snd].
      repeat split; try assumption; try reflexivity; try discriminate;
          try congruence.
      * exists p. split; assumption.
  - (* bearish *)
    destruct (Fin hi >=? Fin b) eqn:Ereach;
      [apply geb_Fin in Ereach | apply geb_Fin_false in Ereach].
    + destruct (Fin hi >=? Fin t) eqn:Ecross;
        [apply geb_Fin in Ecross | apply geb_Fin_false in Ecross].
      * unfold tracks, setFill;
          cbn [fst snd fvg_type fvg_top fvg_bottom fvg_filled fvg_fillPercent].
        repeat split; try assumption; try reflexivity; try discriminate;
          try congruence.
        exists 100%Q. split; [reflexivity | lra].
      * unfold sub, neg, add, min, leb.
        destruct (Qle_bool (hi + - b) (t + - b)) eqn:Em;
          [apply Qle_bool_iff in Em | apply Qle_bool_false in Em];
          [| exfalso; lra].
        unfold div. rewrite Hd. unfold mul, n100.
        unfold tracks, setFill;
          cbn [fst snd fvg_type fvg_top fvg_bottom fvg_filled fvg_fillPercent].
        repeat split; try assumption; try reflexivity; try discriminate;
          try congruence.
        -- eexists. split; [reflexivity |].
           apply pct_range; lra.
        -- intros _ _. unfold same. cbn [valQ]. rewrite Q.min_l by lra.
           unfold Qminus. reflexivity.
    + assert (Ecross : (Fin hi >=? Fin t) = false)
        by (apply geb_Fin_false; lra).
      rewrite Ecross.
      unfold tracks; cbn [fst snd].
      repeat split; try assumption; try reflexivity; try discriminate;
          try congruence.
      * exists p. split; assumption.
Qed.

(** ** The gaps [detectFVGs] creates *)

Lemma gapLoop_flat_map (candles : list Candle) (timeframe : Timeframe)
      (minSizePercent : num) (idxs : list nat) :
  (forall i, In i idxs -> (i + 1 < length candles)%nat) ->
  gapLoop candles timeframe minSizePercent idxs
  = Ok (flat_map (gapsAt candles timeframe minSizePercent) idxs).
Proof.
  induction idxs as [| i idxs IH]; intro Hidx; simpl; [reflexivity |].
  assert (Hi : (i + 1 < length candles)%nat) by (apply Hidx; left; reflexivity).
  read_candle candles (i - 1)%nat.
  read_candle candles i.
  read_candle candles (i + 1)%nat.
  rewrite IH by (intros k Hk; apply Hidx; right; exact Hk).
  cbn [bind]. unfold gapsAt. rewrite <- app_assoc. reflexivity.
Qed.

Lemma newGaps_closed (candles : list Candle) (timeframe : Timeframe)
      (minSizePercent : num) :
  newGaps candles timeframe minSizePercent
  = Ok (flat_map (gapsAt candles timeframe minSizePercent)
          (seq 1 (length candles - 1 - 1))).
Proof.
  apply gapLoop_flat_map. intros i Hi. apply in_seq in Hi. lia.
Qed.

Lemma gapsAt_fresh (candles : list Candle) (timeframe : Timeframe)
      (minSizePercent : num) (i : nat) (g : FairValueGap) :
  Forall finiteCandle candles -> (i + 1 < length candles)%nat ->
  In g (gapsAt candles timeframe minSizePercent i) -> freshGap g.
Proof.
  intros HF Hi HIn.
  assert (Hprev : finiteCandle (candleAt candles (i - 1)))
    by (apply finiteCandle_at; [exact HF | lia]).
  assert (Hnext : finiteCandle (candleAt candles (i + 1)))
    by (apply finiteCandle_at; [exact HF | lia]).
  destruct (finiteCandle_fields _ Hprev) as [_ [_ [Hph [Hpl _]]]].
  destruct (finiteCandle_fields _ Hnext) as [_ [_ [Hnh [Hnl _]]]].
  unfold gapsAt in HIn. apply in_app_or in HIn. destruct HIn as [HIn | HIn].
  - unfold bullGap in HIn.
    destruct (_ >? _) eqn:E; [| contradiction].
    destruct (_ >=? _); [| contradiction].
    destruct HIn as [HIn | []]. subst g.
    rewrite Hnl, Hph in E. apply gtb_Fin in E.
    unfold freshGap; cbn [fvg_top fvg_bottom fvg_filled fvg_fillPercent].
    rewrite Hnl, Hph. cbn [valQ]. repeat split; try reflexivity. exact E.
  - unfold bearGap in HIn.
    destruct (_ <? _) eqn:E; [| contradiction].
    destruct (_ >=? _); [| contradiction].
    destruct HIn as [HIn | []]. subst g.
    rewrite Hnh, Hpl in E. apply ltb_Fin in E.
    unfold freshGap; cbn [fvg_top fvg_bottom fvg_filled fvg_fillPercent].
    rewrite Hnh, Hpl. cbn [valQ]. repeat split; try reflexivity. exact E.
Qed.

Lemma newGaps_fresh (candles : list Candle) (timeframe : Timeframe)
      (minSizePercent : num) (g : FairValueGap) :
  Forall finiteCandle candles ->
  In g (flat_map (gapsAt candles timeframe minSizePercent)
          (seq 1 (length candles - 1 - 1))) ->
  freshGap g.
Proof.
  intros HF HIn. apply in_flat_map in HIn. destruct HIn as [i [Hi HIn]].
  apply in_seq in Hi.
  apply (gapsAt_fresh candles timeframe minSizePercent i g HF); [lia | exact HIn].
Qed.

(** ** The scan, candle by candle *)

Lemma fillStep_stop_unfilled (s : FairValueGap) (c : Candle) :
  fvg_filled s = false ->
  snd (fillStep s c) = fvg_filled (fst (fillStep s c)).
Proof.
  intro Hnf. unfold fillStep.
  destruct (fvg_type s);
    repeat match goal with
           | |- context [if ?b then _ else _] => destruct b
           end; cbn [fst snd setFill fvg_filled]; congruence.
Qed.

Lemma trackFill_app (candles : list Candle) (g : FairValueGap)
      (l1 l2 : list nat) :
  fvg_filled g = false ->
  (forall i, In i l1 -> (i < length candles)%nat) ->
  trackFill candles g (l1 ++ l2)
  = (s <- trackFill candles g l1 ;;
     if fvg_filled s then Ok s else trackFill candles s l2).
Proof.
  revert g. induction l1 as [| i l1 IH]; intros g Hnf Hl1.
  - cbn [app trackFill bind]. rewrite Hnf. reflexivity.
  - assert (Hi : (i < length candles)%nat) by (apply Hl1; left; reflexivity).
    cbn [app trackFill].
    read_candle candles i.
    pose proof (fillStep_stop_unfilled g (candleAt candles i) Hnf) as Hstop.
    destruct (fillStep g (candleAt candles i)) as [g' stop].
    cbn [fst snd] in Hstop. subst stop.
    destruct (fvg_filled g') eqn:E.
    + cbn [bind]. rewrite E. reflexivity.
    + apply IH; [exact E |]. intros k Hk. apply Hl1. right. exact Hk.
Qed.

Lemma fillRange_lt (candles : list Candle) (g : FairValueGap) (i : nat) :
  In i (fillRange candles g) -> (i < length candles)%nat.
Proof. apply forwardRange_lt. Qed.

Lemma firstn_lt_range (candles : list Candle) (g : FairValueGap) (k i : nat) :
  In i (firstn k (fillRange candles g)) -> (i < length candles)%nat.
Proof.
  intro H. apply (fillRange_lt candles g).
  rewrite <- (firstn_skipn k (fillRange candles g)).
  apply in_or_app. left. exact H.
Qed.

(** Once filled, the recorded state never changes again. *)
Lemma fillAfter_filled_stable (candles : list Candle) (g s : FairValueGap)
      (k k' : nat) :
  fvg_filled g = false ->
  fillAfter candles g k = Ok s -> fvg_filled s = true -> (k <= k')%nat ->
  fillAfter candles g k' = Ok s.
Proof.
  intros Hnf Hk Hfilled Hle. unfold fillAfter in *.
  rewrite <- (firstn_skipn k (firstn k' (fillRange candles g))).
  rewrite firstn_firstn, (Nat.min_l k k' Hle).
  rewrite trackFill_app; [| exact Hnf | apply firstn_lt_range].
  rewrite Hk. cbn [bind]. rewrite Hfilled. reflexivity.
Qed.

(** While unfilled, scanning one more candle applies [fillStep] to it. *)
Lemma fillAfter_step (candles : list Candle) (g s : FairValueGap) (k : nat) :
  fvg_filled g = false ->
  fillAfter candles g k = Ok s -> fvg_filled s = false ->
  (k < length (fillRange candles g))%nat ->
  fillAfter candles g (S k) = Ok (fst (fillStep s (scanned candles g k))).
Proof.
  intros Hnf Hk Hs Hlt. unfold fillAfter in *.
  assert (Hsplit : firstn (S k) (fillRange candles g)
                   = firstn k (fillRange candles g)
                     ++ [nth k (fillRange candles g) 0%nat]).
  { rewrite <- (firstn_skipn k (firstn (S k) (fillRange candles g))).
    rewrite firstn_firstn, (Nat.min_l k (S k)) by lia.
    f_equal.
    rewrite <- (firstn_skipn k (fillRange candles g)) at 1.
    rewrite firstn_app, length_firstn, (Nat.min_l k _) by lia.
    rewrite firstn_all2 by (rewrite length_firstn; lia).
    rewrite skipn_app, skipn_all2 by (rewrite length_firstn; lia).
    rewrite length_firstn, (Nat.min_l k _) by lia.
    replace (k - k)%nat with 0%nat by lia.
    replace (S k - k)%nat with 1%nat by lia.
    cbn [app skipn].
    destruct (skipn k (fillRange candles g)) as [| x xs] eqn:E.
    - exfalso. assert (length (skipn k (fillRange candles g)) = 0%nat)
        by (rewrite E; reflexivity).
      rewrite length_skipn in H. lia.
    - cbn [firstn]. f_equal.
      rewrite <- (firstn_skipn k (fillRange candles g)) at 1.
      rewrite app_nth2 by (rewrite length_firstn; lia).
      rewrite length_firstn, (Nat.min_l k _) by lia.
      replace (k - k)%nat with 0%nat by lia. rewrite E. reflexivity. }
  rewrite Hsplit.
  rewrite trackFill_app; [| exact Hnf | apply firstn_lt_range].
  rewrite Hk. cbn [bind]. rewrite Hs. cbn [trackFill].
  assert (Hin : (nth k (fillRange candles g) 0 < length candles)%nat)
    by (apply (fillRange_lt candles g), nth_In; exact Hlt).
  rewrite (get_lt candles _ undefinedCandle Hin). cbn [bind].
  fold (candleAt candles (nth k (fillRange candles g) 0%nat)).
  fold (scanned candles g k).
  destruct (fillStep s (scanned candles g k)) as [s' stop].
  destruct stop; reflexivity.
Qed.

Lemma fillAfter_past_end (candles : list Candle) (g : FairValueGap) (k : nat) :
  (length (fillRange candles g) <= k)%nat ->
  fillAfter candles g (S k) = fillAfter candles g k.
Proof.
  intro H. unfold fillAfter. rewrite !firstn_all2 by lia. reflexivity.
Qed.

Lemma tracks_refl (g : FairValueGap) : freshGap g -> tracks g g.
Proof.
  intros [_ [_ [_ [Hnf Hp]]]]. unfold tracks.
  repeat split; try reflexivity.
  - exists 0%Q. split; [exact Hp | lra].
  - intro H. congruence.
Qed.

Lemma fillAfter_tracks (candles : list Candle) (g : FairValueGap) (k : nat) :
  Forall finiteCandle candles -> freshGap g ->
  exists s, fillAfter candles g k = Ok s /\ tracks g s.
Proof.
  intros HF Hg.
  assert (Hnf : fvg_filled g = false) by apply Hg.
  induction k as [| k [s [Hk Ht]]].
  - exists g. split; [reflexivity | apply tracks_refl; exact Hg].
  - destruct (fvg_filled s) eqn:Hs.
    + exists s. split; [| exact Ht].
      apply (fillAfter_filled_stable candles g s k (S k) Hnf Hk Hs). lia.
    + destruct (Nat.lt_ge_cases k (length (fillRange candles g))) as [Hlt | Hge].
      * exists (fst (fillStep s (scanned candles g k))).
        split; [apply fillAfter_step; assumption |].
        apply fillStep_spec; try assumption.
        apply finiteCandle_at; [exact HF |].
        apply (fillRange_lt candles g), nth_In. exact Hlt.
      * exists s. split; [| exact Ht].
        rewrite fillAfter_past_end by exact Hge. exact Hk.
Qed.

Lemma fillLoop_final (candles : list Candle) (gaps : list FairValueGap) :
  exists fvgs,
    fillLoop candles gaps = Ok fvgs
    /\ Forall2 (fun g s =>
                  fillAfter candles g (length (fillRange candles g)) = Ok s)
         gaps fvgs.
Proof.
  induction gaps as [| g gaps [fvgs [Hrun Hall]]]; simpl.
  - exists []. split; [reflexivity | constructor].
  - destruct (trackFill_returns candles g (fillRange candles g)
                (fillRange_lt candles g)) as [s Hs].
    exists (s :: fvgs). rewrite Hs, Hrun. split; [reflexivity |].
    constructor; [| exact Hall].
    unfold fillAfter. rewrite firstn_all. exact Hs.
Qed.

(** C3 (as amended).  On finite candles, for every gap of one
    [detectFVGs] pass and every number [k] of forward candles scanned so
    far: the recorded fill-percent lies in [0, 100]; once [filled] is set the
    fill-percent is exactly 100 and the record never changes again ([filled]
    never reverts); and while the gap is unfilled the next scanned candle
    either crosses the far edge, which sets [filled] and pins the
    fill-percent at 100, or reaches into the gap without crossing, which
    overwrites the fill-percent with that candle's own penetration in
    percent of the gap's height, or stays outside it, which changes nothing.
    The gaps returned are the records after the last scanned candle. *)
Theorem fill_tracking (candles : list Candle) (timeframe : Timeframe)
        (minSizePercent : num) :
  Forall finiteCandle candles ->
  exists gaps fvgs,
    newGaps candles timeframe minSizePercent = Ok gaps
    /\ detectFVGs candles timeframe minSizePercent = Ok fvgs
    /\ Forall2 (fun g s =>
                  fillAfter candles g (length (fillRange candles g)) = Ok s)
         gaps fvgs
    /\ forall g, In g gaps -> forall k, exists s,
         fillAfter candles g k = Ok s
         /\ (exists p, fvg_fillPercent s = Fin p /\ (0 <= p <= 100)%Q)
         /\ (fvg_filled s = true ->
             fvg_fillPercent s = n100
             /\ forall k', (k <= k')%nat -> fillAfter candles g k' = Ok s)
         /\ (fvg_filled s = false ->
             (k < length (fillRange candles g))%nat ->
             exists s',
               fillAfter candles g (S k) = Ok s'
               /\ (crosses g (scanned candles g k) = true ->
                   fvg_filled s' = true /\ fvg_fillPercent s' = n100)
               /\ (reaches g (scanned candles g k) = true ->
                   crosses g (scanned candles g k) = false ->
                   fvg_filled s' = false
                   /\ (fvg_fillPercent s'
                       == Fin (penetrationPct g (scanned candles g k)))%num)
               /\ (reaches g (scanned candles g k) = false -> s' = s)).
Proof.
  intro HF.
  destruct (fillLoop_final candles
              (flat_map (gapsAt candles timeframe minSizePercent)
                 (seq 1 (length candles - 1 - 1)))) as [fvgs [Hrun Hfinal]].
  eexists. exists fvgs.
  split; [apply newGaps_closed |].
  split; [unfold detectFVGs; rewrite newGaps_closed; exact Hrun |].
  split; [exact Hfinal |].
  intros g Hg k.
  pose proof (newGaps_fresh candles timeframe minSizePercent g HF Hg) as Hfresh.
  assert (Hnf : fvg_filled g = false) by apply Hfresh.
  destruct (fillAfter_tracks candles g k HF Hfresh) as [s [Hk Ht]].
  exists s. split; [exact Hk |].
  split; [apply Ht |].
  split.
  - intro Hfilled. split; [apply Ht; exact Hfilled |].
    intros k' Hle.
    apply (fillAfter_filled_stable candles g s k k' Hnf Hk Hfilled Hle).
  - intros Hs Hlt.
    exists (fst (fillStep s (scanned candles g k))).
    split; [apply fillAfter_step; assumption |].
    assert (Hc : finiteCandle (scanned candles g k)).
    { apply finiteCandle_at; [exact HF |].
      apply (fillRange_lt candles g), nth_In. exact Hlt. }
    destruct (fillStep_spec g s (scanned candles g k) Hfresh Ht Hs Hc)
      as [Ht' [_ [Hcross [Hno [Hreach Hout]]]]].
    split; [| split].
    + intro H. split; [apply Hcross; exact H |].
      apply Ht'. apply Hcross. exact H.
    + intros H1 H2. split; [apply Hno; exact H2 | apply Hreach; assumption].
    + exact Hout.
Qed.

Lemma fill_tracking_witness :
  Forall finiteCandle gapCandles
  /\ exists gaps fvgs,
       newGaps gapCandles TF_15m (Fin 0.05) = Ok gaps
       /\ detectFVGs gapCandles TF_15m (Fin 0.05) = Ok fvgs
       /\ Forall2 (fun g s =>
                     fillAfter gapCandles g (length (fillRange gapCandles g))
                     = Ok s) gaps fvgs.
Proof.
  assert (HF : Forall finiteCandle gapCandles) by (repeat constructor).
  split; [exact HF |].
  destruct (fill_tracking gapCandles TF_15m (Fin 0.05) HF)
    as [gaps [fvgs [H1 [H2 [H3 _]]]]].
  exists gaps, fvgs. repeat split; assumption.
Defined.

(** C3 (as stated) fails: the fill-percent is not monotone.  In
    [gapCandles] the one gap is 75% filled after candle 3 and is recorded as
    25% filled after candle 4, which is also what [detectFVGs] returns. *)
Lemma fillPercent_decreases_counterexample :
  exists g s2 s3,
    newGaps gapCandles TF_15m (Fin 0.05) = Ok [g]
    /\ fillAfter gapCandles g 2 = Ok s2
    /\ fillAfter gapCandles g 3 = Ok s3
    /\ (fvg_fillPercent s2 == Fin 75)%num
    /\ (fvg_fillPercent s3 == Fin 25)%num
    /\ (fvg_fillPercent s3 <? fvg_fillPercent s2) = true
    /\ detectFVGs gapCandles TF_15m (Fin 0.05) = Ok [s3].
Proof.
  do 3 eexists.
  split; [vm_compute; reflexivity |].
  split; [vm_compute; reflexivity |].
  split; [vm_compute; reflexivity |].
  repeat split; vm_compute; reflexivity.
Qed.

(* ================================================================== *)
(** * Order-block and breaker-block strength *)
(* ================================================================== *)

(** C2.  The code breaks the claim: run on [blockCandles], the swing and
    structure detectors feed [detectOrderBlocks] one bullish break, and the
    order block it returns has strength 150 (volume term 100 plus move term
    50); the breaker block derived from it has strength 170.  Neither lies
    in [0, 100]. *)
Theorem orderBlock_strength_above_100 :
  exists swings structure ob,
    detectSwings blockCandles 1 1 = Ok swings
    /\ detectMarketStructure blockCandles swings = Ok structure
    /\ detectOrderBlocks blockCandles structure TF_15m = Ok [ob]
    /\ ob_strength ob = Fin 150
    /\ ob_mitigated ob = true
    /\ map ob_strength (detectBreakerBlocks [ob] blockCandles) = [Fin 170]
    /\ (ob_strength ob <=? n100) = false.
Proof.
  do 3 eexists.
  split; [vm_compute; reflexivity |].
  split; [vm_compute; reflexivity |].
  split; [vm_compute; reflexivity |].
  repeat split; vm_compute; reflexivity.
Qed.

(* ================================================================== *)
(** * Divisions and zero denominators *)
(* ================================================================== *)

(** ** pdScore *)



(** ** runCouncil *)


(** ** runRiskAgent *)

Lemma runRiskAgent_score_range (killzone : option Killzone)
      (balance tradesThisSession entryPrice stopLoss tp1 : num)
      (newsInWindow : bool) :
  scoreInRange (ag_score (runRiskAgent killzone balance tradesThisSession
                            entryPrice stopLoss tp1 newsInWindow)).
Proof.
  unfold runRiskAgent.
  destruct (balance <? Fin 30); destruct (tradesThisSession >=? Fin 2);
    cbv zeta iota beta;
    try (exists 0%Q; split; [reflexivity | lra]).
  set (rr := abs (tp1 - entryPrice) / abs (entryPrice - stopLoss)).
  destruct killzone as [kz |];
    [destruct (kz_active kz); [destruct (isNYKZ (kz_name kz));
       destruct (_ <? Fin 15) |] |];
    destruct (rr >=? Fin 3); try destruct (rr >=? Fin 2);
    destruct newsInWindow; destruct (tradesThisSession === n0);
    cbn [ag_score bump fst snd];
    (eexists; split; [vm_compute; reflexivity | split; vm_compute; discriminate]).
Qed.






(* ================================================================== *)
(** * The backtest: outcome resolution and Risk evaluations *)
(* ================================================================== *)

(** ** The outcome as a function of the candles after the entry *)

Lemma resolveScan_firstTrigger (candles : list Candle)
      (direction : TradeDirection) (sl tp1 tp2 : num) (js : list nat) :
  (forall j, In j js -> (j < length candles)%nat) ->
  resolveScan candles direction sl tp1 tp2 js
  = Ok (firstTrigger direction sl tp1 tp2 (map (candleAt candles) js)).
Proof.
  induction js as [| j js IH]; intro Hjs; [reflexivity |].
  assert (Hj : (j < length candles)%nat) by (apply Hjs; left; reflexivity).
  cbn [resolveScan map firstTrigger].
  read_candle candles j.
  rewrite IH by (intros k Hk; apply Hjs; right; exact Hk).
  destruct direction;
    repeat match goal with
           | |- context [if ?b then _ else _] => destruct b
           end; reflexivity.
Qed.

Lemma map_nth_seq {A : Type} (l : list A) (d : A) (a len : nat) :
  (a + len <= length l)%nat ->
  map (fun j => nth j l d) (seq a len) = firstn len (skipn a l).
Proof.
  revert a len. induction l as [| x l IH]; intros a len H.
  - simpl in H. assert (len = 0%nat) by lia. subst len.
    destruct a; reflexivity.
  - destruct a as [| a].
    + destruct len as [| len]; [reflexivity |].
      cbn [seq map nth skipn firstn]. f_equal.
      rewrite <- seq_shift, map_map. cbn [nth].
      rewrite (IH 0%nat len) by (simpl in H; lia). reflexivity.
    + rewrite <- seq_shift, map_map. cbn [nth skipn].
      apply IH. simpl in H. lia.
Qed.

Lemma outcomeRange_candles (candles : list Candle) (i : nat) :
  map (candleAt candles) (outcomeRange candles i)
  = firstn 49 (skipn (i + 1) candles).
Proof.
  unfold outcomeRange, candleAt.
  destruct (Nat.le_gt_cases (i + 1) (length candles)) as [H | H].
  - rewrite map_nth_seq by lia.
    set (len := (Nat.min (i + 50) (length candles) - (i + 1))%nat).
    assert (Hlen : len = Nat.min 49 (length (skipn (i + 1) candles)))
      by (rewrite length_skipn; unfold len; lia).
    rewrite Hlen.
    destruct (Nat.le_gt_cases 49 (length (skipn (i + 1) candles))) as [H1 | H1].
    + rewrite Nat.min_l by exact H1. reflexivity.
    + rewrite Nat.min_r by lia. rewrite !firstn_all2 by lia. reflexivity.
  - replace (Nat.min (i + 50) (length candles) - (i + 1))%nat with 0%nat by lia.
    rewrite skipn_all2 by lia. reflexivity.
Qed.

(** The scan of [runBacktest] reads the 49 candles after the entry index. *)
Lemma resolveOutcome_window (candles : list Candle) (i : nat)
      (direction : TradeDirection) (sl tp1 tp2 : num) :
  resolveOutcome candles i direction sl tp1 tp2
  = Ok (outcomeWithin 49 candles i direction sl tp1 tp2).
Proof.
  unfold resolveOutcome, outcomeWithin.
  rewrite resolveScan_firstTrigger.
  - rewrite outcomeRange_candles. reflexivity.
  - intros j Hj. unfold outcomeRange in Hj. apply in_seq in Hj. lia.
Qed.

(** ** What an evaluation that reaches the agents has done *)

Ltac invert_result H :=
  repeat match type of H with
         | bind ?m _ = Ok _ =>
             let E := fresh "E" in
             destruct m eqn:E; cbn [bind] in H; [| discriminate H]
         | (if ?c then _ else _) = Ok _ =>
             let E := fresh "E" in destruct c eqn:E; try discriminate H
         | match ?x with _ => _ end = Ok _ =>
             let E := fresh "E" in destruct x eqn:E; try discriminate H
         end.

Section BacktestFacts.

Variable getHours getMinutes getTimezoneOffset : num -> num.

Local Abbreviation evaluateAt' :=
  (evaluateAt getHours getMinutes getTimezoneOffset).
Local Abbreviation backtestLoop' :=
  (backtestLoop getHours getMinutes getTimezoneOffset).
Local Abbreviation backtestRun' :=
  (backtestRun getHours getMinutes getTimezoneOffset).
Local Abbreviation runBacktest' :=
  (runBacktest getHours getMinutes getTimezoneOffset).

Lemma evaluateAt_Rejected (candles : list Candle) (config : BacktestConfig)
      (i : nat) (balance : num) (call : RiskCall) :
  evaluateAt' candles config i balance = Ok (Rejected call) ->
  backtestCall balance call.
Proof.
  unfold evaluateAt. intro H. cbv zeta in H.
  invert_result H; try discriminate H;
    injection H as Hcall; subst call; repeat split.
Qed.

Lemma evaluateAt_Taken (candles : list Candle) (config : BacktestConfig)
      (i : nat) (balance : num) (call : RiskCall) (balance' : num)
      (t : Trade) :
  (i < length candles)%nat ->
  evaluateAt' candles config i balance = Ok (Taken call balance' t) ->
  backtestCall balance call /\ resolvedAt candles i t.
Proof.
  intro Hi. unfold evaluateAt. intro H. cbv zeta in H.
  assert (Hlast : get (firstn (i + 1) candles)
                    (length (firstn (i + 1) candles) - 1)
                  = Ok (candleAt candles i)).
  { rewrite length_firstn, Nat.min_l by lia.
    rewrite (get_lt _ _ undefinedCandle) by (rewrite length_firstn; lia).
    unfold candleAt. f_equal.
    replace (i + 1 - 1)%nat with i by lia.
    rewrite <- (firstn_skipn (i + 1) candles) at 2.
    rewrite app_nth1 by (rewrite length_firstn; lia). reflexivity. }
  rewrite Hlast in H. cbn [bind] in H.
  invert_result H; try discriminate H;
    injection H as Hcall Hbal Ht; subst call balance' t;
    (split; [repeat split |]);
    unfold resolvedAt; cbn [tr_status tr_closePrice tr_timestamp tr_direction
                              tr_stopLoss tr_tp1 tr_tp2];
    match goal with
    | E : resolveOutcome _ _ _ _ _ _ = Ok _ |- _ =>
        rewrite resolveOutcome_window in E; injection E as <-
    end; repeat split.
Qed.

Lemma backtestLoop_invariant (candles : list Candle) (config : BacktestConfig)
      (idxs : list nat) (skip : nat) (st st' : Run) :
  (forall i, In i idxs -> (50 <= i < length candles - 5)%nat) ->
  runInvariant candles st ->
  backtestLoop' candles config idxs skip st = Ok st' ->
  runInvariant candles st'.
Proof.
  revert skip st. induction idxs as [| i idxs IH]; intros skip st Hidx Hinv H.
  - injection H as <-. exact Hinv.
  - assert (Hrest : forall k, In k idxs -> (50 <= k < length candles - 5)%nat)
      by (intros k Hk; apply Hidx; right; exact Hk).
    assert (Hi : (50 <= i < length candles - 5)%nat)
      by (apply Hidx; left; reflexivity).
    cbn [backtestLoop] in H.
    destruct skip as [| skip']; [| exact (IH _ _ Hrest Hinv H)].
    destruct (evaluateAt' candles config i (run_balance st)) as [ev |] eqn:Eev;
      cbn [bind] in H; [| discriminate H].
    destruct Hinv as [Htr Hcalls].
    destruct ev as [| call | call balance' t].
    + apply (IH _ _ Hrest (conj Htr Hcalls) H).
    + apply (IH _ _ Hrest) in H; [exact H |].
      split; [exact Htr |]. cbn [run_riskCalls].
      apply Forall_app. split; [exact Hcalls |].
      constructor; [| constructor].
      exists (run_balance st). apply (evaluateAt_Rejected _ _ _ _ _ Eev).
    + apply (IH _ _ Hrest) in H; [exact H |].
      destruct (evaluateAt_Taken candles config i (run_balance st) call
                  balance' t ltac:(lia) Eev) as [Hcall Hres].
      split; cbn [run_trades run_riskCalls].
      * apply Forall_app. split; [exact Htr |].
        constructor; [| constructor]. exists i. split; assumption.
      * apply Forall_app. split; [exact Hcalls |].
        constructor; [| constructor]. exists (run_balance st). exact Hcall.
Qed.

Lemma backtestRun_invariant (candles : list Candle) (config : BacktestConfig)
      (st : Run) :
  backtestRun' candles config = Ok st -> runInvariant candles st.
Proof.
  unfold backtestRun. intro H.
  destruct (Nat.ltb (length candles) 100); [discriminate H |].
  apply (backtestLoop_invariant candles config _ _ _ _) in H; [exact H | |].
  - intros i Hi. apply in_seq in Hi. lia.
  - split; constructor.
Qed.

End BacktestFacts.

(** ** The Risk agent as the backtest calls it *)



(** C6 (as amended).  Every trade a backtest run takes was entered at an
    index [i] of the walk (from 50, before [length - 5]) and is resolved
    over the candles after [i], at most 49 of them (indices [i + 1] to
    [i + 49]): the first of these that reaches target 2, else target 1, else
    the stop (for a LONG: high >= target 2, else high >= target 1, else low
    <= stop; mirrored for a SHORT) decides the status and the exit price,
    and when none triggers the trade is a stop-hit closed at the stop. *)
Theorem backtest_outcome_resolution
        (getHours getMinutes getTimezoneOffset : num -> num)
        (candles : list Candle) (config : BacktestConfig)
        (result : BacktestResult) :
  runBacktest getHours getMinutes getTimezoneOffset candles config = Ok result ->
  Forall (fun t =>
            exists i,
              (50 <= i < length candles - 5)%nat
              /\ tr_timestamp t = c_time (candleAt candles i)
              /\ let future := firstn 49 (skipn (i + 1) candles) in
                 let outcome := firstTrigger (tr_direction t) (tr_stopLoss t)
                                  (tr_tp1 t) (tr_tp2 t) future in
                 tr_status t = fst outcome
                 /\ tr_closePrice t = Some (snd outcome))
    (res_trades result).
Proof.
  unfold runBacktest. intro H.
  destruct (backtestRun getHours getMinutes getTimezoneOffset candles config)
    as [st |] eqn:Erun; cbn [bind] in H; [| discriminate H].
  injection H as <-. cbn [res_trades].
  apply backtestRun_invariant in Erun. destruct Erun as [Htr _].
  eapply Forall_impl; [| exact Htr].
  intros t [i [Hi [Hs [Hc Ht]]]]. exists i.
  split; [exact Hi |]. split; [exact Ht |]. split; assumption.
Qed.


(** ** A run that trades *)

Lemma backtest_outcome_resolution_witness :
  exists result,
    runBacktest at19h at00m noOffset history config4h = Ok result
    /\ map tr_status (res_trades result) = [SL_HIT; TP2_HIT]
    /\ Forall (fun t =>
                 exists i,
                   (50 <= i < length history - 5)%nat
                   /\ tr_timestamp t = c_time (candleAt history i)
                   /\ let future := firstn 49 (skipn (i + 1) history) in
                      let outcome :=
                        firstTrigger (tr_direction t) (tr_stopLoss t)
                          (tr_tp1 t) (tr_tp2 t) future in
                      tr_status t = fst outcome
                      /\ tr_closePrice t = Some (snd outcome))
         (res_trades result).
Proof.
  eexists. split; [vm_compute; reflexivity |].
  split; [reflexivity |].
  apply (backtest_outcome_resolution at19h at00m noOffset history config4h).
  vm_compute. reflexivity.
Defined.

(** C6 (as stated) fails.  The first trade of the run on [history] is
    entered at candle 60, long, with target 2 at 104.014.  None of the 49
    candles after it triggers, so the trade is closed as a stop-hit at the
    stop; the 50th candle after the entry (index 110) reaches target 2, and
    a scan of 50 future candles resolves the trade as a target-2 hit. *)
Lemma outcome_window_counterexample :
  exists result t,
    runBacktest at19h at00m noOffset history config4h = Ok result
    /\ nth_error (res_trades result) 0 = Some t
    /\ tr_timestamp t = c_time (candleAt history 60)
    /\ tr_direction t = LONG
    /\ tr_status t = SL_HIT
    /\ tr_closePrice t = Some (tr_stopLoss t)
    /\ forallb (fun fc => (c_high fc <? tr_tp1 t) && (c_low fc >? tr_stopLoss t))
         (firstn 49 (skipn (60 + 1) history)) = true
    /\ (c_high (candleAt history (60 + 50)) >=? tr_tp2 t) = true
    /\ outcomeWithin 50 history 60 (tr_direction t) (tr_stopLoss t)
         (tr_tp1 t) (tr_tp2 t) = (TP2_HIT, tr_tp2 t).
Proof.
  do 2 eexists. split; [vm_compute; reflexivity |].
  split; [reflexivity |].
  repeat split; vm_compute; reflexivity.
Qed.


(* ================================================================== *)
(** * Sorting *)
(* ================================================================== *)

Section SortFacts.

Context {A : Type}.

Lemma insertBy_perm (cmp : A -> A -> num) (x : A) (l : list A) :
  Permutation (insertBy cmp x l) (x :: l).
Proof.
  induction l as [| y l IH]; cbn [insertBy]; [apply Permutation_refl |].
  destruct (cmp x y >? Fin 0); [| apply Permutation_refl].
  apply perm_trans with (y :: x :: l); [| apply perm_swap].
  apply perm_skip. exact IH.
Qed.

Lemma jsSort_perm (cmp : A -> A -> num) (l : list A) :
  Permutation (jsSort cmp l) l.
Proof.
  induction l as [| x l IH]; [apply Permutation_refl |].
  cbn [jsSort fold_right]. fold (jsSort cmp l).
  apply perm_trans with (x :: jsSort cmp l); [apply insertBy_perm |].
  apply perm_skip. exact IH.
Qed.

(** A list in which no element has to move behind a later one is left as it
    is. *)
Lemma jsSort_sorted_id (cmp : A -> A -> num) (l : list A) :
  StronglySorted (fun a b => (cmp a b >? Fin 0) = false) l ->
  jsSort cmp l = l.
Proof.
  induction 1 as [| x l Hl IH Hx]; [reflexivity |].
  cbn [jsSort fold_right]. fold (jsSort cmp l). rewrite IH.
  destruct l as [| y l']; [reflexivity |].
  cbn [insertBy]. inversion Hx as [| ? ? Hxy _]; subst.
  rewrite Hxy. reflexivity.
Qed.

(** Sorting by a finite key, largest first. *)
Lemma insertBy_desc (key : A -> num) (x : A) (l : list A) :
  isFinite (key x) = true ->
  Forall (fun a => isFinite (key a) = true) l ->
  StronglySorted (fun a b => (valQ (key b) <= valQ (key a))%Q) l ->
  StronglySorted (fun a b => (valQ (key b) <= valQ (key a))%Q)
    (insertBy (fun a b => key b - key a) x l).
Proof.
  intros Hx HF HS. induction HS as [| y l Hl IH Hy]; cbn [insertBy].
  - constructor; constructor.
  - inversion HF as [| ? ? Hfy HF']; subst.
    rewrite (isFinite_Fin _ Hx), (isFinite_Fin _ Hfy).
    destruct (Fin (valQ (key y)) - Fin (valQ (key x)) >? Fin 0) eqn:E.
    + apply gtb_Fin in E.
      constructor; [apply IH; exact HF' |].
      apply Forall_forall. intros z Hz.
      apply (Permutation_in _ (insertBy_perm _ x l)) in Hz.
      destruct Hz as [<- | Hz]; [lra |].
      rewrite Forall_forall in Hy. apply Hy. exact Hz.
    + apply gtb_Fin_false in E.
      constructor; [constructor; assumption |].
      constructor; [lra |].
      eapply Forall_impl; [| exact Hy]. intros z Hz. cbv beta in Hz. lra.
Qed.

Lemma jsSort_desc (key : A -> num) (l : list A) :
  Forall (fun a => isFinite (key a) = true) l ->
  StronglySorted (fun a b => (valQ (key b) <= valQ (key a))%Q)
    (jsSort (fun a b => key b - key a) l).
Proof.
  induction l as [| x l IH]; intro HF; [constructor |].
  inversion HF as [| ? ? Hx HF']; subst.
  cbn [jsSort fold_right]. fold (jsSort (fun a b => key b - key a) l).
  apply insertBy_desc; [exact Hx | | apply IH; exact HF'].
  apply Forall_forall. intros z Hz. apply In_jsSort in Hz.
  rewrite Forall_forall in HF'. apply HF'. exact Hz.
Qed.

Lemma StronglySorted_app (R : A -> A -> Prop) (l1 l2 : list A) :
  StronglySorted R l1 -> StronglySorted R l2 ->
  (forall a b, In a l1 -> In b l2 -> R a b) ->
  StronglySorted R (l1 ++ l2).
Proof.
  intros H1 H2 H12. induction H1 as [| x l1 Hl IH Hx]; [exact H2 |].
  cbn [app]. constructor.
  - apply IH. intros a b Ha Hb. apply H12; [right; exact Ha | exact Hb].
  - apply Forall_app. split; [exact Hx |].
    apply Forall_forall. intros b Hb. apply H12; [left; reflexivity | exact Hb].
Qed.

Lemma StronglySorted_impl (R R' : A -> A -> Prop) (l : list A) :
  (forall a b, R a b -> R' a b) ->
  StronglySorted R l -> StronglySorted R' l.
Proof.
  intros HR. induction 1 as [| x l Hl IH Hx]; constructor; [exact IH |].
  eapply Forall_impl; [| exact Hx]. intros b. apply HR.
Qed.

End SortFacts.

(* ================================================================== *)
(** * More on the swing detector *)
(* ================================================================== *)

Lemma swingsAt_index (candles : list Candle) (leftLen rightLen i : nat)
      (s : SwingPoint) :
  In s (swingsAt candles leftLen rightLen i) ->
  sw_index s = i
  /\ sw_time s = c_time (candleAt candles i)
  /\ sw_price s = match sw_type s with
                  | HIGH => c_high (candleAt candles i)
                  | LOW => c_low (candleAt candles i)
                  end.
Proof.
  unfold swingsAt. intro H. apply in_app_or in H.
  destruct H as [H | H];
    match type of H with
    | In _ (if ?b then _ else _) => destruct b
    end; simpl in H; try contradiction;
    destruct H as [<- | []]; repeat split.
Qed.

Lemma swingsAt_sorted (candles : list Candle) (leftLen rightLen i : nat) :
  StronglySorted (fun a b => (sw_index a <= sw_index b)%nat)
    (swingsAt candles leftLen rightLen i).
Proof.
  unfold swingsAt.
  destruct (unbeaten _ _ _ _); destruct (unbeaten _ _ _ _); cbn [app];
    repeat constructor.
Qed.

Lemma swings_flat_map_sorted (candles : list Candle) (leftLen rightLen : nat)
      (start len : nat) :
  StronglySorted (fun a b => (sw_index a <= sw_index b)%nat)
    (flat_map (swingsAt candles leftLen rightLen) (seq start len)).
Proof.
  revert start. induction len as [| len IH]; intro start; [constructor |].
  cbn [seq flat_map]. apply StronglySorted_app.
  - apply swingsAt_sorted.
  - apply IH.
  - intros a b Ha Hb.
    apply swingsAt_index in Ha. destruct Ha as [Ha _].
    apply in_flat_map in Hb. destruct Hb as [j [Hj Hb]].
    apply swingsAt_index in Hb. destruct Hb as [Hb _].
    apply in_seq in Hj. lia.
Qed.

Lemma byIndexAsc_le (a b : SwingPoint) :
  (sw_index a <= sw_index b)%nat -> (byIndexAsc a b >? Fin 0) = false.
Proof.
  intro H. unfold byIndexAsc, ofNat, ofZ, sub, neg, add.
  apply gtb_Fin_false.
  assert (Hq : (inject_Z (Z.of_nat (sw_index a))
                <= inject_Z (Z.of_nat (sw_index b)))%Q)
    by (rewrite <- Zle_Qle; lia).
  lra.
Qed.

(** The final sort of [detectSwings] changes nothing. *)
Lemma detectSwings_unsorted (candles : list Candle) (leftLen rightLen : nat) :
  detectSwings candles leftLen rightLen
  = Ok (flat_map (swingsAt candles leftLen rightLen)
          (seq leftLen (length candles - rightLen - leftLen))).
Proof.
  rewrite detectSwings_closed. f_equal. apply jsSort_sorted_id.
  eapply StronglySorted_impl; [| apply swings_flat_map_sorted].
  intros a b. apply byIndexAsc_le.
Qed.

(** X1.  [detectSwings] returns its pivots in index order, a HIGH before a
    LOW of the same candle, and each pivot carries the index, the time and
    the high (for a HIGH) or the low (for a LOW) of a candle of the input. *)
Theorem detectSwings_ordered (candles : list Candle) (leftLen rightLen : nat) :
  exists swings,
    detectSwings candles leftLen rightLen = Ok swings
    /\ StronglySorted
         (fun a b => (sw_index a < sw_index b)%nat
                     \/ (sw_index a = sw_index b
                         /\ sw_type a = HIGH /\ sw_type b = LOW)) swings
    /\ Forall (fun s =>
                 (leftLen <= sw_index s)%nat
                 /\ (sw_index s + rightLen < length candles)%nat
                 /\ sw_time s = c_time (candleAt candles (sw_index s))
                 /\ sw_price s = match sw_type s with
                                 | HIGH => c_high (candleAt candles (sw_index s))
                                 | LOW => c_low (candleAt candles (sw_index s))
                                 end) swings.
Proof.
  eexists. split; [apply detectSwings_unsorted |]. split.
  - generalize leftLen at 2 as start.
    generalize (length candles - rightLen - leftLen)%nat as len.
    induction len as [| len IH]; intro start; [constructor |].
    cbn [seq flat_map]. apply StronglySorted_app.
    + unfold swingsAt.
      destruct (unbeaten _ _ _ _); destruct (unbeaten _ _ _ _); cbn [app];
        repeat first
          [ apply SSorted_nil | apply SSorted_cons | apply Forall_nil
          | apply Forall_cons; [right; repeat split |] ].
    + apply IH.
    + intros a b Ha Hb. left.
      apply swingsAt_index in Ha. destruct Ha as [Ha _].
      apply in_flat_map in Hb. destruct Hb as [j [Hj Hb]].
      apply swingsAt_index in Hb. destruct Hb as [Hb _].
      apply in_seq in Hj. lia.
  - apply Forall_forall. intros s Hs.
    apply in_flat_map in Hs. destruct Hs as [i [Hi Hs]].
    apply swingRange_spec in Hi.
    apply swingsAt_index in Hs. destruct Hs as [Hidx [Ht Hp]].
    rewrite Hidx. repeat split; try assumption; apply Hi.
Qed.


(* ================================================================== *)
(** * Liquidity levels *)
(* ================================================================== *)

Lemma forwardRange_candles (candles : list Candle) (from : nat) :
  map (candleAt candles) (forwardRange candles from) = skipn from candles.
Proof.
  unfold forwardRange, candleAt.
  destruct (Nat.le_gt_cases from (length candles)) as [H | H].
  - rewrite map_nth_seq by lia.
    apply firstn_all2. rewrite length_skipn. lia.
  - replace (length candles - from)%nat with 0%nat by lia.
    rewrite skipn_all2 by lia. reflexivity.
Qed.

Lemma countTests_closed (candles : list Candle) (swing : SwingPoint)
      (idxs : list nat) :
  (forall i, In i idxs -> (i < length candles)%nat) ->
  countTests candles swing idxs
  = Ok (length (filter (inBand swing) (map (candleAt candles) idxs))).
Proof.
  induction idxs as [| i idxs IH]; intro Hidx; [reflexivity |].
  assert (Hi : (i < length candles)%nat) by (apply Hidx; left; reflexivity).
  cbn [countTests map filter].
  read_candle candles i.
  rewrite IH by (intros k Hk; apply Hidx; right; exact Hk). cbn [bind].
  change ((match sw_type swing with
           | HIGH => c_high (candleAt candles i) / sw_price swing
           | LOW => sw_price swing / c_low (candleAt candles i)
           end >? Fin 0.997)
          && (match sw_type swing with
              | HIGH => c_high (candleAt candles i) / sw_price swing
              | LOW => sw_price swing / c_low (candleAt candles i)
              end <? Fin 1.003))
    with (inBand swing (candleAt candles i)).
  destruct (inBand swing (candleAt candles i)); reflexivity.
Qed.

Lemma sweepScan_closed (candles : list Candle) (swing : SwingPoint)
      (level : LiquidityLevel) (idxs : list nat) :
  (forall i, In i idxs -> (i < length candles)%nat) ->
  sweepScan candles swing level idxs
  = Ok (match find (sweepsThrough swing) (map (candleAt candles) idxs) with
        | Some c => sweepLevel level c
        | None => level
        end).
Proof.
  induction idxs as [| i idxs IH]; intro Hidx; [reflexivity |].
  assert (Hi : (i < length candles)%nat) by (apply Hidx; left; reflexivity).
  cbn [sweepScan map find].
  read_candle candles i.
  rewrite IH by (intros k Hk; apply Hidx; right; exact Hk).
  replace (sweepsThrough swing (candleAt candles i))
    with (match sw_type swing with
          | HIGH => c_high (candleAt candles i) >? sw_price swing
          | LOW => c_low (candleAt candles i) <? sw_price swing
          end) by reflexivity.
  destruct (sw_type swing); cbn [SwingType_eqb andb];
    match goal with
    | |- context [if ?b then _ else _] => destruct b
    end; reflexivity.
Qed.

Lemma level_strength_range (k : nat) :
  exists q, min n100 (Fin 30 + ofNat k * Fin 15) = Fin q /\ (30 <= q <= 100)%Q.
Proof.
  unfold ofNat, ofZ, mul, add, min, n100, leb.
  assert (Hk : (0 <= inject_Z (Z.of_nat k))%Q)
    by (change 0%Q with (inject_Z 0); rewrite <- Zle_Qle; lia).
  destruct (Qle_bool 100 (30 + inject_Z (Z.of_nat k) * 15)) eqn:E.
  - exists 100%Q. split; [reflexivity | lra].
  - apply Qle_bool_false in E. eexists. split; [reflexivity |]. lra.
Qed.

Lemma levelOf_closed (candles : list Candle) (timeframe : Timeframe)
      (swing : SwingPoint) :
  levelOf candles timeframe swing
  = Ok (let base :=
          mkLevel (id_liq timeframe (sw_type swing) (sw_time swing))
            (sw_price swing) (sw_time swing) (sw_type swing) ACTIVE None None
            (min n100
               (Fin 30
                + ofNat (length (filter (inBand swing)
                                   (candlesAfter candles (sw_index swing))))
                  * Fin 15)) timeframe in
        match find (sweepsThrough swing)
                (candlesAfter candles (sw_index swing)) with
        | Some c => sweepLevel base c
        | None => base
        end).
Proof.
  unfold levelOf, candlesAfter.
  rewrite countTests_closed by apply forwardRange_lt. cbn [bind].
  rewrite sweepScan_closed by apply forwardRange_lt.
  rewrite forwardRange_candles. reflexivity.
Qed.

(** X2.  [detectLiquiditySweeps] returns one level per swing of
    [detectSwings], in the same order, at the swing's price, time and kind.
    Its strength is [min(100, 30 + 15 k)] for the number [k] of later candles
    that come within 0.3% of the price, so it lies in [30, 100].  The level
    is SWEPT exactly when some later candle trades through the price, and
    then its sweep candle is the first such candle; otherwise it is ACTIVE
    with no sweep time and no sweep candle. *)
Theorem detectLiquiditySweeps_levels (candles : list Candle)
        (timeframe : Timeframe) (leftLen rightLen : nat) :
  exists swings levels,
    detectSwings candles leftLen rightLen = Ok swings
    /\ detectLiquiditySweeps candles timeframe leftLen rightLen = Ok levels
    /\ Forall2
         (fun swing level =>
            lv_price level = sw_price swing
            /\ lv_time level = sw_time swing
            /\ lv_type level = sw_type swing
            /\ lv_timeframe level = timeframe
            /\ lv_strength level
               = min n100
                   (Fin 30
                    + ofNat (length (filter (inBand swing)
                                       (candlesAfter candles (sw_index swing))))
                      * Fin 15)
            /\ (exists q, lv_strength level = Fin q /\ (30 <= q <= 100)%Q)
            /\ match find (sweepsThrough swing)
                       (candlesAfter candles (sw_index swing)) with
               | Some c => lv_status level = SWEPT
                           /\ lv_sweepCandle level = Some c
                           /\ lv_sweepTime level = Some (c_time c)
               | None => lv_status level = ACTIVE
                         /\ lv_sweepCandle level = None
                         /\ lv_sweepTime level = None
               end)
         swings levels.
Proof.
  destruct (detectSwings_returns candles leftLen rightLen) as [swings Hsw].
  exists swings.
  unfold detectLiquiditySweeps. rewrite Hsw. cbn [bind]. clear Hsw.
  induction swings as [| swing swings [levels [_ [Hrun Hall]]]].
  - exists []. repeat split; constructor.
  - cbn [levelsLoop]. rewrite levelOf_closed, Hrun. cbn [bind].
    eexists. split; [reflexivity |]. split; [reflexivity |].
    constructor; [| exact Hall].
    cbv zeta.
    destruct (find (sweepsThrough swing)
                (candlesAfter candles (sw_index swing))) as [c |];
      cbn [sweepLevel lv_price lv_time lv_type lv_timeframe lv_strength
             lv_status lv_sweepCandle lv_sweepTime];
      repeat split; apply level_strength_range.
Qed.

(* ================================================================== *)
(** * Sweep and gap setups, liquidity magnets *)
(* ================================================================== *)

Section NumBounds.

Local Open Scope Q_scope.

Lemma min_cap (c : Q) (x : num) :
  x <> NaN -> x <> NegInf ->
  exists q, min (Fin c) x = Fin q /\ q <= c.
Proof.
  intros Hnan Hneg. destruct x as [| | y |]; try congruence.
  - unfold min, leb. destruct (Qle_bool c y) eqn:E.
    + exists c. split; [reflexivity | lra].
    + apply Qle_bool_false in E. exists y. split; [reflexivity | lra].
  - exists c. split; [reflexivity | lra].
Qed.

Lemma min_cap_Fin (c y : Q) :
  exists q, min (Fin c) (Fin y) = Fin q /\ q <= c /\ q <= y
            /\ (q == c \/ q == y).
Proof.
  unfold min, leb. destruct (Qle_bool c y) eqn:E.
  - apply Qle_bool_iff in E. exists c. repeat split; lra.
  - apply Qle_bool_false in E. exists y. repeat split; lra.
Qed.

Lemma max_floor_Fin (c y : Q) :
  exists q, max (Fin c) (Fin y) = Fin q /\ c <= q /\ y <= q
            /\ (q == c \/ q == y).
Proof.
  unfold max, leb. destruct (Qle_bool c y) eqn:E.
  - apply Qle_bool_iff in E. exists y. repeat split; lra.
  - apply Qle_bool_false in E. exists c. repeat split; lra.
Qed.

(** [a - b > 0] only when [b < a]. *)
Lemma sub_pos_ltb (a b : num) :
  (a - b >? n0)%num = true -> (b <? a)%num = true.
Proof.
  destruct a as [| | x |], b as [| | y |]; cbn; try discriminate;
    try reflexivity.
  intro H. apply Qlt_bool_iff in H. apply Qlt_bool_iff. lra.
Qed.

(** A ratio above a positive constant is a positive number or +Infinity. *)
Lemma gtb_pos_cases (x : num) (c : Q) :
  (x >? Fin c)%num = true -> x = PosInf \/ exists q, x = Fin q /\ c < q.
Proof.
  destruct x as [| | q |]; cbn; try discriminate.
  - intro H. apply Qlt_bool_iff in H. right. exists q. split; [reflexivity | exact H].
  - intros _. left. reflexivity.
Qed.

Lemma geb_Fin_cases (x : num) (c : Q) :
  (x >=? Fin c)%num = true -> x = PosInf \/ exists q, x = Fin q /\ c <= q.
Proof.
  destruct x as [| | q |]; cbn; try discriminate.
  - intro H. apply Qle_bool_iff in H. right. exists q. split; [reflexivity | exact H].
  - intros _. left. reflexivity.
Qed.

End NumBounds.

Lemma displacementRange_spec (candles : list Candle) (idx i : nat) :
  In i (displacementRange candles idx) ->
  (idx < i <= idx + 5 /\ i + 1 < length candles)%nat.
Proof. unfold displacementRange. rewrite in_seq. lia. Qed.

Lemma displacementLoop_closed (candles : list Candle) (level : LiquidityLevel)
      (fvgMinSizePct : num) (idxs : list nat) :
  (forall i, In i idxs -> (1 <= i /\ i + 1 < length candles)%nat) ->
  displacementLoop candles level fvgMinSizePct idxs
  = Ok (flat_map
          (fun i => setupAt level fvgMinSizePct (candleAt candles (i - 1))
                      (candleAt candles i) (candleAt candles (i + 1)))
          idxs).
Proof.
  induction idxs as [| i idxs IH]; intro Hidx; [reflexivity |].
  assert (Hi : (1 <= i /\ i + 1 < length candles)%nat)
    by (apply Hidx; left; reflexivity).
  cbn [displacementLoop flat_map].
  read_candle candles (i - 1)%nat. read_candle candles i.
  read_candle candles (i + 1)%nat.
  rewrite IH by (intros k Hk; apply Hidx; right; exact Hk).
  reflexivity.
Qed.

Lemma setupsOf_closed (candles : list Candle) (fvgMinSizePct : num)
      (level : LiquidityLevel) :
  setupsOf candles fvgMinSizePct level
  = Ok (setupsAround candles fvgMinSizePct level).
Proof.
  unfold setupsOf, setupsAround, sweepIndex.
  destruct ((_ <? 1)%Z || _); [reflexivity |].
  apply displacementLoop_closed.
  intros i Hi. apply displacementRange_spec in Hi. lia.
Qed.

Lemma setupsLoop_closed (candles : list Candle) (fvgMinSizePct : num)
      (levels : list LiquidityLevel) :
  setupsLoop candles fvgMinSizePct levels
  = Ok (flat_map (setupsAround candles fvgMinSizePct) levels).
Proof.
  induction levels as [| level levels IH]; [reflexivity |].
  cbn [setupsLoop flat_map]. rewrite setupsOf_closed, IH. reflexivity.
Qed.

(** What [setupAt] builds from the three candles around a displacement. *)
Lemma setupAt_spec (level : LiquidityLevel) (fvgMinSizePct : num)
      (prev curr next : Candle) (su : SweepFVGSetup) :
  In su (setupAt level fvgMinSizePct prev curr next) ->
  su_sweep su = level
  /\ su_displacementCandle su = curr
  /\ su_fvgEntry su = (su_fvgTop su + su_fvgBottom su) / Fin 2
  /\ (su_fvgBottom su <? su_fvgTop su) = true
  /\ match lv_type level with
     | HIGH => su_direction su = SHORT
               /\ su_stopLoss su = lv_price level * Fin 1.002
               /\ su_fvgTop su = c_low prev
               /\ su_fvgBottom su = c_high next
               /\ (c_close curr <? c_open curr) = true
               /\ su_quality su
                  = calcSetupQuality level
                      ((c_open curr - c_close curr) / c_open curr)
                      ((c_low prev - c_high next) / c_high next * n100)
               /\ ((c_open curr - c_close curr) / c_open curr >? Fin 0.003)
                  = true
               /\ ((c_low prev - c_high next) / c_high next * n100
                   >=? fvgMinSizePct) = true
     | LOW => su_direction su = LONG
              /\ su_stopLoss su = lv_price level * Fin 0.998
              /\ su_fvgTop su = c_low next
              /\ su_fvgBottom su = c_high prev
              /\ (c_close curr >? c_open curr) = true
              /\ su_quality su
                 = calcSetupQuality level
                     ((c_close curr - c_open curr) / c_open curr)
                     ((c_low next - c_high prev) / c_high prev * n100)
              /\ ((c_close curr - c_open curr) / c_open curr >? Fin 0.003)
                 = true
              /\ ((c_low next - c_high prev) / c_high prev * n100
                  >=? fvgMinSizePct) = true
     end.
Proof.
  unfold setupAt. destruct (lv_type level); cbv zeta.
  - destruct (c_open curr - c_close curr >? n0) eqn:Hbody;
      [| intros []].
    destruct ((c_open curr - c_close curr) / c_open curr >? Fin 0.003)
      eqn:Hdisp; [| intros []].
    cbn [andb].
    destruct (c_high next <? c_low prev) eqn:Hgap; [| intros []].
    destruct (_ >=? fvgMinSizePct) eqn:Hsize; [| intros []].
    intros [<- | []]. cbn [su_sweep su_displacementCandle su_fvgEntry
                             su_fvgTop su_fvgBottom su_direction su_stopLoss
                             su_quality].
    repeat split; try assumption.
    apply sub_pos_ltb. exact Hbody.
  - destruct (c_close curr - c_open curr >? n0) eqn:Hbody;
      [| intros []].
    destruct ((c_close curr - c_open curr) / c_open curr >? Fin 0.003)
      eqn:Hdisp; [| intros []].
    cbn [andb].
    destruct (c_low next >? c_high prev) eqn:Hgap; [| intros []].
    destruct (_ >=? fvgMinSizePct) eqn:Hsize; [| intros []].
    intros [<- | []]. cbn [su_sweep su_displacementCandle su_fvgEntry
                             su_fvgTop su_fvgBottom su_direction su_stopLoss
                             su_quality].
    repeat split; try assumption.
    apply sub_pos_ltb. exact Hbody.
Qed.

Lemma calcSetupQuality_range (level : LiquidityLevel)
      (displacementSize fvgSize fvgMinSizePct : num) :
  isFinite (lv_strength level) = true ->
  isFinite fvgMinSizePct = true ->
  (displacementSize >? Fin 0.003) = true ->
  (fvgSize >=? fvgMinSizePct) = true ->
  exists q, calcSetupQuality level displacementSize fvgSize = Fin q
            /\ (q <= 100)%Q.
Proof.
  intros Hs Hm Hd Hf.
  apply isFinite_Fin in Hs. apply isFinite_Fin in Hm.
  unfold calcSetupQuality. cbv zeta. rewrite Hs.
  assert (Ha : exists a, min (Fin 30) (displacementSize * Fin 3000) = Fin a).
  { destruct (gtb_pos_cases _ _ Hd) as [-> | [q [-> _]]].
    - eexists. reflexivity.
    - destruct (min_cap_Fin 30 (q * 3000)) as [a [Ha _]].
      exists a. exact Ha. }
  assert (Hb : exists b, min (Fin 20) (fvgSize * Fin 40) = Fin b).
  { rewrite Hm in Hf.
    destruct (geb_Fin_cases _ _ Hf) as [-> | [q [-> _]]].
    - eexists. reflexivity.
    - destruct (min_cap_Fin 20 (q * 40)) as [b [Hb _]].
      exists b. exact Hb. }
  destruct Ha as [a ->], Hb as [b ->].
  destruct (isSwept (lv_status level)); cbn [mul add round n0];
    match goal with
    | |- exists q, min n100 (Fin ?y) = Fin q /\ _ =>
        destruct (min_cap_Fin 100 y) as [q [Hq [Hle _]]];
        exists q; split; [exact Hq | exact Hle]
    end.
Qed.

(** X3.  Every setup [detectSweepFVGSetups] returns comes from a level of the
    input that is SWEPT; its displacement candle lies one to five candles
    after the first candle that carries the level's sweep time and is bearish for a swept HIGH (a SHORT
    with the stop 0.2% above the level) and bullish for a swept LOW (a LONG
    with the stop 0.2% below); the gap is the space between the candles on
    either side of the displacement candle, with bottom < top, and the entry
    is its midpoint.  When the strengths of the levels and the minimum gap
    size are finite, every quality is a finite number of at most 100 and
    the setups come best first. *)
Theorem detectSweepFVGSetups_setups (candles : list Candle)
        (levels : list LiquidityLevel) (fvgMinSizePct : num)
        (Hstrength : Forall (fun l => isFinite (lv_strength l) = true) levels)
        (Hmin : isFinite fvgMinSizePct = true) :
  exists setups,
    detectSweepFVGSetups candles levels fvgMinSizePct = Ok setups
    /\ StronglySorted
         (fun a b => (valQ (su_quality b) <= valQ (su_quality a))%Q) setups
    /\ Forall
         (fun su =>
            let level := su_sweep su in
            In level levels
            /\ lv_status level = SWEPT
            /\ (exists i,
                   (sweepIndex candles level < Z.of_nat i
                    <= sweepIndex candles level + 5)%Z
                   /\ (1 <= i /\ i + 1 < length candles)%nat
                   /\ su_displacementCandle su = candleAt candles i
                   /\ match lv_type level with
                      | HIGH =>
                          su_fvgTop su = c_low (candleAt candles (i - 1))
                          /\ su_fvgBottom su = c_high (candleAt candles (i + 1))
                      | LOW =>
                          su_fvgTop su = c_low (candleAt candles (i + 1))
                          /\ su_fvgBottom su = c_high (candleAt candles (i - 1))
                      end)
            /\ match lv_type level with
               | HIGH =>
                   su_direction su = SHORT
                   /\ su_stopLoss su = lv_price level * Fin 1.002
                   /\ (c_close (su_displacementCandle su)
                       <? c_open (su_displacementCandle su)) = true
               | LOW =>
                   su_direction su = LONG
                   /\ su_stopLoss su = lv_price level * Fin 0.998
                   /\ (c_close (su_displacementCandle su)
                       >? c_open (su_displacementCandle su)) = true
               end
            /\ (su_fvgBottom su <? su_fvgTop su) = true
            /\ su_fvgEntry su = (su_fvgTop su + su_fvgBottom su) / Fin 2
            /\ exists q, su_quality su = Fin q /\ (q <= 100)%Q)
         setups.
Proof.
  unfold detectSweepFVGSetups. rewrite setupsLoop_closed. cbn [bind].
  eexists. split; [reflexivity |].
  set (swept := filter (fun l => isSwept (lv_status l) && hasSweepCandle l)
                  levels).
  assert (Hall : forall su,
             In su (flat_map (setupsAround candles fvgMinSizePct) swept) ->
             exists level i,
               In level levels /\ lv_status level = SWEPT
               /\ isFinite (lv_strength level) = true
               /\ (sweepIndex candles level < Z.of_nat i
                   <= sweepIndex candles level + 5)%Z
               /\ (1 <= i /\ i + 1 < length candles)%nat
               /\ In su (setupAt level fvgMinSizePct
                           (candleAt candles (i - 1)) (candleAt candles i)
                           (candleAt candles (i + 1)))).
  { intros su Hsu. apply in_flat_map in Hsu as [level [Hlevel Hsu]].
    apply filter_In in Hlevel as [Hin Hswept].
    apply andb_prop in Hswept as [Hswept _].
    unfold setupsAround in Hsu.
    destruct ((sweepIndex candles level <? 1)%Z
              || (sweepIndex candles level
                  >=? Z.of_nat (length candles) - 2)%Z) eqn:Hguard;
      [destruct Hsu |].
    apply orb_false_elim in Hguard as [Hlo Hhi].
    apply Z.ltb_ge in Hlo. rewrite Z.geb_leb in Hhi. apply Z.leb_gt in Hhi.
    apply in_flat_map in Hsu as [i [Hi Hsu]].
    apply displacementRange_spec in Hi.
    exists level, i. repeat split; try assumption; try lia.
    - destruct (lv_status level); [discriminate | reflexivity].
    - rewrite Forall_forall in Hstrength. apply Hstrength. exact Hin. }
  assert (Hquality : forall su,
             In su (flat_map (setupsAround candles fvgMinSizePct) swept) ->
             exists q, su_quality su = Fin q /\ (q <= 100)%Q).
  { intros su Hsu.
    destruct (Hall su Hsu) as [level [i [_ [_ [Hfin [_ [_ Hat]]]]]]].
    apply setupAt_spec in Hat as [_ [_ [_ [_ Hat]]]].
    destruct (lv_type level);
      destruct Hat as [_ [_ [_ [_ [_ [-> [Hd Hf]]]]]]];
      apply (calcSetupQuality_range level _ _ fvgMinSizePct); assumption. }
  split.
  - apply (jsSort_desc su_quality). apply Forall_forall. intros su Hsu.
    destruct (Hquality su Hsu) as [q [-> _]]. reflexivity.
  - apply Forall_forall. intros su Hsu. apply In_jsSort in Hsu.
    pose proof (Hquality su Hsu) as Hq.
    destruct (Hall su Hsu) as [level [i [Hin [Hswept [_ [Hidx [Hi Hat]]]]]]].
    apply setupAt_spec in Hat as [Hlevel [Hcurr [Hentry [Hgap Hat]]]].
    cbv zeta. rewrite Hlevel, Hcurr.
    split; [exact Hin |]. split; [exact Hswept |].
    split.
    { exists i. split; [exact Hidx |]. split; [exact Hi |].
      split; [reflexivity |].
      destruct (lv_type level); destruct Hat as [_ [_ [Ht [Hb _]]]];
        split; assumption. }
    split.
    { destruct (lv_type level); destruct Hat as [Hd [Hs [_ [_ [Hbody _]]]]];
        repeat split; assumption. }
    split; [exact Hgap |]. split; [exact Hentry | exact Hq].
Qed.

Lemma detectSweepFVGSetups_setups_witness :
  Forall (fun l => isFinite (lv_strength l) = true) historyLevels
  /\ isFinite (Fin 0.03) = true
  /\ exists setups,
       detectSweepFVGSetups historySlice historyLevels (Fin 0.03) = Ok setups
       /\ setups <> []
       /\ Forall (fun su => su_direction su = LONG
                            /\ exists q, su_quality su = Fin q /\ (q <= 100)%Q)
            setups.
Proof.
  assert (Hstrength : Forall (fun l => isFinite (lv_strength l) = true)
                        historyLevels)
    by (vm_compute; repeat constructor).
  assert (Hmin : isFinite (Fin 0.03) = true) by reflexivity.
  split; [exact Hstrength |]. split; [exact Hmin |].
  destruct (detectSweepFVGSetups_setups historySlice historyLevels (Fin 0.03)
              Hstrength Hmin) as [setups [Hrun [_ Hall]]].
  exists setups. split; [exact Hrun |].
  assert (Hrun' : exists s rest,
             detectSweepFVGSetups historySlice historyLevels (Fin 0.03)
             = Ok (s :: rest)
             /\ Forall (fun su => lv_type (su_sweep su) = LOW) (s :: rest))
    by (vm_compute; eexists; eexists; split;
        [reflexivity | repeat constructor]).
  destruct Hrun' as [s [rest [Hrun' Hlow]]].
  rewrite Hrun in Hrun'. injection Hrun' as ->.
  split; [discriminate |].
  rewrite Forall_forall in Hall, Hlow. apply Forall_forall. intros su Hsu.
  destruct (Hall su Hsu) as [_ [_ [_ [Hdir [_ [_ Hq]]]]]].
  rewrite (Hlow su Hsu) in Hdir. destruct Hdir as [Hdir _].
  split; [exact Hdir | exact Hq].
Defined.

Lemma TF_WEIGHT_range (tf : Timeframe) :
  exists w, TF_WEIGHT tf = Fin w /\ (0 < w <= 1)%Q.
Proof. destruct tf; eexists; (split; [reflexivity | lra]). Qed.

Lemma magnetOf_range (currentPrice : num) (l : LiquidityLevel) :
  (exists p s, lv_price l = Fin p /\ lv_strength l = Fin s /\ (0 <= s)%Q) ->
  (exists c, currentPrice = Fin c /\ ~ (c == 0)%Q) ->
  scoreInRange (snd (magnetOf currentPrice l)).
Proof.
  intros [p [s [Hp [Hs Hs0]]]] [c [-> Hc]].
  unfold magnetOf. cbv zeta. cbn [snd]. rewrite Hp, Hs.
  destruct (TF_WEIGHT_range (lv_timeframe l)) as [w [-> Hw]].
  unfold n100, n0. cbn [sub neg add abs div mul].
  destruct (Qeq_bool c 0) eqn:E; [apply Qeq_bool_iff in E; contradiction |].
  cbn [mul sub neg add].
  match goal with
  | |- context [max (Fin 0) (Fin ?y)] =>
      destruct (max_floor_Fin 0 y) as [d [-> [Hd _]]]
  end.
  cbn [add].
  match goal with
  | |- context [min (Fin 100) (Fin ?y)] =>
      destruct (min_cap_Fin 100 y) as [r [-> [Hr [_ Hcases]]]]
  end.
  exists r. split; [reflexivity |]. nra.
Qed.

(** X4.  [scoreLiquidityMagnet] ranks exactly the levels that are not swept,
    each once, with the score of [magnetOf].  When the level prices and
    strengths are finite, no strength is negative and the current price is
    finite and not zero, every score lies in [0, 100] and the levels come
    strongest first. *)
Theorem scoreLiquidityMagnet_ranking (levels : list LiquidityLevel)
        (currentPrice : num)
        (Hlevels : Forall (fun l => exists p s,
                               lv_price l = Fin p /\ lv_strength l = Fin s
                               /\ (0 <= s)%Q) levels)
        (Hprice : exists c, currentPrice = Fin c /\ ~ (c == 0)%Q) :
  let magnets := scoreLiquidityMagnet levels currentPrice in
  Permutation (map fst magnets) (activeLevels levels)
  /\ Forall (fun m => lv_status (fst m) = ACTIVE
                      /\ m = magnetOf currentPrice (fst m)
                      /\ scoreInRange (snd m)) magnets
  /\ StronglySorted (fun a b => (valQ (snd b) <= valQ (snd a))%Q) magnets.
Proof.
  cbv zeta. unfold scoreLiquidityMagnet. fold (activeLevels levels).
  assert (Hin : forall m,
             In m (map (magnetOf currentPrice) (activeLevels levels)) ->
             lv_status (fst m) = ACTIVE
             /\ m = magnetOf currentPrice (fst m)
             /\ scoreInRange (snd m)).
  { intros m Hm. apply in_map_iff in Hm as [l [<- Hl]].
    apply filter_In in Hl as [Hl Hactive].
    change (fst (magnetOf currentPrice l)) with l.
    split; [destruct (lv_status l); [reflexivity | discriminate] |].
    split; [reflexivity |].
    apply magnetOf_range; [| exact Hprice].
    rewrite Forall_forall in Hlevels. apply Hlevels. exact Hl. }
  split; [| split].
  - eapply perm_trans; [apply Permutation_map, jsSort_perm |].
    rewrite map_map.
    change (fun x => fst (magnetOf currentPrice x)) with (fun x : LiquidityLevel => x).
    rewrite map_id. apply Permutation_refl.
  - apply Forall_forall. intros m Hm. apply In_jsSort in Hm.
    apply Hin. exact Hm.
  - apply (jsSort_desc (@snd LiquidityLevel num)). apply Forall_forall.
    intros m Hm. destruct (Hin m Hm) as [_ [_ [q [-> _]]]]. reflexivity.
Qed.

Lemma scoreLiquidityMagnet_ranking_witness :
  Forall (fun l => exists p s,
              lv_price l = Fin p /\ lv_strength l = Fin s /\ (0 <= s)%Q)
    historyLevels
  /\ (exists c, Fin 100.3 = Fin c /\ ~ (c == 0)%Q)
  /\ scoreLiquidityMagnet historyLevels (Fin 100.3) <> []
  /\ Forall (fun m => lv_status (fst m) = ACTIVE /\ scoreInRange (snd m))
       (scoreLiquidityMagnet historyLevels (Fin 100.3)).
Proof.
  assert (Hlevels : Forall (fun l => exists p s,
                                lv_price l = Fin p /\ lv_strength l = Fin s
                                /\ (0 <= s)%Q) historyLevels).
  { assert (Hb : forallb (fun l => match lv_price l, lv_strength l with
                                   | Fin _, Fin s => Qle_bool 0 s
                                   | _, _ => false
                                   end) historyLevels = true)
      by (vm_compute; reflexivity).
    revert Hb. generalize historyLevels. intros levels Hb.
    rewrite forallb_forall in Hb. apply Forall_forall. intros l Hl.
    specialize (Hb l Hl).
    destruct (lv_price l) as [| | p |]; try discriminate.
    destruct (lv_strength l) as [| | s |]; try discriminate.
    exists p, s. repeat split. apply Qle_bool_iff. exact Hb. }
  assert (Hprice : exists c, Fin 100.3 = Fin c /\ ~ (c == 0)%Q)
    by (eexists; split; [reflexivity | intro H; discriminate H]).
  split; [exact Hlevels |]. split; [exact Hprice |].
  split; [vm_compute; discriminate |].
  destruct (scoreLiquidityMagnet_ranking historyLevels (Fin 100.3)
              Hlevels Hprice) as [_ [Hall _]].
  eapply Forall_impl; [| exact Hall].
  intros m [Ha [_ Hs]]. split; assumption.
Defined.

(* ================================================================== *)
(** * The agents and the council *)
(* ================================================================== *)

Lemma clamp_range (x : num) : isFinite x = true -> scoreInRange (clamp x).
Proof.
  intro H. apply isFinite_Fin in H. rewrite H. unfold clamp, n0, n100.
  destruct (min_cap_Fin 100 (valQ x)) as [a [-> [Ha _]]].
  destruct (max_floor_Fin 0 a) as [b [-> [Hb [_ Hcases]]]].
  exists b. split; [reflexivity |]. split; [exact Hb |].
  destruct Hcases as [Hc | Hc]; rewrite Hc; lra.
Qed.

Lemma In_lastN {A : Type} (n : nat) (x : A) (l : list A) :
  In x (lastN n l) -> In x l.
Proof.
  unfold lastN. intro H. rewrite <- (firstn_skipn (length l - n) l).
  apply in_or_app. right. exact H.
Qed.

Lemma capped_count_Fin (c k : Q) (n : nat) :
  exists a, min (Fin c) (ofNat n * Fin k) = Fin a.
Proof.
  destruct (min_cap_Fin c (inject_Z (Z.of_nat n) * k)) as [a [Ha _]].
  exists a. exact Ha.
Qed.

(** Every branch of a tally adds a finite constant. *)
Ltac tally_finite :=
  repeat match goal with
         | |- context [if ?b then _ else _] => destruct b
         | |- context [match ?o with Some _ => _ | None => _ end] => destruct o
         end;
  cbn [bump note adjust fst snd add neg isFinite n0]; reflexivity.

Lemma runStructureAgent_score_range (candles : list Candle)
      (structurePoints : list StructurePoint) (direction : TradeDirection) :
  scoreInRange (ag_score (runStructureAgent candles structurePoints direction)).
Proof.
  unfold runStructureAgent. cbv zeta. cbn [ag_score]. apply clamp_range.
  match goal with
  | |- context [min (Fin 40) (ofNat ?n * Fin 12)] =>
      destruct (capped_count_Fin 40 12 n) as [a ->]
  end.
  unfold n0. tally_finite.
Qed.

Lemma runArrayAgent_score_range (orderBlocks : list OrderBlock)
      (fvgs : list FairValueGap) (pdArray : option PDArray)
      (currentPrice : num) (direction : TradeDirection) :
  scoreInRange (ag_score (runArrayAgent orderBlocks fvgs pdArray currentPrice
                            direction)).
Proof.
  unfold runArrayAgent. cbv zeta. cbn [ag_score]. apply clamp_range.
  match goal with
  | |- context [min (Fin 30) (ofNat ?n * Fin 15)] =>
      destruct (capped_count_Fin 30 15 n) as [a ->]
  end.
  unfold n0. tally_finite.
Qed.

Lemma runExecutionAgent_score_range (candles : list Candle)
      (entryPrice stopLoss tp1 tp2 : num) (direction : TradeDirection)
      (fvgMidpoint obEdge : option num) :
  scoreInRange (ag_score (runExecutionAgent candles entryPrice stopLoss tp1 tp2
                            direction fvgMidpoint obEdge)).
Proof.
  unfold runExecutionAgent. cbv zeta. cbn [ag_score]. apply clamp_range.
  unfold n0. tally_finite.
Qed.

Lemma average_strength_Fin (levels : list LiquidityLevel) :
  Forall (fun l => isFinite (lv_strength l) = true) levels ->
  Nat.ltb 0 (length levels) = true ->
  exists a,
    min (Fin 40)
      ((sum (map lv_strength levels) / ofNat (length levels)) * Fin 0.4)
    = Fin a.
Proof.
  intros HF Hlen. apply Nat.ltb_lt in Hlen.
  destruct (sum_Fin (map lv_strength levels)) as [s [-> _]];
    [apply Forall_map; exact HF |].
  unfold ofNat, ofZ, div.
  destruct (Qeq_bool (inject_Z (Z.of_nat (length levels))) 0) eqn:E.
  - apply Qeq_bool_iff in E. exfalso.
    assert (H : (0 < inject_Z (Z.of_nat (length levels)))%Q)
      by (change 0%Q with (inject_Z 0); rewrite <- Zlt_Qlt; lia).
    lra.
  - cbn [mul].
    match goal with
    | |- context [min (Fin 40) (Fin ?y)] =>
        destruct (min_cap_Fin 40 y) as [a [Ha _]]; exists a; exact Ha
    end.
Qed.

Lemma runLiquidityAgent_score_range (levels : list LiquidityLevel)
      (currentPrice : num) (direction : TradeDirection) :
  Forall (fun l => isFinite (lv_strength l) = true) levels ->
  scoreInRange (ag_score (runLiquidityAgent levels currentPrice direction)).
Proof.
  intro HF. unfold runLiquidityAgent. cbv zeta. cbn [ag_score].
  apply clamp_range.
  set (alignedSweeps :=
         filter (fun l => match direction with
                          | LONG => SwingType_eqb (lv_type l) LOW
                          | SHORT => SwingType_eqb (lv_type l) HIGH
                          end)
           (lastN 10 (filter (fun l => isSwept (lv_status l)) levels))).
  assert (HFa : Forall (fun l => isFinite (lv_strength l) = true)
                  alignedSweeps).
  { apply Forall_forall. intros l Hl. unfold alignedSweeps in Hl.
    apply filter_In in Hl as [Hl _].
    apply In_lastN in Hl. apply filter_In in Hl as [Hl _].
    rewrite Forall_forall in HF. apply HF. exact Hl. }
  destruct (Nat.ltb 0 (length alignedSweeps)) eqn:Hlen.
  - destruct (average_strength_Fin alignedSweeps HFa Hlen) as [a ->].
    unfold n0. tally_finite.
  - unfold n0. tally_finite.
Qed.

(** X5.  The five agents always answer within the range the council
    expects: each carries its own name and fixed weight (0.25, 0.25, 0.20,
    0.15, 0.15), and the scores of the Structure, Array, Risk and Execution
    agents are finite numbers of [0, 100] for every input whatever, as is the
    score of the Liquidity agent when the strengths of its levels are
    finite. *)
Theorem agents_scores_in_range
        (candles sliceCandles : list Candle)
        (structurePoints : list StructurePoint)
        (levels : list LiquidityLevel) (orderBlocks : list OrderBlock)
        (fvgs : list FairValueGap) (pdArray : option PDArray)
        (currentPrice : num) (direction : TradeDirection)
        (killzone : option Killzone)
        (balance tradesThisSession entryPrice stopLoss tp1 tp2 : num)
        (newsInWindow : bool) (fvgMidpoint obEdge : option num)
        (Hlevels : Forall (fun l => isFinite (lv_strength l) = true) levels) :
  let agents :=
    [ runStructureAgent candles structurePoints direction;
      runLiquidityAgent levels currentPrice direction;
      runArrayAgent orderBlocks fvgs pdArray currentPrice direction;
      runRiskAgent killzone balance tradesThisSession entryPrice stopLoss tp1
        newsInWindow;
      runExecutionAgent sliceCandles entryPrice stopLoss tp1 tp2 direction
        fvgMidpoint obEdge ] in
  map ag_agent agents = [STRUCTURE; LIQUIDITY; ARRAY; RISK; EXECUTION]
  /\ map ag_weight agents = fixedWeights
  /\ Forall (fun a => scoreInRange (ag_score a)) agents.
Proof.
  cbv zeta.
  assert (Hrisk : ag_agent (runRiskAgent killzone balance tradesThisSession
                              entryPrice stopLoss tp1 newsInWindow) = RISK
                  /\ ag_weight (runRiskAgent killzone balance tradesThisSession
                                  entryPrice stopLoss tp1 newsInWindow)
                     = WEIGHTS.RISK).
  { unfold runRiskAgent.
    destruct (balance <? Fin 30); destruct (tradesThisSession >=? Fin 2);
      split; reflexivity. }
  destruct Hrisk as [Hname Hweight].
  split; [cbn [map]; rewrite Hname; reflexivity |].
  split; [cbn [map]; rewrite Hweight; reflexivity |].
  repeat apply Forall_cons; try apply Forall_nil.
  - apply runStructureAgent_score_range.
  - apply runLiquidityAgent_score_range. exact Hlevels.
  - apply runArrayAgent_score_range.
  - apply runRiskAgent_score_range.
  - apply runExecutionAgent_score_range.
Qed.

Lemma agents_scores_in_range_witness :
  Forall (fun l => isFinite (lv_strength l) = true) historyLevels
  /\ Forall (fun a => scoreInRange (ag_score a))
       [ runStructureAgent historySlice historyStructure LONG;
         runLiquidityAgent historyLevels (Fin 100.3) LONG;
         runArrayAgent [] [] None (Fin 100.3) LONG;
         runRiskAgent (Some activeNYKZ) (Fin 1000) n0 (Fin 100) (Fin 99.4)
           (Fin 102) false;
         runExecutionAgent historySlice (Fin 100) (Fin 99.4) (Fin 102)
           (Fin 104) LONG (Some (Fin 100)) None ].
Proof.
  assert (Hlevels : Forall (fun l => isFinite (lv_strength l) = true)
                      historyLevels)
    by (vm_compute; repeat constructor).
  split; [exact Hlevels |].
  apply (agents_scores_in_range historySlice historySlice historyStructure
           historyLevels [] [] None (Fin 100.3) LONG (Some activeNYKZ)
           (Fin 1000) n0 (Fin 100) (Fin 99.4) (Fin 102) (Fin 104) false
           (Some (Fin 100)) None Hlevels).
Defined.

(** ** The direction vote of the council over the five agents *)

Lemma council_of_aligned_agents (a1 a2 a3 a4 a5 : AgentSignal)
      (direction : TradeDirection) :
  ag_bullish a1 = isLong direction -> ag_bullish a2 = isLong direction ->
  ag_bullish a3 = isLong direction -> ag_bullish a5 = isLong direction ->
  map ag_weight [a1; a2; a3; a4; a5] = fixedWeights ->
  co_direction (runCouncil [a1; a2; a3; a4; a5]) = Some direction.
Proof.
  intros H1 H2 H3 H5 HW. cbn [map] in HW. unfold fixedWeights in HW.
  injection HW as W1 W2 W3 W4 W5.
  unfold runCouncil. cbn [co_direction]. unfold bullishVotes.
  cbn [filter]. rewrite H1, H2, H3, H5.
  destruct direction, (ag_bullish a4); cbn [isLong fold_left];
    rewrite ?W1, ?W2, ?W3, ?W4, ?W5; vm_compute; reflexivity.
Qed.

Lemma runRiskAgent_weight (killzone : option Killzone)
      (balance tradesThisSession entryPrice stopLoss tp1 : num)
      (newsInWindow : bool) :
  ag_weight (runRiskAgent killzone balance tradesThisSession entryPrice
               stopLoss tp1 newsInWindow) = WEIGHTS.RISK.
Proof.
  unfold runRiskAgent.
  destruct (balance <? Fin 30); destruct (tradesThisSession >=? Fin 2);
    reflexivity.
Qed.

(** X6.  Over the five agents of one setup the council's direction is always
    the direction of the setup: the Structure, Liquidity, Array and Execution
    agents vote for the direction they are asked about whatever their score,
    their weights add up to 0.85, and the vote of the Risk agent (0.15)
    cannot move the total across 0.6 or 0.4.  The verdict is never neutral
    and never against the setup. *)
Theorem council_direction_is_setup_direction
        (candles sliceCandles : list Candle)
        (structurePoints : list StructurePoint)
        (levels : list LiquidityLevel) (orderBlocks : list OrderBlock)
        (fvgs : list FairValueGap) (pdArray : option PDArray)
        (currentPrice : num) (direction : TradeDirection)
        (killzone : option Killzone)
        (balance tradesThisSession entryPrice stopLoss tp1 tp2 : num)
        (newsInWindow : bool) (fvgMidpoint obEdge : option num) :
  let agents :=
    [ runStructureAgent candles structurePoints direction;
      runLiquidityAgent levels currentPrice direction;
      runArrayAgent orderBlocks fvgs pdArray currentPrice direction;
      runRiskAgent killzone balance tradesThisSession entryPrice stopLoss tp1
        newsInWindow;
      runExecutionAgent sliceCandles entryPrice stopLoss tp1 tp2 direction
        fvgMidpoint obEdge ] in
  Forall (fun a => ag_agent a <> RISK -> ag_bullish a = isLong direction)
    agents
  /\ co_direction (runCouncil agents) = Some direction.
Proof.
  cbv zeta. split.
  - repeat apply Forall_cons; try apply Forall_nil; intros H;
      try reflexivity.
    exfalso. apply H. unfold runRiskAgent.
    destruct (balance <? Fin 30); destruct (tradesThisSession >=? Fin 2);
      reflexivity.
  - apply council_of_aligned_agents; try reflexivity.
    cbn [map]. rewrite runRiskAgent_weight. reflexivity.
Qed.

(** ** When the Risk agent votes in favour *)

(** X7.  The Risk agent votes in favour (score above 50) only when no hard
    gate blocks (the balance is not below 30 and fewer than two trades were
    taken), a killzone is active and the reward to risk ratio is at least 2;
    its score is then at most 85. *)
Theorem runRiskAgent_votes_in_favour (killzone : option Killzone)
        (balance tradesThisSession entryPrice stopLoss tp1 : num)
        (newsInWindow : bool)
        (Hvote : ag_bullish (runRiskAgent killzone balance tradesThisSession
                               entryPrice stopLoss tp1 newsInWindow) = true) :
  (balance <? Fin 30) = false
  /\ (tradesThisSession >=? Fin 2) = false
  /\ (exists kz, killzone = Some kz /\ kz_active kz = true)
  /\ (rewardRisk entryPrice stopLoss tp1 >=? Fin 2) = true
  /\ (Fin 50 <? ag_score (runRiskAgent killzone balance tradesThisSession
                            entryPrice stopLoss tp1 newsInWindow)) = true
  /\ (ag_score (runRiskAgent killzone balance tradesThisSession entryPrice
                  stopLoss tp1 newsInWindow) <=? Fin 85) = true.
Proof.
  revert Hvote. unfold runRiskAgent, rewardRisk.
  destruct (balance <? Fin 30); destruct (tradesThisSession >=? Fin 2);
    cbv zeta iota beta; cbn [ag_bullish ag_score]; try discriminate.
  set (rr := abs (tp1 - entryPrice) / abs (entryPrice - stopLoss)).
  destruct killzone as [kz |];
    [destruct (kz_active kz) eqn:Hactive;
     [destruct (isNYKZ (kz_name kz)); destruct (_ <? Fin 15) |] |];
    destruct (rr >=? Fin 3) eqn:H3; destruct (rr >=? Fin 2) eqn:H2;
    destruct newsInWindow; destruct (tradesThisSession === n0);
    cbn [ag_bullish ag_score bump fst snd];
    intro Hvote; vm_compute in Hvote; try discriminate Hvote;
    (split; [reflexivity |]); (split; [reflexivity |]);
    (split; [eexists; split; [reflexivity | exact Hactive] |]);
    (split; [first [reflexivity | exfalso; revert H3 H2; clear; intros H3 H2;
                    destruct rr as [| | q |]; cbn in H3, H2;
                    try discriminate;
                    apply Qle_bool_iff in H3; apply Qle_bool_false in H2; lra] |]);
    split; vm_compute; reflexivity.
Qed.

Lemma runRiskAgent_votes_in_favour_witness :
  ag_bullish (runRiskAgent (Some activeNYKZ) (Fin 1000) n0 (Fin 100)
                (Fin 99.4) (Fin 102) false) = true
  /\ (rewardRisk (Fin 100) (Fin 99.4) (Fin 102) >=? Fin 2) = true.
Proof.
  assert (Hvote : ag_bullish (runRiskAgent (Some activeNYKZ) (Fin 1000) n0
                                (Fin 100) (Fin 99.4) (Fin 102) false) = true)
    by (vm_compute; reflexivity).
  split; [exact Hvote |].
  apply (runRiskAgent_votes_in_favour (Some activeNYKZ) (Fin 1000) n0
           (Fin 100) (Fin 99.4) (Fin 102) false Hvote).
Defined.

(* ================================================================== *)
(** * The walk of the backtest *)
(* ================================================================== *)

Section BacktestWalk.

Variable getHours getMinutes getTimezoneOffset : num -> num.

Local Abbreviation evaluateAt' :=
  (evaluateAt getHours getMinutes getTimezoneOffset).
Local Abbreviation backtestLoop' :=
  (backtestLoop getHours getMinutes getTimezoneOffset).
Local Abbreviation backtestRun' :=
  (backtestRun getHours getMinutes getTimezoneOffset).
Local Abbreviation enteredAt' :=
  (enteredAt getHours getMinutes getTimezoneOffset).
Local Abbreviation entriesFrom' :=
  (entriesFrom getHours getMinutes getTimezoneOffset).

Lemma last_of_slice (candles : list Candle) (i : nat) :
  (i < length candles)%nat ->
  get (firstn (i + 1) candles) (length (firstn (i + 1) candles) - 1)
  = Ok (candleAt candles i).
Proof.
  intro Hi. rewrite length_firstn, Nat.min_l by lia.
  rewrite (get_lt _ _ undefinedCandle) by (rewrite length_firstn; lia).
  unfold candleAt. f_equal.
  replace (i + 1 - 1)%nat with i by lia.
  rewrite <- (firstn_skipn (i + 1) candles) at 2.
  rewrite app_nth1 by (rewrite length_firstn; lia). reflexivity.
Qed.

Lemma firstTrigger_status (direction : TradeDirection) (sl tp1 tp2 : num)
      (future : list Candle) :
  let o := firstTrigger direction sl tp1 tp2 future in
  fst o = TP1_HIT \/ fst o = TP2_HIT \/ fst o = SL_HIT.
Proof.
  cbv zeta. induction future as [| fc future IH]; cbn [firstTrigger].
  - right. right. reflexivity.
  - destruct direction;
      repeat match goal with
             | |- context [if ?b then _ else _] => destruct b
             end; cbn [fst]; auto.
Qed.

Lemma firstTrigger_exit (direction : TradeDirection) (sl tp1 tp2 : num)
      (future : list Candle) :
  let o := firstTrigger direction sl tp1 tp2 future in
  snd o = match fst o with
          | TP1_HIT => tp1
          | TP2_HIT => tp2
          | _ => sl
          end.
Proof.
  cbv zeta. induction future as [| fc future IH]; cbn [firstTrigger].
  - reflexivity.
  - destruct direction;
      repeat match goal with
             | |- context [if ?b then _ else _] => destruct b
             end; cbn [fst snd]; auto.
Qed.

Lemma evaluateAt_entered (candles : list Candle) (config : BacktestConfig)
      (i : nat) (balance : num) (call : RiskCall) (balance' : num)
      (t : Trade) :
  (i < length candles)%nat ->
  evaluateAt' candles config i balance = Ok (Taken call balance' t) ->
  enteredAt' candles config i balance t /\ balance' = balance + pnlOf t.
Proof.
  intro Hi. unfold evaluateAt. intro H. cbv zeta in H.
  rewrite (last_of_slice candles i Hi) in H. cbn [bind] in H.
  invert_result H; try discriminate H;
    injection H as Hcall Hbal Ht; subst call balance' t;
    (split; [| reflexivity]);
    unfold enteredAt; cbv zeta;
    cbn [tr_timestamp tr_killzone tr_direction tr_entry tr_stopLoss tr_tp1
           tr_tp2 tr_rr tr_grade tr_council tr_status tr_mode tr_setupType
           tr_pair tr_timeframe tr_riskPercent tr_executedPrice
           tr_positionSize tr_closePrice tr_pnl tr_pnlPercent pnlOf];
    match goal with
    | E : resolveOutcome _ _ _ _ _ _ = Ok _ |- _ =>
        rewrite resolveOutcome_window in E; injection E as <-
    end;
    match goal with
    | E : negb (Nat.eqb (i mod 15) 0) = false |- _ =>
        apply negb_false_iff, Nat.eqb_eq in E
    end;
    match goal with
    | E : co_grade _ = _ |- _ => rewrite E
    end;
    repeat match goal with
           | |- _ /\ _ => split
           end;
    try reflexivity; try assumption; auto.
  all: try (do 6 eexists; do 5 (split; [eassumption |]); reflexivity).
  all: try (eexists; split; [eassumption | reflexivity]).
  all: try (do 3 eexists; split; [eassumption |]; split; [eassumption |];
            repeat split).
  all: try (apply council_of_aligned_agents; try reflexivity;
            cbn [map]; unfold callRisk; rewrite runRiskAgent_weight;
            reflexivity).
  all: try (cbn [co_agents map]; unfold callRisk, runRiskAgent;
            cbn [rc_balance rc_tradesThisSession];
            destruct (balance <? Fin 30); reflexivity).
  all: try apply firstTrigger_status.
  all: try (f_equal; apply firstTrigger_exit).
  all: try (eexists; repeat split).
Qed.

Lemma entriesFrom_earlier (candles : list Candle) (config : BacktestConfig)
      (balance : num) (from from' : nat) (trades : list Trade) :
  (from' <= from)%nat ->
  entriesFrom' candles config balance from trades ->
  entriesFrom' candles config balance from' trades.
Proof.
  intros Hle H. destruct trades as [| t rest]; [exact I |].
  destruct H as [i [Hi [Ht Hrest]]]. exists i.
  split; [lia |]. split; assumption.
Qed.

Lemma balanceAfter_cons (balance : num) (t : Trade) (trades : list Trade) :
  balanceAfter balance (t :: trades) = balanceAfter (balance + pnlOf t) trades.
Proof. reflexivity. Qed.

Lemma backtestLoop_entries (candles : list Candle) (config : BacktestConfig)
      (n a skip : nat) (st st' : Run) :
  (a + n <= length candles - 5)%nat ->
  backtestLoop' candles config (seq a n) skip st = Ok st' ->
  exists entered,
    run_trades st' = run_trades st ++ entered
    /\ entriesFrom' candles config (run_balance st) (a + skip) entered
    /\ run_balance st' = balanceAfter (run_balance st) entered.
Proof.
  revert a skip st. induction n as [| n IH]; intros a skip st Hlen H.
  - injection H as <-. exists []. rewrite app_nil_r. repeat split.
  - cbn [seq backtestLoop] in H.
    destruct skip as [| skip'].
    + destruct (evaluateAt' candles config a (run_balance st)) as [ev |] eqn:Eev;
        cbn [bind] in H; [| discriminate H].
      destruct ev as [| call | call balance' t].
      * destruct (IH (S a) 0%nat st ltac:(lia) H) as [entered [Htr [Hent Hbal]]].
        exists entered. split; [exact Htr |]. split; [| exact Hbal].
        apply (entriesFrom_earlier _ _ _ (S a + 0)); [lia | exact Hent].
      * destruct (IH (S a) 0%nat _ ltac:(lia) H) as [entered [Htr [Hent Hbal]]].
        cbn [run_trades run_balance] in Htr, Hent, Hbal.
        exists entered. split; [exact Htr |]. split; [| exact Hbal].
        apply (entriesFrom_earlier _ _ _ (S a + 0)); [lia | exact Hent].
      * destruct (IH (S a) 20%nat _ ltac:(lia) H) as [entered [Htr [Hent Hbal]]].
        cbn [run_trades run_balance] in Htr, Hent, Hbal.
        destruct (evaluateAt_entered candles config a (run_balance st) call
                    balance' t ltac:(lia) Eev) as [Ht Hb].
        subst balance'.
        exists (t :: entered).
        split; [rewrite Htr, <- app_assoc; reflexivity |].
        split; [| rewrite balanceAfter_cons; exact Hbal].
        cbn [entriesFrom]. exists a. split; [lia |]. split; [exact Ht |].
        replace (a + 21)%nat with (S a + 20)%nat by lia. exact Hent.
    + destruct (IH (S a) skip' st ltac:(lia) H) as [entered [Htr [Hent Hbal]]].
      exists entered. split; [exact Htr |]. split; [| exact Hbal].
      replace (a + S skip')%nat with (S a + skip')%nat by lia. exact Hent.
Qed.

Lemma backtestRun_entries (candles : list Candle) (config : BacktestConfig)
      (st : Run) :
  backtestRun' candles config = Ok st ->
  entriesFrom' candles config (cfg_initialBalance config) 50 (run_trades st)
  /\ run_balance st = balanceAfter (cfg_initialBalance config) (run_trades st).
Proof.
  unfold backtestRun. intro H.
  destruct (Nat.ltb (length candles) 100) eqn:Elen; [discriminate H |].
  apply Nat.ltb_ge in Elen.
  apply backtestLoop_entries in H; [| lia].
  destruct H as [entered [Htr [Hent Hbal]]].
  cbn [run_trades run_balance app] in Htr, Hent, Hbal.
  rewrite Htr. split; [| exact Hbal].
  replace 50%nat with (50 + 0)%nat by lia. exact Hent.
Qed.

Lemma entriesFrom_each (candles : list Candle) (config : BacktestConfig)
      (balance : num) (from : nat) (trades : list Trade) :
  entriesFrom' candles config balance from trades ->
  Forall (fun t => exists i b,
              (from <= i < length candles - 5)%nat
              /\ enteredAt' candles config i b t) trades.
Proof.
  revert balance from. induction trades as [| t rest IH]; intros balance from H;
    [constructor |].
  destruct H as [i [Hi [Ht Hrest]]].
  constructor; [exists i, balance; split; assumption |].
  eapply Forall_impl; [| apply (IH _ _ Hrest)].
  intros t' [i' [b' [Hi' Ht']]]. exists i', b'. split; [lia | exact Ht'].
Qed.

Lemma entriesFrom_nth (candles : list Candle) (config : BacktestConfig)
      (balance : num) (from : nat) (trades : list Trade) (k : nat)
      (t : Trade) :
  entriesFrom' candles config balance from trades ->
  nth_error trades k = Some t ->
  exists i,
    (from <= i < length candles - 5)%nat
    /\ enteredAt' candles config i (balanceAfter balance (firstn k trades)) t.
Proof.
  revert balance from k. induction trades as [| t0 rest IH];
    intros balance from k H Hk; [destruct k; discriminate Hk |].
  destruct H as [i [Hi [Ht Hrest]]].
  destruct k as [| k].
  - injection Hk as <-. exists i. split; [exact Hi | exact Ht].
  - cbn [nth_error] in Hk. cbn [firstn]. rewrite balanceAfter_cons.
    destruct (IH _ _ _ Hrest Hk) as [i' [Hi' Ht']].
    exists i'. split; [lia | exact Ht'].
Qed.

Lemma entriesFrom_indices (candles : list Candle) (config : BacktestConfig)
      (balance : num) (from : nat) (trades : list Trade) :
  entriesFrom' candles config balance from trades ->
  exists idxs,
    map tr_timestamp trades = map (fun i => c_time (candleAt candles i)) idxs
    /\ Forall (fun i => (from <= i < length candles - 5)%nat
                        /\ (i mod 15 = 0)%nat) idxs
    /\ StronglySorted (fun a b => (a + 30 <= b)%nat) idxs.
Proof.
  revert balance from. induction trades as [| t rest IH]; intros balance from H.
  - exists []. repeat split; constructor.
  - destruct H as [i [Hi [Ht Hrest]]].
    destruct (IH _ _ Hrest) as [idxs [Hmap [Hall Hsorted]]].
    exists (i :: idxs). cbn [map].
    destruct Ht as [Hmod [Htime _]].
    split; [rewrite Htime, Hmap; reflexivity |].
    split.
    + constructor; [split; [exact Hi | exact Hmod] |].
      eapply Forall_impl; [| exact Hall]. intros j [Hj Hjm].
      split; [lia | exact Hjm].
    + constructor; [exact Hsorted |].
      eapply Forall_impl; [| exact Hall]. intros j [Hj Hjm].
      apply Nat.Div0.div_exact in Hmod. apply Nat.Div0.div_exact in Hjm. lia.
Qed.

End BacktestWalk.

Lemma div_Fin (x y : Q) : ~ (y == 0)%Q -> Fin x / Fin y = Fin (x / y).
Proof.
  intro Hy. unfold div.
  destruct (Qeq_bool y 0) eqn:E; [| reflexivity].
  apply Qeq_bool_iff in E. contradiction.
Qed.

Lemma firstActive_name (totalMins : num) (defs : list Killzone)
      (kz : Killzone) :
  firstActive totalMins defs = Some kz ->
  kz_active kz = true /\ In (kz_name kz) (map kz_name defs).
Proof.
  induction defs as [| d defs IH]; cbn [firstActive]; [discriminate |].
  cbv zeta.
  destruct ((totalMins >=? kz_startH d * Fin 60 + kz_startM d)
            && (totalMins
                <? min (kz_endH d * Fin 60 + kz_endM d)
                     (Fin 22 * Fin 60 + Fin 5))).
  - intro H. injection H as <-. cbn [kz_active kz_name map].
    split; [reflexivity | left; reflexivity].
  - intro H. destruct (IH H) as [Ha Hn].
    split; [exact Ha | right; exact Hn].
Qed.

Section BacktestTrades.

Variable getHours getMinutes getTimezoneOffset : num -> num.

Local Abbreviation runBacktest' :=
  (runBacktest getHours getMinutes getTimezoneOffset).
Local Abbreviation enteredAt' :=
  (enteredAt getHours getMinutes getTimezoneOffset).

Lemma runBacktest_entries (candles : list Candle) (config : BacktestConfig)
      (result : BacktestResult) :
  runBacktest' candles config = Ok result ->
  entriesFrom getHours getMinutes getTimezoneOffset candles config
    (cfg_initialBalance config) 50 (res_trades result)
  /\ res_config result = config
  /\ res_metrics result = calcMetrics (res_trades result) config.
Proof.
  unfold runBacktest. intro H.
  destruct (backtestRun getHours getMinutes getTimezoneOffset candles config)
    as [st |] eqn:Erun; cbn [bind] in H; [| discriminate H].
  injection H as <-. cbn [res_trades res_config res_metrics].
  apply backtestRun_entries in Erun. destruct Erun as [Hent _].
  repeat split. exact Hent.
Qed.

Lemma runBacktest_kth_trade (candles : list Candle) (config : BacktestConfig)
      (result : BacktestResult) (k : nat) (t : Trade) :
  runBacktest' candles config = Ok result ->
  nth_error (res_trades result) k = Some t ->
  exists i,
    (50 <= i < length candles - 5)%nat
    /\ enteredAt' candles config i
         (balanceAfter (cfg_initialBalance config)
            (firstn k (res_trades result))) t.
Proof.
  intros H Hk. apply runBacktest_entries in H. destruct H as [Hent _].
  apply (entriesFrom_nth _ _ _ _ _ _ _ _ _ _ Hent Hk).
Qed.

End BacktestTrades.

(** X8.  Every trade of a backtest result was approved by the council: its
    grade is A+ or A and is the grade of the council it records, whose five
    agents are Structure, Liquidity, Array, Risk and Execution and whose
    direction is the direction of the trade.  The trade was entered in one
    of the three killzones (never IDLE), passed the reward to risk filter
    (the ratio of the distances to target 1 and to the stop is not below 2),
    is closed (TP1_HIT, TP2_HIT or SL_HIT) at the price that goes with its
    status, and is a simulated LIQUIDITY_SWEEP_FVG trade on the pair and the
    timeframe of the configuration, at its risk per trade. *)
Theorem backtest_trades_approved
        (getHours getMinutes getTimezoneOffset : num -> num)
        (candles : list Candle) (config : BacktestConfig)
        (result : BacktestResult) :
  runBacktest getHours getMinutes getTimezoneOffset candles config = Ok result ->
  Forall (fun t =>
            (tr_grade t = Grade_Aplus \/ tr_grade t = Grade_A)
            /\ tr_grade t = co_grade (tr_council t)
            /\ map ag_agent (co_agents (tr_council t))
               = [STRUCTURE; LIQUIDITY; ARRAY; RISK; EXECUTION]
            /\ co_direction (tr_council t) = Some (tr_direction t)
            /\ (tr_killzone t = AKZ \/ tr_killzone t = LKZ
                \/ tr_killzone t = NYKZ)
            /\ (rewardRisk (tr_entry t) (tr_stopLoss t) (tr_tp1 t) <? Fin 2)
               = false
            /\ tr_rr t
               = toFixed2 (rewardRisk (tr_entry t) (tr_stopLoss t) (tr_tp1 t))
            /\ (tr_status t = TP1_HIT \/ tr_status t = TP2_HIT
                \/ tr_status t = SL_HIT)
            /\ tr_closePrice t = Some (match tr_status t with
                                       | TP1_HIT => tr_tp1 t
                                       | TP2_HIT => tr_tp2 t
                                       | _ => tr_stopLoss t
                                       end)
            /\ tr_mode t = SIMULATE
            /\ tr_setupType t = LIQUIDITY_SWEEP_FVG
            /\ tr_pair t = cfg_pair config
            /\ tr_timeframe t = cfg_timeframe config
            /\ tr_riskPercent t = cfg_riskPerTrade config
            /\ tr_executedPrice t = tr_entry t)
    (res_trades result).
Proof.
  intro H. apply runBacktest_entries in H. destruct H as [Hent _].
  apply entriesFrom_each in Hent.
  eapply Forall_impl; [| exact Hent].
  intros t [i [b [_ Ht]]].
  destruct Ht as [_ [_ [[kz [Hkz Hname]] [_ [_ [_ [Hrr [Hrr2 [Hgrade [Hco
                 [Hdir [Hagents [Hstatus [Hmode [Htype [Hpair [Htf [Hrisk
                 [Hexec [_ [Hclose _]]]]]]]]]]]]]]]]]]]]].
  repeat split; try assumption.
  unfold getActiveKillzone in Hkz. cbv zeta in Hkz.
  apply firstActive_name in Hkz as [_ Hin]. rewrite Hname.
  cbn [KILLZONE_DEFS map kz_name In] in Hin.
  destruct Hin as [<- | [<- | [<- | []]]]; auto.
Qed.

Lemma backtest_trades_approved_witness :
  exists result,
    runBacktest at19h at00m noOffset history config4h = Ok result
    /\ length (res_trades result) = 2%nat
    /\ Forall (fun t => co_direction (tr_council t) = Some (tr_direction t)
                        /\ tr_killzone t = NYKZ
                        /\ tr_grade t = Grade_Aplus)
         (res_trades result).
Proof.
  assert (Hrun : exists result,
             runBacktest at19h at00m noOffset history config4h = Ok result
             /\ length (res_trades result) = 2%nat
             /\ Forall (fun t => tr_killzone t = NYKZ
                                 /\ tr_grade t = Grade_Aplus)
                  (res_trades result))
    by (eexists; split; [vm_compute; reflexivity |];
        split; [reflexivity | repeat constructor]).
  destruct Hrun as [result [Hrun [Hlen Hall]]].
  exists result. split; [exact Hrun |]. split; [exact Hlen |].
  pose proof (backtest_trades_approved at19h at00m noOffset history config4h
                result Hrun) as Happroved.
  rewrite Forall_forall in *. intros t Ht.
  destruct (Happroved t Ht) as [_ [_ [_ [Hdir _]]]].
  destruct (Hall t Ht) as [Hkz Hgrade].
  repeat split; assumption.
Defined.

(** X9.  Every trade of a backtest result is entered at a candle whose index
    is a multiple of 15, from 50 on and more than 5 candles before the end,
    in the order of the candles; the entry of a trade comes at least 30
    candles after the entry of the trade before it (the loop passes over 20
    candles after a trade, and the next multiple of 15 is 30 further). *)
Theorem backtest_trade_spacing
        (getHours getMinutes getTimezoneOffset : num -> num)
        (candles : list Candle) (config : BacktestConfig)
        (result : BacktestResult) :
  runBacktest getHours getMinutes getTimezoneOffset candles config = Ok result ->
  exists idxs,
    map tr_timestamp (res_trades result)
    = map (fun i => c_time (candleAt candles i)) idxs
    /\ Forall (fun i => (50 <= i < length candles - 5)%nat
                        /\ (i mod 15 = 0)%nat) idxs
    /\ StronglySorted (fun a b => (a + 30 <= b)%nat) idxs.
Proof.
  intro H. apply runBacktest_entries in H. destruct H as [Hent _].
  apply (entriesFrom_indices _ _ _ _ _ _ _ _ Hent).
Qed.

Lemma backtest_trade_spacing_witness :
  exists result,
    runBacktest at19h at00m noOffset history config4h = Ok result
    /\ map tr_timestamp (res_trades result)
       = map (fun i => c_time (candleAt history i)) [60%nat; 90%nat]
    /\ exists idxs,
         map tr_timestamp (res_trades result)
         = map (fun i => c_time (candleAt history i)) idxs
         /\ StronglySorted (fun a b => (a + 30 <= b)%nat) idxs.
Proof.
  assert (Hrun : exists result,
             runBacktest at19h at00m noOffset history config4h = Ok result
             /\ map tr_timestamp (res_trades result)
                = map (fun i => c_time (candleAt history i)) [60%nat; 90%nat])
    by (eexists; split; vm_compute; reflexivity).
  destruct Hrun as [result [Hrun Htimes]].
  exists result. split; [exact Hrun |]. split; [exact Htimes |].
  destruct (backtest_trade_spacing at19h at00m noOffset history config4h
              result Hrun) as [idxs [Hmap [_ Hsorted]]].
  exists idxs. split; assumption.
Defined.

(** X10.  The backtest compounds.  The trade at position [k] of a result is
    sized from the balance the trades before it left, the initial balance
    plus their P&L: its position size is that balance times the risk per
    trade over 100, divided by the distance from the entry to the stop; its
    P&L is the distance from the entry to the exit price (exit minus entry
    for a LONG, entry minus exit for a SHORT) times the position size; and
    its P&L percentage is the P&L over that balance, times 100. *)
Theorem backtest_compounding
        (getHours getMinutes getTimezoneOffset : num -> num)
        (candles : list Candle) (config : BacktestConfig)
        (result : BacktestResult) (k : nat) (t : Trade) :
  runBacktest getHours getMinutes getTimezoneOffset candles config = Ok result ->
  nth_error (res_trades result) k = Some t ->
  let balance :=
    balanceAfter (cfg_initialBalance config) (firstn k (res_trades result)) in
  tr_positionSize t
  = ((balance * cfg_riskPerTrade config) / n100)
    / abs (tr_entry t - tr_stopLoss t)
  /\ (exists exitPrice,
         tr_closePrice t = Some exitPrice
         /\ tr_pnl t
            = Some (match tr_direction t with
                    | LONG => (exitPrice - tr_entry t) * tr_positionSize t
                    | SHORT => (tr_entry t - exitPrice) * tr_positionSize t
                    end))
  /\ tr_pnlPercent t = Some ((pnlOf t / balance) * n100).
Proof.
  intros H Hk balance.
  destruct (runBacktest_kth_trade _ _ _ _ _ _ _ _ H Hk) as [i [_ Ht]].
  fold balance in Ht.
  destruct Ht as [_ [_ [_ [_ [_ [_ [_ [_ [_ [_ [_ [_ [_ [_ [_ [_ [_ [_ [_
                 [Hsize [_ [[exitPrice [Hclose [Hpnl Hpct]]] _]]]]]]]]]]]]]]]]]]]]]].
  split; [exact Hsize |]. split; [| exact Hpct].
  exists exitPrice. split; [exact Hclose |].
  rewrite Hpnl. destruct (tr_direction t); reflexivity.
Qed.

Lemma backtest_compounding_witness :
  exists result t,
    runBacktest at19h at00m noOffset history config4h = Ok result
    /\ nth_error (res_trades result) 1 = Some t
    /\ (balanceAfter (cfg_initialBalance config4h)
          (firstn 1 (res_trades result)) == Fin 990)%num
    /\ tr_positionSize t
       = ((balanceAfter (cfg_initialBalance config4h)
             (firstn 1 (res_trades result)) * cfg_riskPerTrade config4h)
          / n100)
         / abs (tr_entry t - tr_stopLoss t).
Proof.
  assert (Hrun : exists result t,
             runBacktest at19h at00m noOffset history config4h = Ok result
             /\ nth_error (res_trades result) 1 = Some t
             /\ (balanceAfter (cfg_initialBalance config4h)
                   (firstn 1 (res_trades result)) == Fin 990)%num)
    by (do 2 eexists; split; [vm_compute; reflexivity |];
        split; [reflexivity | vm_compute; reflexivity]).
  destruct Hrun as [result [t [Hrun [Hk Hbal]]]].
  exists result, t. split; [exact Hrun |]. split; [exact Hk |].
  split; [exact Hbal |].
  apply (backtest_compounding at19h at00m noOffset history config4h
           result 1 t Hrun Hk).
Defined.



(** X12.  Every trade of a backtest result is entered at a candle [i] whose
    time falls in an active killzone, on the best setup that
    [detectSweepFVGSetups] finds over the candles up to [i] and the levels
    of [detectLiquiditySweeps] (5 candles on each side): the trade has the
    direction, the entry and the stop of that setup, and its targets lie
    2.5 times and 5 times 0.8% of the close of candle [i] beyond the entry
    (above it for a LONG, below it for a SHORT). *)
Theorem backtest_trade_origin
        (getHours getMinutes getTimezoneOffset : num -> num)
        (candles : list Candle) (config : BacktestConfig)
        (result : BacktestResult) :
  runBacktest getHours getMinutes getTimezoneOffset candles config = Ok result ->
  Forall (fun t =>
            exists i kz levels setup rest,
              (50 <= i < length candles - 5)%nat
              /\ tr_timestamp t = c_time (candleAt candles i)
              /\ getActiveKillzone getHours getMinutes
                   (getMMTTime getTimezoneOffset
                      (newDate (c_time (candleAt candles i)))) = Some kz
              /\ tr_killzone t = kz_name kz
              /\ detectLiquiditySweeps (firstn (i + 1) candles)
                   (cfg_timeframe config) 5 5 = Ok levels
              /\ detectSweepFVGSetups (firstn (i + 1) candles) levels
                   (Fin 0.03) = Ok (setup :: rest)
              /\ tr_direction t = su_direction setup
              /\ tr_entry t = su_fvgEntry setup
              /\ tr_stopLoss t = su_stopLoss setup
              /\ let atr := c_close (candleAt candles i) * Fin 0.008 in
                 match tr_direction t with
                 | LONG => tr_tp1 t = tr_entry t + atr * Fin 2.5
                           /\ tr_tp2 t = tr_entry t + atr * Fin 5
                 | SHORT => tr_tp1 t = tr_entry t - atr * Fin 2.5
                            /\ tr_tp2 t = tr_entry t - atr * Fin 5
                 end)
    (res_trades result).
Proof.
  intro H. apply runBacktest_entries in H. destruct H as [Hent _].
  apply entriesFrom_each in Hent.
  eapply Forall_impl; [| exact Hent].
  intros t [i [b [Hi Ht]]].
  destruct Ht as [_ [Htime [[kz [Hkz Hname]]
                 [[levels [setup [rest [Hlevels [Hsetups [Hdir [Hentry Hstop]]]]]]]
                 [Htp1 [Htp2 _]]]]]].
  exists i, kz, levels, setup, rest.
  repeat (split; [assumption |]).
  cbv zeta. destruct (tr_direction t); split; assumption.
Qed.

Lemma backtest_trade_origin_witness :
  exists result,
    runBacktest at19h at00m noOffset history config4h = Ok result
    /\ res_trades result <> []
    /\ Forall (fun t =>
                 exists i setup,
                   tr_timestamp t = c_time (candleAt history i)
                   /\ tr_direction t = su_direction setup
                   /\ tr_entry t = su_fvgEntry setup)
         (res_trades result).
Proof.
  assert (Hrun : exists result,
             runBacktest at19h at00m noOffset history config4h = Ok result
             /\ res_trades result <> [])
    by (eexists; split; [vm_compute; reflexivity | discriminate]).
  destruct Hrun as [result [Hrun Hne]].
  exists result. split; [exact Hrun |]. split; [exact Hne |].
  eapply Forall_impl;
    [| apply (backtest_trade_origin at19h at00m noOffset history config4h
                result Hrun)].
  intros t [i [kz [levels [setup [rest [_ [Htime [_ [_ [_ [_ [Hdir
            [Hentry _]]]]]]]]]]]]].
  exists i, setup. repeat split; assumption.
Defined.

(* ================================================================== *)
(** * The metrics of a trade list *)
(* ================================================================== *)

Lemma win_or_loss (x : num) :
  ((x >? n0) = true /\ (x <=? n0) = false /\ isNaN x = false)
  \/ ((x >? n0) = false /\ (x <=? n0) = true /\ isNaN x = false)
  \/ ((x >? n0) = false /\ (x <=? n0) = false /\ isNaN x = true).
Proof.
  destruct x as [| | q |]; cbn; auto.
  unfold Qlt_bool. destruct (Qle_bool q 0); cbn; auto.
Qed.

Lemma wins_losses_count (trades : list Trade) :
  (length (winners trades) + length (losers trades)
   + length (unrated trades) = length trades)%nat.
Proof.
  unfold winners, losers, unrated.
  induction trades as [| t trades IH]; [reflexivity |].
  cbn [filter].
  destruct (win_or_loss (pnlOf t)) as [[-> [-> ->]] | [[-> [-> ->]] | [-> [-> ->]]]];
    cbn [length]; lia.
Qed.

Lemma killzoneStep_fold (trades : list Trade) (by_ : ByKillzone)
      (k : KillzoneName) :
  let by' := fold_left killzoneStep trades by_ in
  ks_trades (by' k) = (ks_trades (by_ k) + length (tradesIn k trades))%nat
  /\ ks_wins (by' k)
     = (ks_wins (by_ k) + length (winners (tradesIn k trades)))%nat
  /\ ks_pnl (by' k)
     = fold_left add (map pnlOf (tradesIn k trades)) (ks_pnl (by_ k)).
Proof.
  cbv zeta. revert by_. induction trades as [| t trades IH]; intro by_.
  - cbn. repeat split; first [reflexivity | lia].
  - cbn [fold_left]. destruct (IH (killzoneStep by_ t)) as [H1 [H2 H3]].
    rewrite H1, H2, H3. unfold killzoneStep, tradesIn.
    cbn [filter].
    destruct (KillzoneName_eqb k (tr_killzone t)).
    + cbn [ks_trades ks_wins ks_pnl]. unfold winners. cbn [filter length map fold_left].
      destruct (pnlOf t >? n0); cbn [length]; repeat split;
        first [reflexivity | lia].
    + repeat split.
Qed.

Lemma tradesIn_partition (trades : list Trade) :
  (length (tradesIn AKZ trades) + length (tradesIn LKZ trades)
   + length (tradesIn NYKZ trades) + length (tradesIn IDLE trades)
   = length trades)%nat.
Proof.
  induction trades as [| t trades IH]; [reflexivity |].
  unfold tradesIn in *. cbn [filter].
  destruct (tr_killzone t); cbn [KillzoneName_eqb length] in *; lia.
Qed.

Lemma winners_tradesIn (k : KillzoneName) (trades : list Trade) :
  winners (tradesIn k trades) = tradesIn k (winners trades).
Proof.
  unfold winners, tradesIn. induction trades as [| t trades IH];
    [reflexivity |].
  cbn [filter].
  destruct (KillzoneName_eqb k (tr_killzone t)) eqn:Ek;
    destruct (pnlOf t >? n0) eqn:Ew; cbn [filter]; rewrite ?Ek, ?Ew, IH;
    reflexivity.
Qed.

(** X13.  The counts of [calcMetrics].  The total is the number of trades;
    wins (P&L above 0), losses (P&L at most 0) and the trades whose P&L is
    NaN (counted as neither) add up to the total; the win rate is a number
    of [0, 100].  Per killzone, [trades] counts the trades entered in it and
    [wins] its winning trades, starting from 0: over AKZ, LKZ, NYKZ and IDLE
    the trade counts add up to the total and the win counts to the wins. *)
Theorem calcMetrics_counts (trades : list Trade) (config : BacktestConfig) :
  let m := calcMetrics trades config in
  m_totalTrades m = length trades
  /\ (m_wins m + m_losses m + length (unrated trades)
      = m_totalTrades m)%nat
  /\ scoreInRange (m_winRate m)
  /\ (forall k,
         ks_trades (m_byKillzone m k) = length (tradesIn k trades)
         /\ ks_wins (m_byKillzone m k) = length (winners (tradesIn k trades))
         /\ ks_pnl (m_byKillzone m k) = sum (map pnlOf (tradesIn k trades)))
  /\ (ks_trades (m_byKillzone m AKZ) + ks_trades (m_byKillzone m LKZ)
      + ks_trades (m_byKillzone m NYKZ) + ks_trades (m_byKillzone m IDLE)
      = m_totalTrades m)%nat
  /\ (ks_wins (m_byKillzone m AKZ) + ks_wins (m_byKillzone m LKZ)
      + ks_wins (m_byKillzone m NYKZ) + ks_wins (m_byKillzone m IDLE)
      = m_wins m)%nat.
Proof.
  cbv zeta. unfold calcMetrics. cbv zeta.
  destruct (fold_left drawdownStep trades
              (cfg_initialBalance config, cfg_initialBalance config, n0))
    as [[bal peak] maxDD].
  cbn [m_totalTrades m_wins m_losses m_winRate m_byKillzone].
  assert (Hkz : forall k,
             ks_trades (fold_left killzoneStep trades
                          (fun _ => mkStats 0 0 n0) k)
             = length (tradesIn k trades)
             /\ ks_wins (fold_left killzoneStep trades
                           (fun _ => mkStats 0 0 n0) k)
                = length (winners (tradesIn k trades))
             /\ ks_pnl (fold_left killzoneStep trades
                          (fun _ => mkStats 0 0 n0) k)
                = sum (map pnlOf (tradesIn k trades))).
  { intro k.
    destruct (killzoneStep_fold trades (fun _ => mkStats 0 0 n0) k)
      as [H1 [H2 H3]].
    cbv zeta in H1, H2, H3. cbn [ks_trades ks_wins ks_pnl] in H1, H2, H3.
    rewrite H1, H2, H3. repeat split. }
  split; [reflexivity |].
  split; [apply wins_losses_count |].
  split.
  { pose proof (wins_losses_count trades) as Hcount.
    unfold winners in Hcount.
    set (w := length (filter (fun t => pnlOf t >? n0) trades)) in *.
    destruct (Nat.eqb (length trades) 0) eqn:E; cbn [negb].
    - exists 0%Q. split; [reflexivity | lra].
    - apply Nat.eqb_neq in E.
      assert (Hw : (w <= length trades)%nat) by lia.
      assert (Hpos : (0 < inject_Z (Z.of_nat (length trades)))%Q)
        by (change 0%Q with (inject_Z 0); rewrite <- Zlt_Qlt; lia).
      assert (Hw0 : (0 <= inject_Z (Z.of_nat w))%Q)
        by (change 0%Q with (inject_Z 0); rewrite <- Zle_Qle; lia).
      assert (Hwn : (inject_Z (Z.of_nat w)
                     <= inject_Z (Z.of_nat (length trades)))%Q)
        by (rewrite <- Zle_Qle; lia).
      unfold ofNat, ofZ, n100. rewrite div_Fin by lra. cbn [mul].
      eexists. split; [reflexivity |].
      split.
      + apply Qmult_le_0_compat; [| lra].
        apply Qle_shift_div_l; [exact Hpos | lra].
      + assert (Hle1 : (inject_Z (Z.of_nat w)
                        / inject_Z (Z.of_nat (length trades)) <= 1)%Q)
          by (apply Qle_shift_div_r; [exact Hpos | lra]).
        nra. }
  split; [exact Hkz |].
  destruct (Hkz AKZ) as [-> [-> _]]. destruct (Hkz LKZ) as [-> [-> _]].
  destruct (Hkz NYKZ) as [-> [-> _]]. destruct (Hkz IDLE) as [-> [-> _]].
  split; [apply tradesIn_partition |].
  rewrite !winners_tradesIn. apply (tradesIn_partition (winners trades)).
Qed.

(** ** The maximum drawdown *)

Section Drawdown.

Local Open Scope Q_scope.

Lemma drawdownStep_Fin (bal peak dd p : Q) :
  exists peak1 dd1,
    (forall t, pnlOf t = Fin p ->
        drawdownStep (Fin bal, Fin peak, Fin dd) t
        = (Fin (bal + p), Fin peak1, Fin dd1))
    /\ (peak1 == peak \/ peak1 == bal + p)
    /\ peak <= peak1 /\ bal + p <= peak1
    /\ (dd1 == dd \/ dd1 == peak1 - (bal + p))
    /\ dd <= dd1 /\ peak1 - (bal + p) <= dd1.
Proof.
  destruct (Qlt_bool peak (bal + p)) eqn:E1.
  - (* a new peak *)
    destruct (Qlt_bool dd (bal + p + - (bal + p))) eqn:E2.
    + exists (bal + p), (bal + p + - (bal + p)).
      split.
      { intros t Ht. unfold drawdownStep. rewrite Ht.
        cbn [add gtb ltb]. rewrite E1. cbn [sub neg add gtb ltb].
        rewrite E2. reflexivity. }
      apply Qlt_bool_iff in E1. apply Qlt_bool_iff in E2.
      repeat split; try lra.
    + exists (bal + p), dd.
      split.
      { intros t Ht. unfold drawdownStep. rewrite Ht.
        cbn [add gtb ltb]. rewrite E1. cbn [sub neg add gtb ltb].
        rewrite E2. reflexivity. }
      apply Qlt_bool_iff in E1. apply Qlt_bool_false in E2.
      repeat split; try lra.
  - destruct (Qlt_bool dd (peak + - (bal + p))) eqn:E2.
    + exists peak, (peak + - (bal + p)).
      split.
      { intros t Ht. unfold drawdownStep. rewrite Ht.
        cbn [add gtb ltb]. rewrite E1. cbn [sub neg add gtb ltb].
        rewrite E2. reflexivity. }
      apply Qlt_bool_false in E1. apply Qlt_bool_iff in E2.
      repeat split; try lra.
    + exists peak, dd.
      split.
      { intros t Ht. unfold drawdownStep. rewrite Ht.
        cbn [add gtb ltb]. rewrite E1. cbn [sub neg add gtb ltb].
        rewrite E2. reflexivity. }
      apply Qlt_bool_false in E1. apply Qlt_bool_false in E2.
      repeat split; try lra.
Qed.

(** The balance [k] trades on from [bal]. *)
Local Abbreviation after bal trades k := (bal + sumQ (firstn k (pnlsQ trades))).

Lemma drawdown_walk (trades : list Trade) :
  Forall (fun t => isFinite (pnlOf t) = true) trades ->
  forall bal peak dd,
    bal <= peak -> peak - bal <= dd ->
    exists bal' peak' dd',
      fold_left drawdownStep trades (Fin bal, Fin peak, Fin dd)
      = (Fin bal', Fin peak', Fin dd')
      /\ dd <= dd'
      /\ (forall k, (k <= length trades)%nat ->
                    peak - after bal trades k <= dd')
      /\ (forall j k, (j <= k <= length trades)%nat ->
                      after bal trades j - after bal trades k <= dd')
      /\ (dd' == dd
          \/ (exists k, (k <= length trades)%nat
                        /\ dd' == peak - after bal trades k)
          \/ (exists j k, (j <= k <= length trades)%nat
                          /\ dd' == after bal trades j - after bal trades k)).
Proof.
  induction trades as [| t trades IH]; intros HF bal peak dd Hbp Hdd.
  - exists bal, peak, dd. split; [reflexivity |].
    split; [lra |].
    split; [intros k Hk; destruct k; cbn; lra |].
    split; [intros j k Hjk; destruct j, k; cbn; lra |].
    left. reflexivity.
  - inversion HF as [| ? ? Ht HF']; subst.
    apply isFinite_Fin in Ht. set (p := valQ (pnlOf t)) in *.
    destruct (drawdownStep_Fin bal peak dd p)
      as [peak1 [dd1 [Hstep [Hpeak1 [Hp1 [Hb1 [Hdd1 [Hd1 Hd1']]]]]]]].
    cbn [fold_left]. rewrite (Hstep t Ht).
    destruct (IH HF' (bal + p) peak1 dd1 Hb1 Hd1')
      as [bal' [peak' [dd' [Hfold [Hmono [Hpk [Hjk Hatt]]]]]]].
    exists bal', peak', dd'. split; [exact Hfold |].
    assert (Hshift : forall k,
               after bal (t :: trades) (S k) == after (bal + p) trades k).
    { intro k. unfold pnlsQ. cbn [map firstn sumQ fold_right].
      fold p. fold (pnlsQ trades).
      fold (sumQ (firstn k (pnlsQ trades))). lra. }
    assert (Hzero : after bal (t :: trades) 0 == bal)
      by (cbn; lra).
    split; [lra |].
    assert (Hpk' : forall k, (k <= length (t :: trades))%nat ->
                             peak - after bal (t :: trades) k <= dd').
    { intros k Hk. destruct k as [| k].
      - rewrite Hzero. lra.
      - rewrite Hshift. cbn [length] in Hk.
        specialize (Hpk k ltac:(lia)). lra. }
    split; [exact Hpk' |].
    split.
    { intros j k Hjk'. destruct j as [| j].
      - rewrite Hzero. specialize (Hpk' k ltac:(lia)). lra.
      - destruct k as [| k]; [lia |]. rewrite !Hshift.
        cbn [length] in Hjk'. apply Hjk. lia. }
    destruct Hatt as [Hatt | [[k [Hk Hatt]] | [j [k [Hjk' Hatt]]]]].
    + destruct Hdd1 as [Hdd1 | Hdd1].
      * left. lra.
      * destruct Hpeak1 as [Hpeak1 | Hpeak1].
        -- right. left. exists 1%nat. split; [cbn [length]; lia |].
           rewrite (Hshift 0%nat). cbn. lra.
        -- right. right. exists 1%nat, 1%nat. split; [cbn [length]; lia |].
           lra.
    + destruct Hpeak1 as [Hpeak1 | Hpeak1].
      * right. left. exists (S k). split; [cbn [length]; lia |].
        rewrite Hshift. lra.
      * right. right. exists 1%nat, (S k). split; [cbn [length]; lia |].
        rewrite !Hshift. cbn [firstn sumQ fold_right]. lra.
    + right. right. exists (S j), (S k). split; [cbn [length]; lia |].
      rewrite !Hshift. exact Hatt.
Qed.

End Drawdown.

(** X14.  The maximum drawdown of [calcMetrics], for trades with finite P&L
    and a finite initial balance, is the largest fall of the balance from an
    earlier point of the trade list to a later one: it is finite and not
    negative, no fall of the balance between two points of the list exceeds
    it, and it is the fall between two of them (0 when the balance never
    falls). *)
Theorem calcMetrics_maxDrawdown (trades : list Trade) (config : BacktestConfig)
        (Hpnl : Forall (fun t => isFinite (pnlOf t) = true) trades)
        (Hinit : isFinite (cfg_initialBalance config) = true) :
  let balance := balanceQ (cfg_initialBalance config) trades in
  exists d,
    m_maxDrawdown (calcMetrics trades config) = Fin d
    /\ (0 <= d)%Q
    /\ (forall j k, (j <= k <= length trades)%nat ->
                    (balance j - balance k <= d)%Q)
    /\ (exists j k, (j <= k <= length trades)%nat
                    /\ (d == balance j - balance k)%Q).
Proof.
  cbv zeta. unfold calcMetrics. cbv zeta.
  apply isFinite_Fin in Hinit. rewrite Hinit.
  set (b0 := valQ (cfg_initialBalance config)).
  destruct (drawdown_walk trades Hpnl b0 b0 0 ltac:(lra) ltac:(lra))
    as [bal' [peak' [dd' [Hfold [Hmono [_ [Hjk Hatt]]]]]]].
  unfold n0 at 1. rewrite Hfold. cbn [m_maxDrawdown].
  exists dd'. split; [reflexivity |]. split; [exact Hmono |].
  unfold balanceQ. cbn [valQ]. fold b0.
  split; [exact Hjk |].
  destruct Hatt as [Hatt | [[k [Hk Hatt]] | Hatt]].
  - exists 0%nat, 0%nat. split; [lia |]. rewrite Hatt. cbn. lra.
  - exists 0%nat, k. split; [lia |]. rewrite Hatt. cbn. lra.
  - exact Hatt.
Qed.

Lemma calcMetrics_maxDrawdown_witness :
  Forall (fun t => isFinite (pnlOf t) = true) fourTrades
  /\ isFinite (cfg_initialBalance sampleConfig) = true
  /\ exists d,
       m_maxDrawdown (calcMetrics fourTrades sampleConfig) = Fin d
       /\ (d == 45)%Q
       /\ (d == balanceQ (cfg_initialBalance sampleConfig) fourTrades 1
                - balanceQ (cfg_initialBalance sampleConfig) fourTrades 3)%Q.
Proof.
  assert (Hpnl : Forall (fun t => isFinite (pnlOf t) = true) fourTrades)
    by (repeat constructor).
  assert (Hinit : isFinite (cfg_initialBalance sampleConfig) = true)
    by reflexivity.
  split; [exact Hpnl |]. split; [exact Hinit |].
  destruct (calcMetrics_maxDrawdown fourTrades sampleConfig Hpnl Hinit)
    as [d [Hd _]].
  exists d. split; [exact Hd |].
  assert (Hval : m_maxDrawdown (calcMetrics fourTrades sampleConfig)
                 = Fin (1030 + - (1030 + -20 + -25)))
    by (vm_compute; reflexivity).
  rewrite Hval in Hd. injection Hd as <-.
  split; vm_compute; reflexivity.
Defined.

(** ** Best trade, worst trade and total *)

Section Extremes.

Local Open Scope Q_scope.






End Extremes.



(* ================================================================== *)
(** * The killzone clock *)
(* ================================================================== *)

Ltac decide_comparisons :=
  repeat match goal with
         | |- context [Qle_bool ?a ?b] =>
             let E := fresh "E" in
             destruct (Qle_bool a b) eqn:E;
             [apply Qle_bool_iff in E | apply Qle_bool_false in E]
         end.

Lemma getActiveKillzone_closed (getHours getMinutes : num -> num)
        (mmtTime : num) (h m : Q)
        (Hh : getHours mmtTime = Fin h) (Hm : getMinutes mmtTime = Fin m) :
  let total := (h * 60 + m)%Q in
  match getActiveKillzone getHours getMinutes mmtTime with
  | Some kz =>
      kz_active kz = true
      /\ exists r,
           kz_minutesRemaining kz = Some (Fin r)
           /\ (0 < r)%Q
           /\ ((kz_name kz = AKZ /\ (390 <= total < 600)%Q
                /\ (r == 600 - total)%Q)
               \/ (kz_name kz = LKZ /\ (780 <= total < 1020)%Q
                   /\ (r == 1020 - total)%Q)
               \/ (kz_name kz = NYKZ /\ (1095 <= total < 1325)%Q
                   /\ (r == 1325 - total)%Q))
  | None =>
      (total < 390 \/ 600 <= total < 780 \/ 1020 <= total < 1095
       \/ 1325 <= total)%Q
  end.
Proof.
  cbv zeta. unfold getActiveKillzone. cbv zeta. rewrite Hh, Hm.
  cbn [firstActive KILLZONE_DEFS kz_name kz_startH kz_startM kz_endH kz_endM
         mul add sub neg min leb geb ltb].
  unfold Qlt_bool.
  decide_comparisons; cbn [negb andb];
    decide_comparisons; cbn [negb andb kz_active kz_minutesRemaining kz_name];
    try (exfalso; lra);
    try (split; [reflexivity |]; eexists; split; [reflexivity |];
         split; [lra |]);
    try lra;
    first [ left; split; [reflexivity |]; split; lra
          | right; left; split; [reflexivity |]; split; lra
          | right; right; split; [reflexivity |]; split; lra ].
Qed.

(** X16.  [getActiveKillzone] on a clock reading of [h] hours and [m]
    minutes, with [total = 60 h + m]: the Asian killzone is active from
    390 (06:30) to before 600 (10:00), the London killzone from 780 (13:00)
    to before 1020 (17:00) and the New York killzone from 1095 (18:15) to
    before 1325 (22:05, the flatten time, not its nominal end 22:15); the
    minutes remaining count down to that end; at every other time no
    killzone is active. *)
Theorem getActiveKillzone_windows (getHours getMinutes : num -> num)
        (mmtTime : num) (h m : Q)
        (Hh : getHours mmtTime = Fin h) (Hm : getMinutes mmtTime = Fin m) :
  let total := (h * 60 + m)%Q in
  match getActiveKillzone getHours getMinutes mmtTime with
  | Some kz =>
      kz_active kz = true
      /\ exists r,
           kz_minutesRemaining kz = Some (Fin r)
           /\ (0 < r)%Q
           /\ ((kz_name kz = AKZ /\ (390 <= total < 600)%Q
                /\ (r == 600 - total)%Q)
               \/ (kz_name kz = LKZ /\ (780 <= total < 1020)%Q
                   /\ (r == 1020 - total)%Q)
               \/ (kz_name kz = NYKZ /\ (1095 <= total < 1325)%Q
                   /\ (r == 1325 - total)%Q))
  | None =>
      (total < 390 \/ 600 <= total < 780 \/ 1020 <= total < 1095
       \/ 1325 <= total)%Q
  end.
Proof. exact (getActiveKillzone_closed getHours getMinutes mmtTime h m Hh Hm). Qed.

Lemma getActiveKillzone_windows_witness :
  at19h n0 = Fin 19 /\ at00m n0 = Fin 0
  /\ exists kz, getActiveKillzone at19h at00m n0 = Some kz
                /\ kz_name kz = NYKZ
                /\ kz_minutesRemaining kz = Some (Fin (1325 - 1140)).
Proof.
  split; [reflexivity |]. split; [reflexivity |].
  pose proof (getActiveKillzone_windows at19h at00m n0 19 0 eq_refl eq_refl)
    as H.
  destruct (getActiveKillzone at19h at00m n0) as [kz |] eqn:E.
  - exists kz. split; [reflexivity |].
    assert (Hkz : kz_name kz = NYKZ
                  /\ kz_minutesRemaining kz = Some (Fin (1325 - 1140)))
      by (vm_compute in E; injection E as <-; split; reflexivity).
    exact Hkz.
  - exfalso. cbv zeta in H. lra.
Defined.

(** X17.  [nextKZ] on a clock reading of [h] hours and [m] minutes, with
    [total = 60 h + m]: before 06:30 the next killzone is the Asian one,
    from 06:30 to before 13:00 the London one, from 13:00 to before 18:15
    the New York one, and from 18:15 on the Asian one of the next day;
    [minsUntil] is the time to its start (390, 780, 1095, or 1440 + 390
    for the next day).  On a clock within the day it is more than 0 and at
    most 735 minutes, and the next killzone is never the active one. *)
Theorem nextKZ_upcoming (getHours getMinutes : num -> num)
        (mmtTime : num) (h m : Q)
        (Hh : getHours mmtTime = Fin h) (Hm : getMinutes mmtTime = Fin m) :
  let total := (h * 60 + m)%Q in
  exists kz u,
    nextKZ getHours getMinutes mmtTime = Ok (kz, Fin u)
    /\ In kz KILLZONE_DEFS
    /\ (((total < 390)%Q /\ kz_name kz = AKZ /\ (u == 390 - total)%Q)
        \/ ((390 <= total < 780)%Q /\ kz_name kz = LKZ
            /\ (u == 780 - total)%Q)
        \/ ((780 <= total < 1095)%Q /\ kz_name kz = NYKZ
            /\ (u == 1095 - total)%Q)
        \/ ((1095 <= total)%Q /\ kz_name kz = AKZ
            /\ (u == 1440 + 390 - total)%Q))
    /\ ((0 <= total < 1440)%Q -> (0 < u <= 735)%Q)
    /\ (forall active,
           getActiveKillzone getHours getMinutes mmtTime = Some active ->
           kz_name kz <> kz_name active).
Proof.
  cbv zeta.
  pose proof (getActiveKillzone_closed getHours getMinutes mmtTime h m Hh Hm)
    as Hactive.
  unfold nextKZ. cbv zeta. rewrite Hh, Hm.
  cbn [firstUpcoming KILLZONE_DEFS kz_name kz_startH kz_startM mul add sub
         neg gtb ltb get nth_error bind].
  unfold Qlt_bool.
  decide_comparisons; cbn [negb];
    (do 2 eexists; split; [reflexivity |]);
    (split; [simpl; tauto |]).
  all: cbn [kz_name].
  all: split;
    [ first [ left; split; [lra |]; split; [reflexivity | lra]
            | right; left; split; [lra |]; split; [reflexivity | lra]
            | right; right; left; split; [lra |]; split; [reflexivity | lra]
            | right; right; right; split; [lra |]; split; [reflexivity | lra] ]
    | ].
  all: split; [intro; lra |].
  all: intros active Ha; rewrite Ha in Hactive;
    destruct Hactive as [_ [r [_ [_ [[Hn [Hr _]] | [[Hn [Hr _]] | [Hn [Hr _]]]]]]]];
    rewrite Hn; first [discriminate | exfalso; lra].
Qed.

Lemma nextKZ_upcoming_witness :
  at19h n0 = Fin 19 /\ at00m n0 = Fin 0
  /\ exists kz u,
       nextKZ at19h at00m n0 = Ok (kz, Fin u)
       /\ kz_name kz = AKZ
       /\ (u == 690)%Q.
Proof.
  split; [reflexivity |]. split; [reflexivity |].
  destruct (nextKZ_upcoming at19h at00m n0 19 0 eq_refl eq_refl)
    as [kz [u [Hnext [_ [Hcases _]]]]].
  exists kz, u. split; [exact Hnext |].
  cbv zeta in Hcases.
  destruct Hcases as [[Ht _] | [[Ht _] | [[Ht _] | [_ [Hn Hu]]]]];
    try (exfalso; lra).
  split; [exact Hn | lra].
Defined.

(* ================================================================== *)
(** * Market structure *)
(* ================================================================== *)

Lemma latestSwing_In (swings : list SwingPoint) (ty : SwingType) (i : nat)
      (s : SwingPoint) :
  latestSwing swings ty i = Some s ->
  In s swings /\ sw_type s = ty /\ (sw_index s <= i)%nat.
Proof.
  unfold latestSwing. intro H.
  assert (Hin : In s (jsSort byIndexDesc
                        (filter (fun s => SwingType_eqb (sw_type s) ty
                                          && Nat.leb (sw_index s) i) swings))).
  { destruct (jsSort byIndexDesc _) as [| x l]; [discriminate H |].
    injection H as <-. left. reflexivity. }
  apply In_jsSort in Hin. apply filter_In in Hin as [Hin Hc].
  apply andb_prop in Hc as [Hty Hle]. apply Nat.leb_le in Hle.
  split; [exact Hin |]. split; [| exact Hle].
  destruct (sw_type s), ty; try discriminate Hty; reflexivity.
Qed.

Lemma find_swing_In (swings : list SwingPoint) (ty : SwingType)
      (s : SwingPoint) :
  find (fun s => SwingType_eqb (sw_type s) ty) swings = Some s ->
  In s swings /\ sw_type s = ty.
Proof.
  intro H. apply find_some in H as [Hin Hty]. split; [exact Hin |].
  destruct (sw_type s), ty; try discriminate Hty; reflexivity.
Qed.

Lemma followsTrend_snoc (trend : Trend) (points : list StructurePoint)
      (sp : StructurePoint) :
  followsTrend trend points ->
  allowedIn (fold_left trendAfter points trend) (sp_type sp) ->
  followsTrend trend (points ++ [sp]).
Proof.
  revert trend. induction points as [| p points IH]; intros trend H Hsp.
  - cbn. split; [exact Hsp | exact I].
  - destruct H as [Hp H]. cbn [app followsTrend]. split; [exact Hp |].
    apply IH; [exact H | exact Hsp].
Qed.

Section StructureWalk.

Variable candles : list Candle.
Variable swings : list SwingPoint.
Variable trend0 : Trend.

Local Abbreviation structureInvariant' :=
  (structureInvariant candles swings trend0).

Lemma breakHigh_invariant (st : StructState) (idxs : list nat) (i : nat) :
  (1 <= i < length candles)%nat ->
  structureInvariant' st idxs ->
  structureInvariant' (breakHigh swings i (candleAt candles i) st) idxs
  \/ structureInvariant' (breakHigh swings i (candleAt candles i) st)
       (idxs ++ [i]).
Proof.
  intros Hi Hinv. pose proof Hinv as [Hev [Hhigh [Hlow [Hfollow Htrend]]]].
  unfold breakHigh.
  destruct (st_lastHigh st) as [lastHigh |] eqn:Elast;
    [| left; exact Hinv].
  destruct (c_high (candleAt candles i) >? sw_price lastHigh) eqn:Ebreak;
    [| left; exact Hinv].
  right. destruct (Hhigh lastHigh eq_refl) as [Hin Hty].
  unfold structureInvariant.
  cbn [st_points st_lastHigh st_lastLow st_trend].
  split; [| split; [| split; [| split]]].
  - apply Forall2_app; [exact Hev |]. constructor; [| constructor].
    unfold eventAt. cbv zeta. cbn [sp_candle sp_time sp_price sp_type sp_confirmed].
    split; [exact Hi |]. split; [reflexivity |]. split; [reflexivity |].
    exists lastHigh. split; [exact Hin |]. split; [reflexivity |].
    destruct (st_trend st); repeat split; assumption.
  - intros s Hs. apply latestSwing_In in Hs as [Hs [Hty' _]].
    split; assumption.
  - exact Hlow.
  - apply followsTrend_snoc; [exact Hfollow |]. rewrite Htrend.
    cbn [sp_type]. destruct (st_trend st); exact I.
  - rewrite fold_left_app. cbn [fold_left]. rewrite Htrend.
    unfold trendAfter. cbn [sp_type]. destruct (st_trend st); reflexivity.
Qed.

Lemma breakLow_invariant (st : StructState) (idxs : list nat) (i : nat) :
  (1 <= i < length candles)%nat ->
  structureInvariant' st idxs ->
  structureInvariant' (breakLow swings i (candleAt candles i) st) idxs
  \/ structureInvariant' (breakLow swings i (candleAt candles i) st)
       (idxs ++ [i]).
Proof.
  intros Hi Hinv. pose proof Hinv as [Hev [Hhigh [Hlow [Hfollow Htrend]]]].
  unfold breakLow.
  destruct (st_lastLow st) as [lastLow |] eqn:Elast;
    [| left; exact Hinv].
  destruct (c_low (candleAt candles i) <? sw_price lastLow) eqn:Ebreak;
    [| left; exact Hinv].
  right. destruct (Hlow lastLow eq_refl) as [Hin Hty].
  unfold structureInvariant.
  cbn [st_points st_lastHigh st_lastLow st_trend].
  split; [| split; [| split; [| split]]].
  - apply Forall2_app; [exact Hev |]. constructor; [| constructor].
    unfold eventAt. cbv zeta. cbn [sp_candle sp_time sp_price sp_type sp_confirmed].
    split; [exact Hi |]. split; [reflexivity |]. split; [reflexivity |].
    exists lastLow. split; [exact Hin |]. split; [reflexivity |].
    destruct (st_trend st); repeat split; assumption.
  - exact Hhigh.
  - intros s Hs. apply latestSwing_In in Hs as [Hs [Hty' _]].
    split; assumption.
  - apply followsTrend_snoc; [exact Hfollow |]. rewrite Htrend.
    cbn [sp_type]. destruct (st_trend st); exact I.
  - rewrite fold_left_app. cbn [fold_left]. rewrite Htrend.
    unfold trendAfter. cbn [sp_type]. destruct (st_trend st); reflexivity.
Qed.

Lemma sorted_snoc (idxs : list nat) (i : nat) :
  StronglySorted le idxs -> Forall (fun j => (j <= i)%nat) idxs ->
  StronglySorted le (idxs ++ [i]).
Proof.
  intros Hs Hle. apply StronglySorted_app; [exact Hs | repeat constructor |].
  intros a b Ha [<- | []]. rewrite Forall_forall in Hle. apply Hle. exact Ha.
Qed.

Lemma structureLoop_invariant (n a : nat) (st st' : StructState)
      (idxs : list nat) :
  (1 <= a)%nat -> (a + n <= length candles)%nat ->
  structureInvariant' st idxs ->
  StronglySorted le idxs -> Forall (fun j => (j <= a)%nat) idxs ->
  structureLoop candles swings (seq a n) st = Ok st' ->
  exists idxs', structureInvariant' st' idxs' /\ StronglySorted le idxs'.
Proof.
  revert a st idxs. induction n as [| n IH];
    intros a st idxs Ha Hlen Hinv Hsorted Hle H.
  - injection H as <-. exists idxs. split; assumption.
  - cbn [seq structureLoop] in H.
    rewrite (get_lt candles a undefinedCandle) in H by lia.
    cbn [bind] in H. fold (candleAt candles a) in H.
    assert (Hi : (1 <= a < length candles)%nat) by lia.
    assert (Hle' : Forall (fun j => (j <= S a)%nat) idxs)
      by (eapply Forall_impl; [| exact Hle]; intros j Hj; cbv beta in *; lia).
    assert (Hsnoc : StronglySorted le (idxs ++ [a]))
      by (apply sorted_snoc; assumption).
    assert (Hle_snoc : Forall (fun j => (j <= S a)%nat) (idxs ++ [a]))
      by (apply Forall_app; split; [exact Hle' | repeat constructor; lia]).
    assert (Hle_a : Forall (fun j => (j <= a)%nat) (idxs ++ [a]))
      by (apply Forall_app; split; [exact Hle | repeat constructor]).
    destruct (breakHigh_invariant st idxs a Hi Hinv) as [Hh | Hh].
    + destruct (breakLow_invariant _ idxs a Hi Hh) as [Hl | Hl].
      * apply (IH (S a) _ idxs ltac:(lia) ltac:(lia) Hl Hsorted Hle' H).
      * apply (IH (S a) _ (idxs ++ [a]) ltac:(lia) ltac:(lia) Hl Hsnoc
                 Hle_snoc H).
    + destruct (breakLow_invariant _ (idxs ++ [a]) a Hi Hh) as [Hl | Hl].
      * apply (IH (S a) _ (idxs ++ [a]) ltac:(lia) ltac:(lia) Hl Hsnoc
                 Hle_snoc H).
      * apply (IH (S a) _ ((idxs ++ [a]) ++ [a]) ltac:(lia) ltac:(lia) Hl);
          [| | exact H].
        -- apply sorted_snoc; assumption.
        -- apply Forall_app. split; [exact Hle_snoc | repeat constructor; lia].
Qed.

End StructureWalk.

Lemma detectMarketStructure_invariant (candles : list Candle)
      (swings : list SwingPoint) :
  exists points idxs,
    detectMarketStructure candles swings = Ok points
    /\ Forall2 (eventAt candles swings) idxs points
    /\ StronglySorted le idxs
    /\ followsTrend (initialTrend swings) points.
Proof.
  unfold detectMarketStructure.
  destruct (Nat.ltb (length swings) 4) eqn:E.
  - exists [], []. repeat split; constructor.
  - apply Nat.ltb_ge in E.
    destruct swings as [| s0 rest] eqn:Esw; [simpl in E; lia |].
    rewrite <- Esw in *.
    assert (Hget : get swings 0 = Ok s0) by (rewrite Esw; reflexivity).
    rewrite Hget. cbn [bind].
    assert (Htrend : match sw_type s0 with LOW => UP | HIGH => DOWN end
                     = initialTrend swings) by (rewrite Esw; reflexivity).
    rewrite Htrend.
    destruct (structureLoop candles swings (seq 1 (length candles - 1))
                (mkStructState (initialTrend swings) (find isHighSwing swings)
                   (find isLowSwing swings) [])) as [st |] eqn:Eloop.
    + cbn [bind].
      destruct (length candles) as [| len] eqn:Elen.
      * cbn in Eloop. injection Eloop as <-. exists [], [].
        repeat split; constructor.
      * apply (structureLoop_invariant candles swings (initialTrend swings)
                 _ _ _ _ []) in Eloop.
        -- destruct Eloop as [idxs [[Hev [_ [_ [Hfollow _]]]] Hsorted]].
           exists (st_points st), idxs. repeat split; assumption.
        -- lia.
        -- rewrite Elen. lia.
        -- unfold structureInvariant.
           cbn [st_points st_lastHigh st_lastLow st_trend fold_left followsTrend].
           split; [constructor |].
           split; [intros s Hs; apply (find_swing_In swings HIGH s Hs) |].
           split; [intros s Hs; apply (find_swing_In swings LOW s Hs) |].
           split; [exact I | reflexivity].
        -- constructor.
        -- constructor.
    + exfalso.
      destruct (structureLoop_returns candles swings
                  (seq 1 (length candles - 1))
                  (mkStructState (initialTrend swings)
                     (find isHighSwing swings) (find isLowSwing swings) []))
        as [st Hst].
      * intros i Hi. apply in_seq in Hi. lia.
      * rewrite Hst in Eloop. discriminate Eloop.
Qed.

(** X18.  The events of [detectMarketStructure], in the order returned, are
    recorded at candles of non-decreasing index, from candle 1 on.  Each
    carries its candle and the candle's time, and its price is the price of
    a swing of the input: a swing HIGH that the candle's high exceeds for a
    BOS_BULL or CHoCH_BULL, a swing LOW that the candle's low undercuts for
    a BOS_BEAR or CHoCH_BEAR; it is confirmed exactly when the candle also
    closes beyond that price.  No event is an MSS. *)
Theorem detectMarketStructure_events (candles : list Candle)
        (swings : list SwingPoint) :
  exists points idxs,
    detectMarketStructure candles swings = Ok points
    /\ StronglySorted le idxs
    /\ Forall2
         (fun i sp =>
            let candle := candleAt candles i in
            (1 <= i < length candles)%nat
            /\ sp_candle sp = candle
            /\ sp_time sp = c_time candle
            /\ exists s,
                 In s swings
                 /\ sp_price sp = sw_price s
                 /\ match sp_type sp with
                    | BOS_BULL | CHoCH_BULL =>
                        sw_type s = HIGH
                        /\ (c_high candle >? sw_price s) = true
                        /\ sp_confirmed sp = (c_close candle >? sw_price s)
                    | BOS_BEAR | CHoCH_BEAR =>
                        sw_type s = LOW
                        /\ (c_low candle <? sw_price s) = true
                        /\ sp_confirmed sp = (c_close candle <? sw_price s)
                    | MSS_BULL | MSS_BEAR => False
                    end)
         idxs points.
Proof.
  destruct (detectMarketStructure_invariant candles swings)
    as [points [idxs [Hrun [Hev [Hsorted _]]]]].
  exists points, idxs. split; [exact Hrun |]. split; [exact Hsorted |].
  exact Hev.
Qed.

(** X19.  The events of [detectMarketStructure] follow the trend, which
    starts UP when the first swing is a LOW and DOWN when it is a HIGH: in
    an up trend a break of a swing high is a BOS_BULL and a break of a swing
    low a CHoCH_BEAR, which turns the trend down; in a down trend a break
    of a swing low is a BOS_BEAR and a break of a swing high a CHoCH_BULL,
    which turns the trend up.  So changes of character alternate in
    direction, and a break of structure has the direction of the change of
    character before it, or of the starting trend when there is none. *)
Theorem detectMarketStructure_follows_trend (candles : list Candle)
        (swings : list SwingPoint) :
  exists points,
    detectMarketStructure candles swings = Ok points
    /\ followsTrend (initialTrend swings) points.
Proof.
  destruct (detectMarketStructure_invariant candles swings)
    as [points [idxs [Hrun [_ [_ Hfollow]]]]].
  exists points. split; assumption.
Qed.

(* ================================================================== *)
(** * Order blocks *)
(* ================================================================== *)

Section StrengthBounds.

Local Open Scope Q_scope.

Lemma min_cap_cases (c : Q) (x : num) :
  min (Fin c) x = NaN \/ min (Fin c) x = NegInf
  \/ exists q, min (Fin c) x = Fin q /\ q <= c.
Proof.
  destruct x as [| | y |].
  - left. reflexivity.
  - right. left. reflexivity.
  - right. right. destruct (min_cap_Fin c y) as [q [Hq [Hle _]]].
    exists q. split; assumption.
  - right. right. exists c. split; [reflexivity | lra].
Qed.

Lemma round_bounds (q : Q) (lo hi : Z) :
  inject_Z lo < inject_Z (Qfloor (q + (1 # 2))) -> q <= inject_Z hi ->
  inject_Z lo < inject_Z (Qfloor (q + (1 # 2))) <= inject_Z hi.
Proof.
  intros Hlo Hhi. split; [exact Hlo |].
  rewrite <- Zle_Qle.
  assert (H : (Qfloor (q + (1 # 2)) <= Qfloor (inject_Z hi + (1 # 2)))%Z)
    by (apply Qfloor_resp_le; lra).
  assert (Hf : (Qfloor (inject_Z hi + (1 # 2)) < hi + 1)%Z).
  { pose proof (Qfloor_le (inject_Z hi + (1 # 2))) as H1.
    rewrite Zlt_Qlt, inject_Z_plus. change (inject_Z 1) with 1. lra. }
  lia.
Qed.

(** A strength above 20 is a whole number of at most 150. *)
Lemma block_strength_range (vol move : num) :
  (round (min n100 vol + min (Fin 50) move) >? Fin 20)%num = true ->
  exists z : Z,
    round (min n100 vol + min (Fin 50) move) = Fin (inject_Z z)
    /\ (20 < z <= 150)%Z.
Proof.
  unfold n100.
  destruct (min_cap_cases 100 vol) as [-> | [-> | [a [-> Ha]]]];
    destruct (min_cap_cases 50 move) as [-> | [-> | [b [-> Hb]]]];
    cbn [add round gtb ltb]; try discriminate.
  intro H. apply Qlt_bool_iff in H.
  exists (Qfloor (a + b + (1 # 2))). split; [reflexivity |].
  change 20 with (inject_Z 20) in H.
  destruct (round_bounds (a + b) 20 150 H) as [H1 H2];
    [change (inject_Z 150) with 150; lra |].
  rewrite <- Zlt_Qlt in H1. rewrite <- Zle_Qle in H2. lia.
Qed.

End StrengthBounds.

Lemma lastOpposite_closed (wanted : Candle -> bool) (candles : list Candle)
      (js : list nat) :
  (forall j, In j js -> (j < length candles)%nat) ->
  lastOpposite wanted candles js
  = Ok (option_map (candleAt candles)
          (find (fun j => wanted (candleAt candles j)) js)).
Proof.
  induction js as [| j js IH]; intro Hjs; [reflexivity |].
  assert (Hj : (j < length candles)%nat) by (apply Hjs; left; reflexivity).
  cbn [lastOpposite find]. read_candle candles j.
  destruct (wanted (candleAt candles j)); [reflexivity |].
  apply IH. intros k Hk. apply Hjs. right. exact Hk.
Qed.

Lemma bullBlock_from (avgVol : num) (timeframe : Timeframe)
      (sp : StructurePoint) (c : Candle) :
  isBullBreak (sp_type sp) = true -> isBearishCandle c = true ->
  blockFrom avgVol timeframe sp c (bullBlock c sp avgVol timeframe).
Proof.
  intros Hbreak Hcolour. unfold blockFrom, bullBlock, volStrength. cbv zeta.
  cbn [ob_time ob_volume ob_timeframe ob_type ob_id ob_top ob_bottom
         ob_strength].
  repeat split; assumption.
Qed.

Lemma bearBlock_from (avgVol : num) (timeframe : Timeframe)
      (sp : StructurePoint) (c : Candle) :
  isBearBreak (sp_type sp) = true -> isBullishCandle c = true ->
  blockFrom avgVol timeframe sp c (bearBlock c sp avgVol timeframe).
Proof.
  intros Hbreak Hcolour. unfold blockFrom, bearBlock, volStrength. cbv zeta.
  cbn [ob_time ob_volume ob_timeframe ob_type ob_id ob_top ob_bottom
         ob_strength].
  repeat split; assumption.
Qed.

Lemma blocksOf_origin (candles : list Candle) (avgVol : num)
      (timeframe : Timeframe) (sp : StructurePoint) (blocks : list OrderBlock) :
  blocksOf candles avgVol timeframe sp = Ok blocks ->
  Forall (fun ob =>
            ob_mitigated ob = false /\ ob_mitigationTime ob = None
            /\ exists j,
                 (Z.of_nat j < indexAt candles (sp_time sp)
                  <= Z.of_nat j + 20)%Z
                 /\ (j < length candles)%nat
                 /\ blockFrom avgVol timeframe sp (candleAt candles j) ob)
    blocks.
Proof.
  unfold blocksOf. fold (indexAt candles (sp_time sp)).
  set (spIdx := indexAt candles (sp_time sp)).
  destruct (spIdx <? 3)%Z eqn:E; [intro H; injection H as <-; constructor |].
  apply Z.ltb_ge in E.
  assert (Hbound : (spIdx < Z.of_nat (length candles))%Z).
  { destruct (findIndex_bounds (fun c => c_time c >=? sp_time sp) candles)
      as [H | H]; fold (indexAt candles (sp_time sp)) in H; fold spIdx in H;
      lia. }
  assert (Hin : forall j, In j (backRange (Z.to_nat spIdx)) ->
                          (j < length candles)%nat).
  { intros j Hj. apply backRange_lt in Hj. lia. }
  assert (Hrange : forall j, In j (backRange (Z.to_nat spIdx)) ->
                             (Z.of_nat j < spIdx <= Z.of_nat j + 20)%Z).
  { intros j Hj. unfold backRange in Hj. apply in_rev, in_seq in Hj. lia. }
  rewrite !lastOpposite_closed by exact Hin.
  assert (Hbull : forall j,
             isBullBreak (sp_type sp) = true ->
             find (fun j => isBearishCandle (candleAt candles j))
               (backRange (Z.to_nat spIdx)) = Some j ->
             ob_mitigated (bullBlock (candleAt candles j) sp avgVol timeframe)
             = false
             /\ ob_mitigationTime
                  (bullBlock (candleAt candles j) sp avgVol timeframe) = None
             /\ exists k,
                  (Z.of_nat k < spIdx <= Z.of_nat k + 20)%Z
                  /\ (k < length candles)%nat
                  /\ blockFrom avgVol timeframe sp (candleAt candles k)
                       (bullBlock (candleAt candles j) sp avgVol timeframe)).
  { intros j Hbreak Hfind. apply find_some in Hfind as [Hj Hc].
    split; [reflexivity |]. split; [reflexivity |].
    exists j. split; [apply Hrange; exact Hj |].
    split; [apply Hin; exact Hj |]. apply bullBlock_from; assumption. }
  assert (Hbear : forall j,
             isBearBreak (sp_type sp) = true ->
             find (fun j => isBullishCandle (candleAt candles j))
               (backRange (Z.to_nat spIdx)) = Some j ->
             ob_mitigated (bearBlock (candleAt candles j) sp avgVol timeframe)
             = false
             /\ ob_mitigationTime
                  (bearBlock (candleAt candles j) sp avgVol timeframe) = None
             /\ exists k,
                  (Z.of_nat k < spIdx <= Z.of_nat k + 20)%Z
                  /\ (k < length candles)%nat
                  /\ blockFrom avgVol timeframe sp (candleAt candles k)
                       (bearBlock (candleAt candles j) sp avgVol timeframe)).
  { intros j Hbreak Hfind. apply find_some in Hfind as [Hj Hc].
    split; [reflexivity |]. split; [reflexivity |].
    exists j. split; [apply Hrange; exact Hj |].
    split; [apply Hin; exact Hj |]. apply bearBlock_from; assumption. }
  intro H.
  destruct (isBullBreak (sp_type sp)) eqn:Ebull;
    destruct (isBearBreak (sp_type sp)) eqn:Ebear;
    destruct (find (fun j => isBearishCandle (candleAt candles j))
                (backRange (Z.to_nat spIdx))) as [jb |] eqn:Efb;
    destruct (find (fun j => isBullishCandle (candleAt candles j))
                (backRange (Z.to_nat spIdx))) as [js |] eqn:Efs;
    cbn [bind option_map app] in H; injection H as <-;
    repeat first [ apply Forall_nil
                 | apply Forall_cons;
                   [first [apply (Hbull _ eq_refl eq_refl)
                          | apply (Hbear _ eq_refl eq_refl)] |] ].
Qed.

Lemma blocksLoop_origin (candles : list Candle) (avgVol : num)
      (timeframe : Timeframe) (sps : list StructurePoint)
      (blocks : list OrderBlock) :
  blocksLoop candles avgVol timeframe sps = Ok blocks ->
  Forall (fun ob =>
            ob_mitigated ob = false /\ ob_mitigationTime ob = None
            /\ blockOrigin candles avgVol timeframe sps ob) blocks.
Proof.
  revert blocks. induction sps as [| sp sps IH]; intros blocks H.
  - injection H as <-. constructor.
  - cbn [blocksLoop] in H.
    destruct (blocksOf candles avgVol timeframe sp) as [here |] eqn:Ehere;
      cbn [bind] in H; [| discriminate H].
    destruct (blocksLoop candles avgVol timeframe sps) as [rest |] eqn:Erest;
      cbn [bind] in H; [| discriminate H].
    injection H as <-. apply Forall_app. split.
    + eapply Forall_impl; [| apply (blocksOf_origin _ _ _ _ _ Ehere)].
      intros ob [Hm [Ht [j [Hj [Hlt Hfrom]]]]].
      split; [exact Hm |]. split; [exact Ht |].
      exists sp, j. split; [left; reflexivity |].
      split; [exact Hj |]. split; [exact Hlt | exact Hfrom].
    + eapply Forall_impl; [| apply (IH rest eq_refl)].
      intros ob [Hm [Ht [sp' [j [Hsp [Hj [Hlt Hfrom]]]]]]].
      split; [exact Hm |]. split; [exact Ht |].
      exists sp', j. split; [right; exact Hsp |].
      split; [exact Hj |]. split; [exact Hlt | exact Hfrom].
Qed.

Lemma mitigationScan_closed (candles : list Candle) (ob : OrderBlock)
      (idxs : list nat) :
  (forall i, In i idxs -> (i < length candles)%nat) ->
  mitigationScan candles ob idxs
  = Ok (match find (tradesThrough ob) (map (candleAt candles) idxs) with
        | Some c => mitigate ob (c_time c)
        | None => ob
        end).
Proof.
  induction idxs as [| i idxs IH]; intro Hidx; [reflexivity |].
  assert (Hi : (i < length candles)%nat) by (apply Hidx; left; reflexivity).
  cbn [mitigationScan map find]. read_candle candles i.
  rewrite IH by (intros k Hk; apply Hidx; right; exact Hk).
  replace (tradesThrough ob (candleAt candles i))
    with (match ob_type ob with
          | BULLISH => c_low (candleAt candles i) <=? ob_bottom ob
          | BEARISH => c_high (candleAt candles i) >=? ob_top ob
          end) by reflexivity.
  destruct (ob_type ob); cbn [Bias_eqb andb];
    match goal with
    | |- context [if ?b then _ else _] => destruct b
    end; reflexivity.
Qed.

Lemma mitigationLoop_spec (candles : list Candle) (avgVol : num)
      (timeframe : Timeframe) (sps : list StructurePoint)
      (blocks blocks' : list OrderBlock) :
  Forall (fun ob =>
            ob_mitigated ob = false /\ ob_mitigationTime ob = None
            /\ blockOrigin candles avgVol timeframe sps ob) blocks ->
  mitigationLoop candles blocks = Ok blocks' ->
  Forall (fun ob =>
            blockOrigin candles avgVol timeframe sps ob
            /\ mitigationOf candles ob) blocks'.
Proof.
  revert blocks'. induction blocks as [| ob blocks IH]; intros blocks' HF H.
  - injection H as <-. constructor.
  - inversion HF as [| ? ? [Hm [Ht Horigin]] HF']; subst.
    cbn [mitigationLoop] in H.
    rewrite mitigationScan_closed in H by apply forwardRange_lt.
    cbn [bind] in H. rewrite forwardRange_candles in H.
    fold (indexAt candles (ob_time ob)) in H.
    destruct (mitigationLoop candles blocks) as [rest |] eqn:Erest;
      cbn [bind] in H; [| discriminate H].
    injection H as <-. constructor; [| apply IH; [exact HF' | reflexivity]].
    fold (candlesAfterBlock candles ob).
    destruct (find (tradesThrough ob) (candlesAfterBlock candles ob))
      as [c |] eqn:Efind.
    + split.
      * destruct Horigin as [sp [j [Hsp [Hj [Hlt Hfrom]]]]].
        exists sp, j. split; [exact Hsp |]. split; [exact Hj |].
        split; [exact Hlt |].
        unfold blockFrom in *. cbn [mitigate ob_time ob_volume ob_timeframe
                                      ob_type ob_id ob_top ob_bottom
                                      ob_strength].
        exact Hfrom.
      * unfold mitigationOf.
        replace (candlesAfterBlock candles (mitigate ob (c_time c)))
          with (candlesAfterBlock candles ob) by reflexivity.
        replace (find (tradesThrough (mitigate ob (c_time c)))
                   (candlesAfterBlock candles ob))
          with (find (tradesThrough ob) (candlesAfterBlock candles ob))
          by reflexivity.
        rewrite Efind. split; reflexivity.
    + split; [exact Horigin |].
      unfold mitigationOf. rewrite Efind. split; assumption.
Qed.

Lemma detectOrderBlocks_spec (candles : list Candle)
      (structurePoints : list StructurePoint) (timeframe : Timeframe) :
  exists blocks,
    detectOrderBlocks candles structurePoints timeframe = Ok blocks
    /\ Forall
         (fun ob =>
            (exists z : Z,
                ob_strength ob = Fin (inject_Z z) /\ (20 < z <= 150)%Z)
            /\ blockOrigin candles
                 (sum (map c_volume candles) / ofNat (length candles))
                 timeframe structurePoints ob
            /\ mitigationOf candles ob)
         blocks.
Proof.
  unfold detectOrderBlocks. cbv zeta.
  set (avgVol := sum (map c_volume candles) / ofNat (length candles)).
  destruct (blocksLoop candles avgVol timeframe structurePoints)
    as [blocks |] eqn:Eblocks;
    [| destruct (blocksLoop_returns candles avgVol timeframe structurePoints)
         as [b Hb]; rewrite Hb in Eblocks; discriminate Eblocks].
  cbn [bind].
  destruct (mitigationLoop candles blocks) as [blocks' |] eqn:Emit;
    [| destruct (mitigationLoop_returns candles blocks) as [b Hb];
       rewrite Hb in Emit; discriminate Emit].
  cbn [bind]. eexists. split; [reflexivity |].
  pose proof (mitigationLoop_spec candles avgVol timeframe structurePoints
                blocks blocks' (blocksLoop_origin _ _ _ _ _ Eblocks) Emit)
    as Hspec.
  apply Forall_forall. intros ob Hob. apply filter_In in Hob as [Hob Hstrong].
  rewrite Forall_forall in Hspec.
  destruct (Hspec ob Hob) as [Horigin Hmit].
  split; [| split; assumption].
  destruct Horigin as [sp [j [_ [_ [_ [_ [_ [_ Hfrom]]]]]]]].
  destruct (ob_type ob);
    destruct Hfrom as [_ [_ [_ [_ [_ Hstr]]]]];
    rewrite Hstr in Hstrong |- *;
    apply block_strength_range; exact Hstrong.
Qed.

(** X20.  Every order block [detectOrderBlocks] returns has a strength that
    is a whole number above 20 and at most 150, for every input.  It was
    built for an event of the input (a BOS_BULL or CHoCH_BULL for a bullish
    block, a BOS_BEAR or CHoCH_BEAR for a bearish one) from a candle 1 to 20
    candles before the candle of the event: a bearish candle (close below
    open) whose open and low are the top and the bottom of a bullish block,
    a bullish candle whose high and open are the top and the bottom of a
    bearish block.  The block is mitigated exactly when a later candle
    trades through it (low at or below the bottom of a bullish block, high
    at or above the top of a bearish one), and its mitigation time is the
    time of the first such candle. *)
Theorem detectOrderBlocks_blocks (candles : list Candle)
        (structurePoints : list StructurePoint) (timeframe : Timeframe) :
  exists blocks,
    detectOrderBlocks candles structurePoints timeframe = Ok blocks
    /\ Forall
         (fun ob =>
            (exists z : Z,
                ob_strength ob = Fin (inject_Z z) /\ (20 < z <= 150)%Z)
            /\ ob_timeframe ob = timeframe
            /\ (exists sp j,
                   In sp structurePoints
                   /\ (Z.of_nat j < indexAt candles (sp_time sp)
                       <= Z.of_nat j + 20)%Z
                   /\ (j < length candles)%nat
                   /\ let c := candleAt candles j in
                      ob_time ob = c_time c
                      /\ ob_volume ob = c_volume c
                      /\ match ob_type ob with
                         | BULLISH =>
                             isBullBreak (sp_type sp) = true
                             /\ (c_close c <? c_open c) = true
                             /\ ob_top ob = c_open c
                             /\ ob_bottom ob = c_low c
                         | BEARISH =>
                             isBearBreak (sp_type sp) = true
                             /\ (c_close c >? c_open c) = true
                             /\ ob_top ob = c_high c
                             /\ ob_bottom ob = c_open c
                         end)
            /\ match find (tradesThrough ob) (candlesAfterBlock candles ob) with
               | Some c => ob_mitigated ob = true
                           /\ ob_mitigationTime ob = Some (c_time c)
               | None => ob_mitigated ob = false
                         /\ ob_mitigationTime ob = None
               end)
         blocks.
Proof.
  destruct (detectOrderBlocks_spec candles structurePoints timeframe)
    as [blocks [Hrun Hall]].
  exists blocks. split; [exact Hrun |].
  eapply Forall_impl; [| exact Hall].
  intros ob [Hstrength [[sp [j [Hsp [Hj [Hlt Hfrom]]]]] Hmit]].
  destruct Hfrom as [Htime [Hvol [Htf Hfrom]]].
  split; [exact Hstrength |]. split; [exact Htf |].
  split; [| exact Hmit].
  exists sp, j. split; [exact Hsp |]. split; [exact Hj |].
  split; [exact Hlt |]. cbv zeta.
  split; [exact Htime |]. split; [exact Hvol |].
  destruct (ob_type ob);
    destruct Hfrom as [Hbreak [Hcolour [_ [Htop [Hbottom _]]]]];
    repeat split; assumption.
Qed.

(** X21.  [detectBreakerBlocks] over the blocks of [detectOrderBlocks]
    returns one breaker for each mitigated block, in the same order: the
    same zone (top, bottom, time) with the opposite bias, still marked
    mitigated with the same mitigation time, and 20 more strength, so a
    whole number above 40 and at most 170.  A block that is not mitigated
    yields no breaker. *)
Theorem detectBreakerBlocks_breakers (candles : list Candle)
        (structurePoints : list StructurePoint) (timeframe : Timeframe) :
  exists blocks,
    detectOrderBlocks candles structurePoints timeframe = Ok blocks
    /\ Forall2
         (fun ob breaker =>
            ob_mitigated ob = true
            /\ ob_id breaker = id_brk (ob_id ob)
            /\ ob_type breaker = flipBias (ob_type ob)
            /\ ob_top breaker = ob_top ob
            /\ ob_bottom breaker = ob_bottom ob
            /\ ob_time breaker = ob_time ob
            /\ ob_mitigated breaker = true
            /\ ob_mitigationTime breaker = ob_mitigationTime ob
            /\ ob_strength breaker = ob_strength ob + Fin 20
            /\ exists q,
                 ob_strength breaker = Fin q /\ (40 < q <= 170)%Q)
         (filter ob_mitigated blocks)
         (detectBreakerBlocks blocks candles).
Proof.
  destruct (detectOrderBlocks_spec candles structurePoints timeframe)
    as [blocks [Hrun Hall]].
  exists blocks. split; [exact Hrun |].
  unfold detectBreakerBlocks.
  assert (Hmit : Forall (fun ob =>
                           ob_mitigated ob = true
                           /\ exists z : Z,
                                ob_strength ob = Fin (inject_Z z)
                                /\ (20 < z <= 150)%Z)
                   (filter ob_mitigated blocks)).
  { apply Forall_forall. intros ob Hob. apply filter_In in Hob as [Hob Hm].
    rewrite Forall_forall in Hall. destruct (Hall ob Hob) as [Hs _].
    split; assumption. }
  induction Hmit as [| ob rest [Hm [z [Hz Hrange]]] _ IH]; [constructor |].
  cbn [map]. constructor; [| exact IH].
  unfold breakerOf.
  cbn [ob_id ob_type ob_top ob_bottom ob_time ob_mitigated ob_mitigationTime
         ob_strength].
  repeat (split; [first [reflexivity | assumption] |]).
  rewrite Hz. cbn [add]. eexists. split; [reflexivity |].
  assert (H1 : (inject_Z 20 < inject_Z z)%Q) by (rewrite <- Zlt_Qlt; lia).
  assert (H2 : (inject_Z z <= inject_Z 150)%Q) by (rewrite <- Zle_Qle; lia).
  change (inject_Z 20) with 20%Q in H1. change (inject_Z 150) with 150%Q in H2.
  lra.
Qed.

(* ================================================================== *)
(** * The PD array and its score *)
(* ================================================================== *)

Section PDArrayFacts.

Local Open Scope Q_scope.




End PDArrayFacts.





(* ================================================================== *)
(** * Gaps near the price, overlaps and confluence *)
(* ================================================================== *)

Lemma sorted_head {A : Type} (key : A -> num) (l : list A) (x : A) :
  StronglySorted (fun a b => (valQ (key b) <= valQ (key a))%Q) l ->
  hd_error l = Some x ->
  Forall (fun y => (valQ (key y) <= valQ (key x))%Q) l.
Proof.
  intros Hs Hx. destruct l as [| y l]; [discriminate Hx |].
  injection Hx as ->. inversion Hs as [| ? ? _ Hall]; subst.
  constructor; [lra | exact Hall].
Qed.

(** X24.  [nearestFVG] returns a gap of the list that is unfilled and whose
    midpoint is less than [pctRange] percent of the price away from the
    price, and (the times of the gaps being finite) none of the gaps of that
    kind is more recent; it returns nothing exactly when the list has no
    such gap. *)
Theorem nearestFVG_most_recent (fvgs : list FairValueGap)
        (price pctRange : num)
        (Htimes : Forall (fun f => isFinite (fvg_time f) = true) fvgs) :
  match nearestFVG fvgs price pctRange with
  | Some f =>
      In f fvgs
      /\ fvg_filled f = false
      /\ (abs (fvg_midpoint f - price) <? (price * pctRange) / n100) = true
      /\ Forall (fun g => (valQ (fvg_time g) <= valQ (fvg_time f))%Q)
           (filter (nearPrice price pctRange) fvgs)
  | None => filter (nearPrice price pctRange) fvgs = []
  end.
Proof.
  unfold nearestFVG. cbv zeta.
  change (fun f => negb (fvg_filled f)
                   && (abs (fvg_midpoint f - price)
                       <? (price * pctRange) / n100))
    with (nearPrice price pctRange).
  set (near := filter (nearPrice price pctRange) fvgs).
  assert (Hsorted : StronglySorted
                      (fun a b => (valQ (fvg_time b) <= valQ (fvg_time a))%Q)
                      (jsSort (fun a b => fvg_time b - fvg_time a) near)).
  { apply (jsSort_desc fvg_time). apply Forall_forall. intros f Hf.
    apply filter_In in Hf as [Hf _].
    rewrite Forall_forall in Htimes. apply Htimes. exact Hf. }
  destruct (hd_error (jsSort (fun a b => fvg_time b - fvg_time a) near))
    as [f |] eqn:Ehd.
  - assert (Hin : In f near).
    { apply (In_jsSort (fun a b => fvg_time b - fvg_time a)).
      destruct (jsSort _ near) as [| x l]; [discriminate Ehd |].
      injection Ehd as <-. left. reflexivity. }
    pose proof Hin as Hin'. apply filter_In in Hin' as [Hf Hnear].
    apply andb_prop in Hnear as [Hunfilled Hclose].
    split; [exact Hf |].
    split; [destruct (fvg_filled f); [discriminate Hunfilled | reflexivity] |].
    split; [exact Hclose |].
    pose proof (sorted_head fvg_time _ f Hsorted Ehd) as Hall.
    apply Forall_forall. intros g Hg.
    rewrite Forall_forall in Hall. apply Hall.
    apply In_jsSort. exact Hg.
  - destruct (jsSort (fun a b => fvg_time b - fvg_time a) near) as [| x l] eqn:E;
      [| discriminate Ehd].
    apply jsSort_nil_iff in E. exact E.
Qed.

Lemma nearestFVG_most_recent_witness :
  Forall (fun f => isFinite (fvg_time f) = true) bullGaps
  /\ exists f,
       nearestFVG bullGaps (Fin 100.5) (Fin 2) = Some f
       /\ fvg_time f = Fin 30
       /\ fvg_filled f = false.
Proof.
  assert (Htimes : Forall (fun f => isFinite (fvg_time f) = true) bullGaps)
    by (repeat constructor).
  split; [exact Htimes |].
  pose proof (nearestFVG_most_recent bullGaps (Fin 100.5) (Fin 2) Htimes) as H.
  destruct (nearestFVG bullGaps (Fin 100.5) (Fin 2)) as [f |] eqn:E.
  - exists f. split; [reflexivity |].
    destruct H as [_ [Hunfilled _]].
    split; [| exact Hunfilled].
    vm_compute in E. injection E as <-. reflexivity.
  - exfalso. vm_compute in H. discriminate H.
Defined.

(** ** Balanced price ranges *)

Lemma overlapOf_spec (bull bear : FairValueGap) (r : BalancedPriceRange) :
  In r (overlapOf bull bear) ->
  bpr_top r = min (fvg_top bull) (fvg_top bear)
  /\ bpr_bottom r = max (fvg_bottom bull) (fvg_bottom bear)
  /\ bpr_time r = max (fvg_time bull) (fvg_time bear)
  /\ (bpr_bottom r <? bpr_top r) = true
  /\ bpr_strength r
     = min n100
         ((((bpr_top r - bpr_bottom r) / bpr_bottom r) * n100) * Fin 20).
Proof.
  unfold overlapOf. cbv zeta.
  destruct (min (fvg_top bull) (fvg_top bear)
            >? max (fvg_bottom bull) (fvg_bottom bear)) eqn:E;
    [| intros []].
  intros [<- | []]. cbn [bpr_top bpr_bottom bpr_time bpr_strength].
  repeat split. exact E.
Qed.

Lemma overlap_strength_range (top bottom : Q) :
  (bottom < top)%Q ->
  exists s,
    min n100 ((((Fin top - Fin bottom) / Fin bottom) * n100) * Fin 20) = Fin s
    /\ (s <= 100)%Q
    /\ ((0 <= bottom)%Q -> (0 < s)%Q).
Proof.
  intro Hlt. unfold n100. cbn [sub neg add]. unfold div.
  destruct (Qeq_bool bottom 0) eqn:E0.
  - apply Qeq_bool_iff in E0.
    destruct (Qeq_bool (top + - bottom) 0) eqn:E1;
      [apply Qeq_bool_iff in E1; exfalso; lra |].
    assert (E2 : Qlt_bool 0 (top + - bottom) = true)
      by (apply Qlt_bool_iff; lra).
    rewrite E2. cbn. exists 100%Q. repeat split; lra.
  - cbn [mul].
    match goal with
    | |- context [min (Fin 100) (Fin ?y)] =>
        destruct (min_cap_Fin 100 y) as [s [-> [Hs [_ Hcases]]]]
    end.
    exists s. split; [reflexivity |]. split; [exact Hs |].
    intro Hb.
    assert (Hbpos : (0 < bottom)%Q).
    { destruct (Qlt_le_dec 0 bottom) as [H | H]; [exact H |].
      exfalso. assert (Hz : (bottom == 0)%Q) by lra.
      apply Qeq_bool_iff in Hz. congruence. }
    assert (Hratio : (0 < (top + - bottom) / bottom)%Q)
      by (apply Qlt_shift_div_l; lra).
    destruct Hcases as [Hc | Hc]; rewrite Hc; [lra |].
    apply Qmult_lt_0_compat; [| lra].
    apply Qmult_lt_0_compat; [exact Hratio | lra].
Qed.

(** X25.  Every balanced price range of [detectBPR] is the overlap of an
    unfilled gap of the first list and an unfilled gap of the second: its
    top is the lower of the two tops, its bottom the higher of the two
    bottoms, with the bottom below the top, and its time the later of the
    two times.  When the edges of the gaps are finite, its strength is a
    finite number of at most 100, positive when the bottom is not negative,
    and the ranges are returned strongest first. *)
Theorem detectBPR_overlaps (bullFVGs bearFVGs : list FairValueGap)
        (Hbull : Forall (fun f => isFinite (fvg_top f) = true
                                  /\ isFinite (fvg_bottom f) = true) bullFVGs)
        (Hbear : Forall (fun f => isFinite (fvg_top f) = true
                                  /\ isFinite (fvg_bottom f) = true) bearFVGs) :
  Forall (fun r =>
            (exists bull bear,
                In bull bullFVGs /\ fvg_filled bull = false
                /\ In bear bearFVGs /\ fvg_filled bear = false
                /\ bpr_top r = min (fvg_top bull) (fvg_top bear)
                /\ bpr_bottom r = max (fvg_bottom bull) (fvg_bottom bear)
                /\ bpr_time r = max (fvg_time bull) (fvg_time bear))
            /\ (bpr_bottom r <? bpr_top r) = true
            /\ exists s,
                 bpr_strength r = Fin s /\ (s <= 100)%Q
                 /\ ((0 <= valQ (bpr_bottom r))%Q -> (0 < s)%Q))
    (detectBPR bullFVGs bearFVGs)
  /\ StronglySorted
       (fun a b => (valQ (bpr_strength b) <= valQ (bpr_strength a))%Q)
       (detectBPR bullFVGs bearFVGs).
Proof.
  unfold detectBPR.
  set (pairs := flat_map
                  (fun bull => flat_map (overlapOf bull)
                                 (filter isUnfilled bearFVGs))
                  (filter isUnfilled bullFVGs)).
  assert (Hall : forall r, In r pairs ->
             (exists bull bear,
                 In bull bullFVGs /\ fvg_filled bull = false
                 /\ In bear bearFVGs /\ fvg_filled bear = false
                 /\ bpr_top r = min (fvg_top bull) (fvg_top bear)
                 /\ bpr_bottom r = max (fvg_bottom bull) (fvg_bottom bear)
                 /\ bpr_time r = max (fvg_time bull) (fvg_time bear))
             /\ (bpr_bottom r <? bpr_top r) = true
             /\ exists s,
                  bpr_strength r = Fin s /\ (s <= 100)%Q
                  /\ ((0 <= valQ (bpr_bottom r))%Q -> (0 < s)%Q)).
  { intros r Hr. unfold pairs in Hr.
    apply in_flat_map in Hr as [bull [Hbl Hr]].
    apply in_flat_map in Hr as [bear [Hbr Hr]].
    apply filter_In in Hbl as [Hbl Hbu]. apply filter_In in Hbr as [Hbr Hru].
    apply overlapOf_spec in Hr as [Htop [Hbottom [Htime [Hlt Hstr]]]].
    rewrite Forall_forall in Hbull, Hbear.
    destruct (Hbull bull Hbl) as [Hbt Hbb].
    destruct (Hbear bear Hbr) as [Hrt Hrb].
    apply isFinite_Fin in Hbt, Hbb, Hrt, Hrb.
    split.
    { exists bull, bear. unfold isUnfilled in Hbu, Hru.
      repeat split; try assumption.
      - destruct (fvg_filled bull); [discriminate Hbu | reflexivity].
      - destruct (fvg_filled bear); [discriminate Hru | reflexivity]. }
    split; [exact Hlt |].
    assert (Ht : exists t, bpr_top r = Fin t).
    { rewrite Htop, Hbt, Hrt.
      destruct (min_cap_Fin (valQ (fvg_top bull)) (valQ (fvg_top bear)))
        as [t [Ht _]]. exists t. exact Ht. }
    assert (Hb : exists b, bpr_bottom r = Fin b).
    { rewrite Hbottom, Hbb, Hrb.
      destruct (max_floor_Fin (valQ (fvg_bottom bull))
                  (valQ (fvg_bottom bear))) as [b [Hb _]].
      exists b. exact Hb. }
    destruct Ht as [t Ht], Hb as [b Hb].
    rewrite Ht, Hb in Hlt. apply ltb_Fin in Hlt.
    rewrite Hstr, Ht, Hb. cbn [valQ].
    apply overlap_strength_range. exact Hlt. }
  split.
  - apply Forall_forall. intros r Hr. apply In_jsSort in Hr.
    apply Hall. exact Hr.
  - apply (jsSort_desc bpr_strength). apply Forall_forall. intros r Hr.
    destruct (Hall r Hr) as [_ [_ [s [-> _]]]]. reflexivity.
Qed.

Lemma detectBPR_overlaps_witness :
  Forall (fun f => isFinite (fvg_top f) = true
                   /\ isFinite (fvg_bottom f) = true) bullGaps
  /\ Forall (fun f => isFinite (fvg_top f) = true
                      /\ isFinite (fvg_bottom f) = true) bearGaps
  /\ length (detectBPR bullGaps bearGaps) = 2%nat
  /\ StronglySorted
       (fun a b => (valQ (bpr_strength b) <= valQ (bpr_strength a))%Q)
       (detectBPR bullGaps bearGaps).
Proof.
  assert (Hbull : Forall (fun f => isFinite (fvg_top f) = true
                                   /\ isFinite (fvg_bottom f) = true) bullGaps)
    by (repeat constructor).
  assert (Hbear : Forall (fun f => isFinite (fvg_top f) = true
                                   /\ isFinite (fvg_bottom f) = true) bearGaps)
    by (repeat constructor).
  split; [exact Hbull |]. split; [exact Hbear |].
  split; [vm_compute; reflexivity |].
  apply (detectBPR_overlaps bullGaps bearGaps Hbull Hbear).
Defined.

(** ** Sweeps on two timeframes *)

Lemma confluenceOf_spec (priceTolerancePct : num) (htf ltf : LiquidityLevel)
      (c : ConfluenceSweep) :
  In c (confluenceOf priceTolerancePct htf ltf) ->
  cf_htf c = htf /\ cf_ltf c = ltf
  /\ lv_type htf = lv_type ltf
  /\ ((abs (lv_price htf - lv_price ltf) / lv_price htf) * n100
      <=? priceTolerancePct) = true
  /\ cf_confluenceScore c
     = min n100
         (round ((lv_strength htf * Fin 0.6 + lv_strength ltf * Fin 0.4)
                 * (Fin 1
                    - ((abs (lv_price htf - lv_price ltf) / lv_price htf)
                       * n100) / priceTolerancePct)
                 * (if isSwept (lv_status htf) then Fin 0.8 else Fin 1.2))).
Proof.
  unfold confluenceOf. cbv zeta.
  destruct (SwingType_eqb (lv_type htf) (lv_type ltf)) eqn:Ety;
    cbn [negb]; [| intros []].
  destruct (_ <=? priceTolerancePct) eqn:Ediff; [| intros []].
  intros [<- | []]. cbn [cf_htf cf_ltf cf_confluenceScore].
  repeat split; try assumption.
  destruct (lv_type htf), (lv_type ltf); try discriminate Ety; reflexivity.
Qed.

Section ConfluenceScore.

Local Open Scope Q_scope.

Lemma confluence_score_range (sh sl ph pl t : Q) (swept : bool) :
  0 <= sh <= 100 -> 0 <= sl <= 100 -> 0 < ph -> 0 < t ->
  ((abs (Fin ph - Fin pl) / Fin ph) * n100 <=? Fin t)%num = true ->
  scoreInRange
    (min n100
       (round ((Fin sh * Fin 0.6 + Fin sl * Fin 0.4)
               * (Fin 1 - ((abs (Fin ph - Fin pl) / Fin ph) * n100) / Fin t)
               * (if swept then Fin 0.8 else Fin 1.2)))).
Proof.
  intros Hsh Hsl Hph Ht. unfold n100. cbn [sub neg add abs].
  rewrite div_Fin by lra. cbn [mul].
  intro Hdiff. apply leb_Fin in Hdiff.
  rewrite div_Fin by lra. cbn [sub neg add mul].
  set (d := Qabs (ph + - pl) / ph * 100) in *.
  assert (Hd0 : 0 <= d).
  { unfold d. apply Qmult_le_0_compat; [| lra].
    apply Qle_shift_div_l; [exact Hph |].
    pose proof (Qabs_nonneg (ph + - pl)). lra. }
  assert (Hf : 0 <= 1 + - (d / t) <= 1).
  { assert (H1 : d / t <= 1) by (apply Qle_shift_div_r; lra).
    assert (H0 : 0 <= d / t) by (apply Qle_shift_div_l; lra).
    lra. }
  set (f := 1 + - (d / t)) in *.
  set (a := sh * 0.6 + sl * 0.4).
  assert (Ha : 0 <= a <= 100) by (unfold a; lra).
  assert (Haf : 0 <= a * f <= 100) by nra.
  assert (Hx : forall k, 0 < k <= 1.2 ->
             scoreInRange (min (Fin 100) (round (Fin (a * f * k))))).
  { intros k Hk. cbn [round].
    assert (Hprod : 0 <= a * f * k <= 120) by nra.
    destruct (min_cap_Fin 100 (inject_Z (Qfloor (a * f * k + (1 # 2)))))
      as [q [-> [Hq [_ Hcases]]]].
    exists q. split; [reflexivity |]. split; [| exact Hq].
    assert (Hz : (0 <= Qfloor (a * f * k + (1 # 2)))%Z).
    { change 0%Z with (Qfloor 0). apply Qfloor_resp_le. lra. }
    assert (Hz' : 0 <= inject_Z (Qfloor (a * f * k + (1 # 2)))).
    { change 0 with (inject_Z 0). rewrite <- Zle_Qle. exact Hz. }
    destruct Hcases as [Hc | Hc]; rewrite Hc; lra. }
  destruct swept; cbn [mul]; apply Hx; lra.
Qed.

End ConfluenceScore.

(** X26.  Every pair [findConfluenceSweeps] returns joins a level of the
    first list with a level of the second list of the same kind (both HIGH
    or both LOW) whose prices differ by at most the tolerance, in percent of
    the price of the first.  When the strengths lie in [0, 100], the prices
    are finite, those of the first list positive, and the tolerance is
    positive, every confluence score lies in [0, 100] and the pairs are
    returned best first. *)
Theorem findConfluenceSweeps_pairs (htfLevels ltfLevels : list LiquidityLevel)
        (tolerance : Q)
        (Hhtf : Forall (fun l => exists p s,
                            lv_price l = Fin p /\ lv_strength l = Fin s
                            /\ (0 < p)%Q /\ (0 <= s <= 100)%Q) htfLevels)
        (Hltf : Forall (fun l => exists p s,
                            lv_price l = Fin p /\ lv_strength l = Fin s
                            /\ (0 <= s <= 100)%Q) ltfLevels)
        (Htolerance : (0 < tolerance)%Q) :
  let pairs := findConfluenceSweeps htfLevels ltfLevels (Fin tolerance) in
  Forall (fun c =>
            In (cf_htf c) htfLevels /\ In (cf_ltf c) ltfLevels
            /\ lv_type (cf_htf c) = lv_type (cf_ltf c)
            /\ ((abs (lv_price (cf_htf c) - lv_price (cf_ltf c))
                 / lv_price (cf_htf c)) * n100 <=? Fin tolerance) = true
            /\ scoreInRange (cf_confluenceScore c))
    pairs
  /\ StronglySorted
       (fun a b => (valQ (cf_confluenceScore b)
                    <= valQ (cf_confluenceScore a))%Q)
       pairs.
Proof.
  cbv zeta. unfold findConfluenceSweeps.
  set (found := flat_map
                  (fun htf => flat_map (confluenceOf (Fin tolerance) htf)
                                ltfLevels) htfLevels).
  assert (Hall : forall c, In c found ->
             In (cf_htf c) htfLevels /\ In (cf_ltf c) ltfLevels
             /\ lv_type (cf_htf c) = lv_type (cf_ltf c)
             /\ ((abs (lv_price (cf_htf c) - lv_price (cf_ltf c))
                  / lv_price (cf_htf c)) * n100 <=? Fin tolerance) = true
             /\ scoreInRange (cf_confluenceScore c)).
  { intros c Hc. unfold found in Hc.
    apply in_flat_map in Hc as [htf [Hh Hc]].
    apply in_flat_map in Hc as [ltf [Hl Hc]].
    apply confluenceOf_spec in Hc as [-> [-> [Hty [Hdiff Hscore]]]].
    split; [exact Hh |]. split; [exact Hl |]. split; [exact Hty |].
    split; [exact Hdiff |].
    rewrite Forall_forall in Hhtf, Hltf.
    destruct (Hhtf _ Hh) as [ph [sh [Hph [Hsh [Hpos Hshr]]]]].
    destruct (Hltf _ Hl) as [pl [sl [Hpl [Hsl Hslr]]]].
    rewrite Hscore. rewrite Hph, Hpl, Hsh, Hsl in *.
    apply confluence_score_range; assumption. }
  split.
  - apply Forall_forall. intros c Hc. apply In_jsSort in Hc.
    apply Hall. exact Hc.
  - apply (jsSort_desc cf_confluenceScore). apply Forall_forall. intros c Hc.
    destruct (Hall c Hc) as [_ [_ [_ [_ [q [-> _]]]]]]. reflexivity.
Qed.

Lemma findConfluenceSweeps_pairs_witness :
  let pairs := findConfluenceSweeps sampleHtfLevels sampleLtfLevels (Fin 0.15) in
  length pairs = 2%nat
  /\ Forall (fun c => lv_type (cf_htf c) = lv_type (cf_ltf c)
                      /\ scoreInRange (cf_confluenceScore c)) pairs.
Proof.
  cbv zeta.
  assert (Hhtf : Forall (fun l => exists p s,
                             lv_price l = Fin p /\ lv_strength l = Fin s
                             /\ (0 < p)%Q /\ (0 <= s <= 100)%Q) sampleHtfLevels).
  { repeat constructor;
      (do 2 eexists; split; [reflexivity |]; split; [reflexivity |]; lra). }
  assert (Hltf : Forall (fun l => exists p s,
                             lv_price l = Fin p /\ lv_strength l = Fin s
                             /\ (0 <= s <= 100)%Q) sampleLtfLevels).
  { repeat constructor;
      (do 2 eexists; split; [reflexivity |]; split; [reflexivity |]; lra). }
  assert (Htolerance : (0 < 0.15)%Q) by lra.
  split; [vm_compute; reflexivity |].
  destruct (findConfluenceSweeps_pairs sampleHtfLevels sampleLtfLevels 0.15 Hhtf Hltf
              Htolerance) as [Hall _].
  eapply Forall_impl; [| exact Hall].
  intros c [_ [_ [Hty [_ Hscore]]]]. split; assumption.
Defined.

(* ================================================================== *)
(** * Fair-value gaps: where they are *)
(* ================================================================== *)

Lemma samePlace_refl (g : FairValueGap) : samePlace g g.
Proof. repeat split. Qed.

Lemma samePlace_trans (g s u : FairValueGap) :
  samePlace g s -> samePlace s u -> samePlace g u.
Proof.
  intros [H1 [H2 [H3 [H4 [H5 [H6 H7]]]]]] [K1 [K2 [K3 [K4 [K5 [K6 K7]]]]]].
  repeat split; congruence.
Qed.

Lemma fillStep_samePlace (g : FairValueGap) (c : Candle) :
  samePlace g (fst (fillStep g c)).
Proof.
  unfold fillStep. destruct (fvg_type g) eqn:Ety; cbv zeta;
    repeat match goal with
           | |- context [if ?b then _ else _] => destruct b
           end; cbn [fst]; unfold samePlace, setFill;
    cbn [fvg_id fvg_type fvg_top fvg_bottom fvg_time fvg_midpoint
           fvg_timeframe]; repeat split; auto.
Qed.

Lemma trackFill_samePlace (candles : list Candle) (g s : FairValueGap)
      (idxs : list nat) :
  trackFill candles g idxs = Ok s -> samePlace g s.
Proof.
  revert g. induction idxs as [| i idxs IH]; intros g H.
  - injection H as <-. apply samePlace_refl.
  - cbn [trackFill] in H.
    destruct (get candles i) as [c |]; cbn [bind] in H; [| discriminate H].
    pose proof (fillStep_samePlace g c) as Hstep.
    destruct (fillStep g c) as [g' stop]. cbn [fst] in Hstep.
    destruct stop.
    + injection H as <-. exact Hstep.
    + apply (samePlace_trans g g' s Hstep). apply IH. exact H.
Qed.

Lemma fillLoop_samePlace (candles : list Candle) (gaps fvgs : list FairValueGap) :
  fillLoop candles gaps = Ok fvgs -> Forall2 samePlace gaps fvgs.
Proof.
  revert fvgs. induction gaps as [| g gaps IH]; intros fvgs H.
  - injection H as <-. constructor.
  - cbn [fillLoop] in H.
    destruct (trackFill candles g (fillRange candles g)) as [s |] eqn:Es;
      cbn [bind] in H; [| discriminate H].
    destruct (fillLoop candles gaps) as [rest |] eqn:Erest;
      cbn [bind] in H; [| discriminate H].
    injection H as <-. constructor.
    + apply (trackFill_samePlace candles g s _ Es).
    + apply IH. reflexivity.
Qed.

Lemma gapsAt_around (candles : list Candle) (timeframe : Timeframe)
      (minSizePercent : num) (i : nat) (g : FairValueGap) :
  (1 <= i /\ i + 1 < length candles)%nat ->
  In g (gapsAt candles timeframe minSizePercent i) ->
  gapAround candles timeframe minSizePercent i g.
Proof.
  intros Hi Hg. unfold gapsAt in Hg. apply in_app_or in Hg as [Hg | Hg].
  - unfold bullGap in Hg. cbv zeta in Hg.
    destruct (c_low (candleAt candles (i + 1))
              >? c_high (candleAt candles (i - 1))) eqn:Egap; [| destruct Hg].
    destruct (_ >=? minSizePercent) eqn:Esize; [| destruct Hg].
    destruct Hg as [<- | []].
    unfold gapAround. cbv zeta.
    cbn [fvg_id fvg_type fvg_top fvg_bottom fvg_time fvg_midpoint
           fvg_timeframe].
    repeat split; try assumption; lia.
  - unfold bearGap in Hg. cbv zeta in Hg.
    destruct (c_high (candleAt candles (i + 1))
              <? c_low (candleAt candles (i - 1))) eqn:Egap; [| destruct Hg].
    destruct (_ >=? minSizePercent) eqn:Esize; [| destruct Hg].
    destruct Hg as [<- | []].
    unfold gapAround. cbv zeta.
    cbn [fvg_id fvg_type fvg_top fvg_bottom fvg_time fvg_midpoint
           fvg_timeframe].
    repeat split; try assumption; lia.
Qed.

Lemma gaps_indexed (candles : list Candle) (timeframe : Timeframe)
      (minSizePercent : num) (n a : nat) :
  (1 <= a)%nat -> (a + n + 1 <= length candles)%nat ->
  exists idxs,
    Forall2 (gapAround candles timeframe minSizePercent) idxs
      (flat_map (gapsAt candles timeframe minSizePercent) (seq a n))
    /\ StronglySorted le idxs
    /\ Forall (fun i => (a <= i)%nat) idxs.
Proof.
  revert a. induction n as [| n IH]; intros a Ha Hlen.
  - exists []. repeat split; constructor.
  - destruct (IH (S a) ltac:(lia) ltac:(lia)) as [rest [Hall [Hsorted Hge]]].
    cbn [seq flat_map].
    set (here := gapsAt candles timeframe minSizePercent a).
    exists (map (fun _ => a) here ++ rest).
    split; [| split].
    + apply Forall2_app; [| exact Hall].
      assert (Hhere : forall g, In g here ->
                                gapAround candles timeframe minSizePercent a g)
        by (intros g Hg; apply gapsAt_around; [lia | exact Hg]).
      clearbody here. induction here as [| g here IHh]; [constructor |].
      cbn [map]. constructor.
      * apply Hhere. left. reflexivity.
      * apply IHh. intros g' Hg'. apply Hhere. right. exact Hg'.
    + apply StronglySorted_app; [| exact Hsorted |].
      * clearbody here. induction here as [| g here IHh]; [constructor |].
        cbn [map]. constructor; [exact IHh |].
        apply Forall_forall. intros j Hj. apply in_map_iff in Hj as [_ [<- _]].
        lia.
      * intros x y Hx Hy. apply in_map_iff in Hx as [_ [<- _]].
        rewrite Forall_forall in Hge. specialize (Hge y Hy). lia.
    + apply Forall_app. split.
      * apply Forall_forall. intros j Hj. apply in_map_iff in Hj as [_ [<- _]].
        lia.
      * eapply Forall_impl; [| exact Hge]. intros j Hj. cbv beta in *. lia.
Qed.

Lemma gapAround_samePlace (candles : list Candle) (timeframe : Timeframe)
      (minSizePercent : num) (i : nat) (g s : FairValueGap) :
  gapAround candles timeframe minSizePercent i g -> samePlace g s ->
  gapAround candles timeframe minSizePercent i s.
Proof.
  intros Hg [H1 [H2 [H3 [H4 [H5 [H6 H7]]]]]].
  unfold gapAround in *. cbv zeta in *.
  rewrite H1, H2, H3, H4, H5, H6, H7. exact Hg.
Qed.

(** X27.  The gaps of [detectFVGs] are returned in the order of the candles
    they lie around.  A bullish gap around candle [i] spans from the high of
    candle [i - 1] up to the low of candle [i + 1], a bearish gap from the
    high of candle [i + 1] up to the low of candle [i - 1]; the bottom is
    below the top, the midpoint is their mean, the time is the time of
    candle [i], and the height is at least the minimum size, in percent of
    the bottom for a bullish gap and of the top for a bearish one.  Fill
    tracking does not move a gap. *)
Theorem detectFVGs_gaps (candles : list Candle) (timeframe : Timeframe)
        (minSizePercent : num) :
  exists fvgs idxs,
    detectFVGs candles timeframe minSizePercent = Ok fvgs
    /\ StronglySorted le idxs
    /\ Forall2
         (fun i f =>
            let prev := candleAt candles (i - 1) in
            let curr := candleAt candles i in
            let next := candleAt candles (i + 1) in
            (1 <= i /\ i + 1 < length candles)%nat
            /\ fvg_time f = c_time curr
            /\ fvg_timeframe f = timeframe
            /\ fvg_midpoint f = (fvg_top f + fvg_bottom f) / Fin 2
            /\ (fvg_bottom f <? fvg_top f) = true
            /\ match fvg_type f with
               | BULLISH =>
                   fvg_id f = id_fvg_bull (c_time curr)
                   /\ fvg_top f = c_low next /\ fvg_bottom f = c_high prev
                   /\ (((fvg_top f - fvg_bottom f) / fvg_bottom f) * n100
                       >=? minSizePercent) = true
               | BEARISH =>
                   fvg_id f = id_fvg_bear (c_time curr)
                   /\ fvg_top f = c_low prev /\ fvg_bottom f = c_high next
                   /\ (((fvg_top f - fvg_bottom f) / fvg_top f) * n100
                       >=? minSizePercent) = true
               end)
         idxs fvgs.
Proof.
  unfold detectFVGs. rewrite newGaps_closed. cbn [bind].
  assert (Hidx : exists idxs,
             Forall2 (gapAround candles timeframe minSizePercent) idxs
               (flat_map (gapsAt candles timeframe minSizePercent)
                  (seq 1 (length candles - 1 - 1)))
             /\ StronglySorted le idxs).
  { destruct (Nat.le_gt_cases (length candles) 2) as [Hshort | Hlong].
    - replace (length candles - 1 - 1)%nat with 0%nat by lia.
      exists []. split; constructor.
    - destruct (gaps_indexed candles timeframe minSizePercent
                  (length candles - 1 - 1) 1 ltac:(lia) ltac:(lia))
        as [idxs [Hall [Hsorted _]]].
      exists idxs. split; assumption. }
  destruct Hidx as [idxs [Hall Hsorted]].
  set (gaps := flat_map (gapsAt candles timeframe minSizePercent)
                 (seq 1 (length candles - 1 - 1))) in *.
  destruct (fillLoop candles gaps) as [fvgs |] eqn:Efill;
    [| destruct (fillLoop_returns candles gaps) as [x Hx];
       rewrite Hx in Efill; discriminate Efill].
  apply fillLoop_samePlace in Efill.
  exists fvgs, idxs. split; [reflexivity |]. split; [exact Hsorted |].
  clear Hsorted. clearbody gaps. revert fvgs Efill.
  induction Hall as [| i g idxs gaps' Hg _ IH]; intros fvgs Efill.
  - inversion Efill; subst. constructor.
  - inversion Efill as [| ? s ? rest Hs Hrest]; subst.
    constructor; [| apply IH; exact Hrest].
    apply (gapAround_samePlace _ _ _ _ _ _ Hg Hs).
Qed.

(* ================================================================== *)
(** * The ceiling of the consensus *)
(* ================================================================== *)

Section Ceilings.

Local Open Scope Q_scope.

Lemma clamp_ceiling (y c : Q) :
  y <= c -> 0 <= c <= 100 ->
  exists q, clamp (Fin y) = Fin q /\ 0 <= q <= c.
Proof.
  intros Hy Hc. unfold clamp, n0, n100.
  destruct (min_cap_Fin 100 y) as [a [-> [Ha [Hay _]]]].
  destruct (max_floor_Fin 0 a) as [b [-> [Hb [_ Hcases]]]].
  exists b. split; [reflexivity |]. split; [exact Hb |].
  destruct Hcases as [H | H]; rewrite H; lra.
Qed.

Lemma average_strength_cap (levels : list LiquidityLevel) :
  Forall (fun l => isFinite (lv_strength l) = true) levels ->
  Nat.ltb 0 (length levels) = true ->
  exists a,
    min (Fin 40)
      ((sum (map lv_strength levels) / ofNat (length levels)) * Fin 0.4)%num
    = Fin a /\ a <= 40.
Proof.
  intros HF Hlen. apply Nat.ltb_lt in Hlen.
  destruct (sum_Fin (map lv_strength levels)) as [s [-> _]];
    [apply Forall_map; exact HF |].
  unfold ofNat, ofZ.
  assert (Hpos : 0 < inject_Z (Z.of_nat (length levels)))
    by (change 0 with (inject_Z 0); rewrite <- Zlt_Qlt; lia).
  rewrite div_Fin by lra. cbn [mul].
  match goal with
  | |- context [min (Fin 40) (Fin ?y)] =>
      destruct (min_cap_Fin 40 y) as [a [Ha [Hle _]]]
  end.
  exists a. split; assumption.
Qed.

End Ceilings.

Ltac tally_ceiling c :=
  repeat match goal with
         | |- context [if ?b then _ else _] => destruct b
         | |- context [match ?o with Some _ => _ | None => _ end] => destruct o
         end;
  cbn [bump note adjust fst snd add neg n0];
  apply (clamp_ceiling _ c); lra.

Lemma runLiquidityAgent_score_ceiling (levels : list LiquidityLevel)
      (currentPrice : num) (direction : TradeDirection) :
  Forall (fun l => isFinite (lv_strength l) = true) levels ->
  exists q,
    ag_score (runLiquidityAgent levels currentPrice direction) = Fin q
    /\ (0 <= q <= 85)%Q.
Proof.
  intro HF. unfold runLiquidityAgent. cbv zeta. cbn [ag_score].
  set (alignedSweeps :=
         filter (fun l => match direction with
                          | LONG => SwingType_eqb (lv_type l) LOW
                          | SHORT => SwingType_eqb (lv_type l) HIGH
                          end)
           (lastN 10 (filter (fun l => isSwept (lv_status l)) levels))).
  assert (HFa : Forall (fun l => isFinite (lv_strength l) = true)
                  alignedSweeps).
  { apply Forall_forall. intros l Hl. unfold alignedSweeps in Hl.
    apply filter_In in Hl as [Hl _].
    apply In_lastN in Hl. apply filter_In in Hl as [Hl _].
    rewrite Forall_forall in HF. apply HF. exact Hl. }
  destruct (Nat.ltb 0 (length alignedSweeps)) eqn:Hlen.
  - destruct (average_strength_cap alignedSweeps HFa Hlen) as [a [-> Ha]].
    unfold n0. tally_ceiling 85%Q.
  - unfold n0. tally_ceiling 85%Q.
Qed.

Lemma runRiskAgent_score_ceiling (killzone : option Killzone)
      (balance tradesThisSession entryPrice stopLoss tp1 : num)
      (newsInWindow : bool) :
  exists q,
    ag_score (runRiskAgent killzone balance tradesThisSession entryPrice
                stopLoss tp1 newsInWindow) = Fin q
    /\ (0 <= q <= 85)%Q.
Proof.
  unfold runRiskAgent.
  destruct (balance <? Fin 30); destruct (tradesThisSession >=? Fin 2);
    cbv zeta iota beta;
    try (exists 0%Q; split; [reflexivity | lra]).
  set (rr := abs (tp1 - entryPrice) / abs (entryPrice - stopLoss)).
  destruct killzone as [kz |];
    [destruct (kz_active kz); [destruct (isNYKZ (kz_name kz));
       destruct (_ <? Fin 15) |] |];
    destruct (rr >=? Fin 3); try destruct (rr >=? Fin 2);
    destruct newsInWindow; destruct (tradesThisSession === n0);
    cbn [ag_score bump fst snd];
    (eexists; split; [vm_compute; reflexivity | split; vm_compute; discriminate]).
Qed.

Section CouncilCeiling.

Local Open Scope Q_scope.

(** The consensus of five signals with the fixed weights. *)
Lemma council_of_five (a1 a2 a3 a4 a5 : AgentSignal) (s1 s2 s3 s4 s5 : Q) :
  map ag_weight [a1; a2; a3; a4; a5] = fixedWeights ->
  ag_score a1 = Fin s1 -> ag_score a2 = Fin s2 -> ag_score a3 = Fin s3 ->
  ag_score a4 = Fin s4 -> ag_score a5 = Fin s5 ->
  exists x,
    rawConsensus [a1; a2; a3; a4; a5] = Fin x
    /\ x == s1 * 0.25 + s2 * 0.25 + s3 * 0.20 + s4 * 0.15 + s5 * 0.15.
Proof.
  intros HW H1 H2 H3 H4 H5. cbn [map] in HW. unfold fixedWeights in HW.
  injection HW as W1 W2 W3 W4 W5.
  unfold rawConsensus, weightedSum, totalWeight. cbn [fold_left].
  rewrite H1, H2, H3, H4, H5, W1, W2, W3, W4, W5.
  unfold WEIGHTS.STRUCTURE, WEIGHTS.LIQUIDITY, WEIGHTS.ARRAY, WEIGHTS.RISK,
    WEIGHTS.EXECUTION, n0.
  cbn [add mul]. rewrite div_Fin by (intro H; vm_compute in H; discriminate H).
  eexists. split; [reflexivity |]. field.
Qed.

Lemma gradeOf_passes (x : Q) :
  gradeOf (Fin x) = Grade_Aplus \/ gradeOf (Fin x) = Grade_A -> 80 <= x.
Proof.
  unfold gradeOf.
  destruct (Fin x >=? Fin 90) eqn:E1;
    [apply geb_Fin in E1; intros _; lra |].
  destruct (Fin x >=? Fin 80) eqn:E2;
    [apply geb_Fin in E2; intros _; exact E2 |].
  destruct (Fin x >=? Fin 65); intros [H | H]; discriminate H.
Qed.

Lemma round_between (x : Q) (lo hi : Z) :
  inject_Z lo <= x <= inject_Z hi ->
  (lo <= Qfloor (x + (1 # 2)) <= hi)%Z.
Proof.
  intros [Hlo Hhi]. split.
  - rewrite <- (Qfloor_Z lo). apply Qfloor_resp_le. lra.
  - assert (H : (Qfloor (x + (1 # 2)) < hi + 1)%Z).
    { pose proof (Qfloor_le (x + (1 # 2))) as H1.
      rewrite Zlt_Qlt, inject_Z_plus. change (inject_Z 1) with 1. lra. }
    lia.
Qed.

End CouncilCeiling.

(** X28.  No setup scores above 94.  The Liquidity agent (with finite level
    strengths) and the Risk agent never score above 85, whatever the input,
    so the consensus score the council reports over the five agents is a
    whole number between 0 and 94. *)
Theorem council_score_ceiling
        (candles sliceCandles : list Candle)
        (structurePoints : list StructurePoint)
        (levels : list LiquidityLevel) (orderBlocks : list OrderBlock)
        (fvgs : list FairValueGap) (pdArray : option PDArray)
        (currentPrice : num) (direction : TradeDirection)
        (killzone : option Killzone)
        (balance tradesThisSession entryPrice stopLoss tp1 tp2 : num)
        (newsInWindow : bool) (fvgMidpoint obEdge : option num)
        (Hlevels : Forall (fun l => isFinite (lv_strength l) = true) levels) :
  let liquidity := runLiquidityAgent levels currentPrice direction in
  let risk := runRiskAgent killzone balance tradesThisSession entryPrice
                stopLoss tp1 newsInWindow in
  let council :=
    runCouncil
      [ runStructureAgent candles structurePoints direction;
        liquidity;
        runArrayAgent orderBlocks fvgs pdArray currentPrice direction;
        risk;
        runExecutionAgent sliceCandles entryPrice stopLoss tp1 tp2 direction
          fvgMidpoint obEdge ] in
  (exists q, ag_score liquidity = Fin q /\ (0 <= q <= 85)%Q)
  /\ (exists q, ag_score risk = Fin q /\ (0 <= q <= 85)%Q)
  /\ exists z : Z,
       co_consensusScore council = Fin (inject_Z z) /\ (0 <= z <= 94)%Z.
Proof.
  cbv zeta.
  pose proof (runLiquidityAgent_score_ceiling levels currentPrice direction
                Hlevels) as Hl.
  pose proof (runRiskAgent_score_ceiling killzone balance tradesThisSession
                entryPrice stopLoss tp1 newsInWindow) as Hr.
  split; [exact Hl |]. split; [exact Hr |].
  destruct Hl as [s2 [H2 R2]]. destruct Hr as [s4 [H4 R4]].
  destruct (runStructureAgent_score_range candles structurePoints direction)
    as [s1 [H1 R1]].
  destruct (runArrayAgent_score_range orderBlocks fvgs pdArray currentPrice
              direction) as [s3 [H3 R3]].
  destruct (runExecutionAgent_score_range sliceCandles entryPrice stopLoss tp1
              tp2 direction fvgMidpoint obEdge) as [s5 [H5 R5]].
  assert (HW : map ag_weight
                 [ runStructureAgent candles structurePoints direction;
                   runLiquidityAgent levels currentPrice direction;
                   runArrayAgent orderBlocks fvgs pdArray currentPrice
                     direction;
                   runRiskAgent killzone balance tradesThisSession entryPrice
                     stopLoss tp1 newsInWindow;
                   runExecutionAgent sliceCandles entryPrice stopLoss tp1 tp2
                     direction fvgMidpoint obEdge ] = fixedWeights)
    by (cbn [map]; rewrite runRiskAgent_weight; reflexivity).
  destruct (council_of_five _ _ _ _ _ s1 s2 s3 s4 s5 HW H1 H2 H3 H4 H5)
    as [x [Hx Hxeq]].
  unfold runCouncil. cbn [co_consensusScore]. rewrite Hx. cbn [round].
  eexists. split; [reflexivity |].
  apply round_between. change (inject_Z 0) with 0%Q.
  change (inject_Z 94) with 94%Q. lra.
Qed.

Lemma council_score_ceiling_witness :
  Forall (fun l => isFinite (lv_strength l) = true) historyLevels
  /\ exists z : Z,
       co_consensusScore
         (runCouncil
            [ runStructureAgent historySlice historyStructure LONG;
              runLiquidityAgent historyLevels (Fin 100.3) LONG;
              runArrayAgent [] [] None (Fin 100.3) LONG;
              runRiskAgent (Some activeNYKZ) (Fin 1000) n0 (Fin 100)
                (Fin 99.4) (Fin 102) false;
              runExecutionAgent historySlice (Fin 100) (Fin 99.4) (Fin 102)
                (Fin 104) LONG (Some (Fin 100)) None ])
       = Fin (inject_Z z)
       /\ (0 <= z <= 94)%Z.
Proof.
  assert (Hlevels : Forall (fun l => isFinite (lv_strength l) = true)
                      historyLevels)
    by (vm_compute; repeat constructor).
  split; [exact Hlevels |].
  apply (council_score_ceiling historySlice historySlice historyStructure
           historyLevels [] [] None (Fin 100.3) LONG (Some activeNYKZ)
           (Fin 1000) n0 (Fin 100) (Fin 99.4) (Fin 102) (Fin 104) false
           (Some (Fin 100)) None Hlevels).
Defined.

Lemma detectLiquiditySweeps_finite (candles : list Candle)
      (timeframe : Timeframe) (leftLen rightLen : nat)
      (levels : list LiquidityLevel) :
  detectLiquiditySweeps candles timeframe leftLen rightLen = Ok levels ->
  Forall (fun l => isFinite (lv_strength l) = true) levels.
Proof.
  unfold detectLiquiditySweeps.
  destruct (detectSwings candles leftLen rightLen) as [swings |];
    cbn [bind]; [| discriminate].
  revert levels. induction swings as [| swing swings IH]; intros levels H.
  - injection H as <-. constructor.
  - cbn [levelsLoop] in H. rewrite levelOf_closed in H. cbn [bind] in H.
    destruct (levelsLoop candles timeframe swings) as [rest |];
      cbn [bind] in H; [| discriminate H].
    injection H as <-. constructor; [| apply IH; reflexivity].
    cbv zeta.
    destruct (level_strength_range
                (length (filter (inBand swing)
                           (candlesAfter candles (sw_index swing)))))
      as [q [Hq _]].
    destruct (find (sweepsThrough swing)
                (candlesAfter candles (sw_index swing)));
      change (isFinite
                (min n100
                   (Fin 30
                    + ofNat (length (filter (inBand swing)
                                       (candlesAfter candles
                                          (sw_index swing))))
                      * Fin 15)) = true);
      rewrite Hq; reflexivity.
Qed.

(** X29.  Every trade of a backtest result records a consensus score that
    is a whole number between 80 and 94: the council that approved it is the
    council over the five agents run on the candles up to the entry candle,
    it graded the setup A or A+, which takes an average of at least 80, and
    no council of the five agents reaches more than 94. *)
Theorem backtest_consensus_range
        (getHours getMinutes getTimezoneOffset : num -> num)
        (candles : list Candle) (config : BacktestConfig)
        (result : BacktestResult) :
  runBacktest getHours getMinutes getTimezoneOffset candles config = Ok result ->
  Forall (fun t =>
            exists z : Z,
              co_consensusScore (tr_council t) = Fin (inject_Z z)
              /\ (80 <= z <= 94)%Z)
    (res_trades result).
Proof.
  intro H. apply runBacktest_entries in H. destruct H as [Hent _].
  apply entriesFrom_each in Hent.
  eapply Forall_impl; [| exact Hent].
  intros t [i [b [_ Ht]]].
  destruct Ht as [_ [_ [_ [_ [_ [_ [_ [_ [Hgrade [Hco [_ [_ [_ [_ [_ [_ [_
                 [_ [_ [_ [_ [_ Hcouncil]]]]]]]]]]]]]]]]]]]]]].
  destruct Hcouncil
    as [swings [structure [obs [fvgs [levels [kz [_ [_ [_ [_ [Hlevels Hc]]]]]]]]]]].
  apply detectLiquiditySweeps_finite in Hlevels.
  rewrite Hco in Hgrade. rewrite Hc in Hgrade |- *.
  set (slice := firstn (i + 1) candles) in *.
  set (close := c_close (candleAt candles i)) in *.
  destruct (runLiquidityAgent_score_ceiling levels close (tr_direction t)
              Hlevels) as [s2 [H2 R2]].
  destruct (runRiskAgent_score_ceiling (Some kz) b n0 (tr_entry t)
              (tr_stopLoss t) (tr_tp1 t) false) as [s4 [H4 R4]].
  destruct (runStructureAgent_score_range slice structure (tr_direction t))
    as [s1 [H1 R1]].
  destruct (runArrayAgent_score_range obs fvgs (calcPDArray swings close)
              close (tr_direction t)) as [s3 [H3 R3]].
  destruct (runExecutionAgent_score_range slice (tr_entry t) (tr_stopLoss t)
              (tr_tp1 t) (tr_tp2 t) (tr_direction t) (Some (tr_entry t)) None)
    as [s5 [H5 R5]].
  assert (HW : map ag_weight
                 [ runStructureAgent slice structure (tr_direction t);
                   runLiquidityAgent levels close (tr_direction t);
                   runArrayAgent obs fvgs (calcPDArray swings close) close
                     (tr_direction t);
                   runRiskAgent (Some kz) b n0 (tr_entry t) (tr_stopLoss t)
                     (tr_tp1 t) false;
                   runExecutionAgent slice (tr_entry t) (tr_stopLoss t)
                     (tr_tp1 t) (tr_tp2 t) (tr_direction t)
                     (Some (tr_entry t)) None ] = fixedWeights)
    by (cbn [map]; rewrite runRiskAgent_weight; reflexivity).
  destruct (council_of_five _ _ _ _ _ s1 s2 s3 s4 s5 HW H1 H2 H3 H4 H5)
    as [x [Hx Hxeq]].
  unfold runCouncil in Hgrade |- *. cbn [co_grade] in Hgrade.
  cbn [co_consensusScore]. rewrite Hx in Hgrade |- *.
  apply gradeOf_passes in Hgrade. cbn [round].
  eexists. split; [reflexivity |].
  apply round_between. change (inject_Z 80) with 80%Q.
  change (inject_Z 94) with 94%Q. lra.
Qed.

Lemma backtest_consensus_range_witness :
  exists result,
    runBacktest at19h at00m noOffset history config4h = Ok result
    /\ res_trades result <> []
    /\ Forall (fun t =>
                 exists z : Z,
                   co_consensusScore (tr_council t) = Fin (inject_Z z)
                   /\ (80 <= z <= 94)%Z)
         (res_trades result).
Proof.
  assert (Hrun : exists result,
             runBacktest at19h at00m noOffset history config4h = Ok result
             /\ res_trades result <> [])
    by (eexists; split; [vm_compute; reflexivity | discriminate]).
  destruct Hrun as [result [Hrun Hne]].
  exists result. split; [exact Hrun |]. split; [exact Hne |].
  apply (backtest_consensus_range at19h at00m noOffset history config4h
           result Hrun).
Defined.
